(** * The ODTK attribute-proxy client (odtk.py): reference counting,
      wire decoding and the HTTP transport, as a shallow embedding.

    The Python classes become modules ([ClientException], [AttrRef],
    [Transport], [AttrProxy], [Client]); a method becomes a function in an
    error and state monad over the [World].  The [World] holds the one
    [Transport] object every proxy shares (its table, its flag, its
    connection), the objects that are alive (the [heap]), the peer ([wire]:
    what the n-th submitted request meets) and the record of what was done
    on the connection ([trace]).  [json.loads] and [json.dumps] are
    parameters.  The methods of [Transport] call each other in a cycle,
    which a [fuel] argument bounds as the recursion limit of the
    interpreter does. *)

From stdpp Require Import base decidable option numbers strings list list_numbers pretty.
From Stdlib Require Import ZArith Lia Ascii.

Open Scope Z_scope.
Open Scope string_scope.

(** ** Python values *)

(** What [json.loads] can return.  A float is kept as its lexeme: nothing
    here computes with one.  A [PDict] lists the members of the resulting
    dictionary in insertion order, with distinct keys. *)
#[warnings="-register-all"]
Inductive pyval : Type :=
| PNone
| PBool (b : bool)
| PInt (z : Z)
| PFloat (lexeme : string)
| PStr (s : string)
| PList (items : list pyval)
| PDict (members : list (string * pyval)).

(** [spec_type is bool or spec_type is float or spec_type is int or
    spec_type is str] *)
Definition is_scalar (v : pyval) : bool :=
  match v with
  | PBool _ | PFloat _ | PInt _ | PStr _ => true
  | _ => false
  end.

(** [v == s] for a [str] [s]. *)
Definition py_eq_str (v : pyval) (s : string) : bool :=
  match v with
  | PStr x => String.eqb x s
  | _ => false
  end.

Fixpoint dict_get (members : list (string * pyval)) (key : string) : option pyval :=
  match members with
  | [] => None
  | (k, v) :: rest => if String.eqb k key then Some v else dict_get rest key
  end.

(** ** Exceptions *)

(** The exceptions the code raises or lets through.  [NetError] stands for
    the errors of the socket and of [http.client] other than
    [ConnectionAbortedError].  Paths are text throughout, as every caller in
    the file passes them and as the table, a dictionary keyed by them,
    is modelled; a reference whose ["path"] member is not a JSON string lies
    outside the embedding, and [Unmodelled] marks it. *)
Inductive exn : Type :=
| ClientException_ (message error_code : pyval)
| ConnectionAbortedError
| TypeError
| KeyError (key : string)
| RecursionError
| UnicodeDecodeError
| JSONDecodeError
| AttributeError
| NetError (name : string)
| Unmodelled.

Module ClientExceptionCodes.
Definition INVALID_ATTRIBUTE_PATH := "InvalidAttributePath".
Definition BAD_REQUEST := "BadRequest".
Definition EXECUTION_ERROR := "ExecutionError".
Definition INTERNAL_ERROR := "InternalError".
Definition SERIALIZATION_ERROR := "SerializationError".
Definition INVALID_OPERATION := "InvalidOperation".
End ClientExceptionCodes.

(** The text of one double quote. *)
Definition dquote : string := String (Ascii.ascii_of_nat 34) EmptyString.

(** [a + b] where [a] is a [str]: Python concatenates only with a [str]. *)
Definition str_add (a : string) (b : pyval) : exn + string :=
  match b with
  | PStr s => inr (a ++ s)
  | _ => inl TypeError
  end.

Module ClientException.
(** [ClientException(message, error_code)] *)
Definition __init__ (message error_code : pyval) : exn :=
    ClientException_ message error_code.

(** [return ClientException(message, "HTTP" + status_code)] *)
Definition create_from_http_status (status_code : pyval) (message : pyval)
  : exn + exn :=
  match str_add "HTTP" status_code with
  | inl e => inl e
  | inr code => inr (__init__ message (PStr code))
  end.
End ClientException.

(** ** Objects *)

(** A reference to the one [Transport] of the store, or [None]. *)
Definition handle := option unit.

Record AttrRef_ : Type := mkAttrRef {
  ref_path : string;
  ref_temporary : bool;
  ref_transport : handle;
}.

Record AttrProxy_ : Type := mkAttrProxy {
  path : string;
  temporary : bool;
}.

Inductive obj : Type :=
| ORef (r : AttrRef_)
| OProxy (p : AttrProxy_).

(** ** The HTTP connection *)

Definition headers := list (string * string).

(** What the peer does with the n-th call of [connection.request]: the call
    itself raises, or it goes out and [getresponse] raises, or a response
    comes back.  The body is the text its bytes decode to, [None] when they
    are not UTF-8. *)
Inductive reply : Type :=
| ReqRaises (e : exn)
| RespRaises (e : exn)
| Response (status : Z) (reason : string) (body : option string).

Inductive event : Type :=
| EvOpen (conn : nat)
| EvClose (conn : nat)
| EvRequest (conn : nat) (method url : string) (body : option string) (h : headers)
| EvGetResponse (conn : nat).

(** ** The reference table: a [dict] from paths to counts.  A Python
    [dict] lists its keys in the order in which they were inserted, and
    [close] reads them in that order; the entries are kept in it. *)

Record pydict : Type := Dict { entries : list (string * Z) }.

(** [d[k]] *)
Fixpoint assoc_get (k : string) (l : list (string * Z)) : option Z :=
  match l with
  | [] => None
  | (k', c) :: rest => if String.eqb k' k then Some c else assoc_get k rest
  end.

(** [d[k] = c]: an entry that is there keeps its place, a new one goes
    to the end. *)
Fixpoint assoc_set (k : string) (c : Z) (l : list (string * Z)) : list (string * Z) :=
  match l with
  | [] => [(k, c)]
  | (k', c') :: rest =>
      if String.eqb k' k then (k, c) :: rest else (k', c') :: assoc_set k c rest
  end.

(** [del d[k]], for a key that is there. *)
Fixpoint assoc_del (k : string) (l : list (string * Z)) : list (string * Z) :=
  match l with
  | [] => []
  | (k', c) :: rest =>
      if String.eqb k' k then assoc_del k rest else (k', c) :: assoc_del k rest
  end.

Global Instance pydict_lookup : Lookup string Z pydict :=
  fun k d => assoc_get k (entries d).
Global Instance pydict_insert : Insert string Z pydict :=
  fun k c d => Dict (assoc_set k c (entries d)).
Global Instance pydict_delete : Delete string pydict :=
  fun k d => Dict (assoc_del k (entries d)).
Global Instance pydict_empty : Empty pydict := Dict [].
Global Instance pydict_eq_dec : EqDecision pydict.
Proof. solve_decision. Defined.

Arguments pydict_lookup : simpl never.
Arguments pydict_insert : simpl never.
Arguments pydict_delete : simpl never.

(** ** The store *)

Record World : Type := mkWorld {
  baseUrl : string;
  connection : option nat;
  temporary_references : pydict;
  disposed : bool;
  (* the environment *)
  opened : nat;
  sent : nat;
  wire : nat -> reply;
  trace : list event;
  heap : list obj;
}.

Definition set_table (t : pydict) (w : World) : World :=
  mkWorld (baseUrl w) (connection w) t (disposed w)
          (opened w) (sent w) (wire w) (trace w) (heap w).

Definition set_disposed (b : bool) (w : World) : World :=
  mkWorld (baseUrl w) (connection w) (temporary_references w) b
          (opened w) (sent w) (wire w) (trace w) (heap w).

Definition log (e : event) (w : World) : World :=
  mkWorld (baseUrl w) (connection w) (temporary_references w) (disposed w)
          (opened w) (sent w) (wire w) (trace w ++ [e]) (heap w).

Definition allocate (o : obj) (w : World) : World :=
  mkWorld (baseUrl w) (connection w) (temporary_references w) (disposed w)
          (opened w) (sent w) (wire w) (trace w) (o :: heap w).

(** ** The monad: a result or an exception, and the store after it.  An
    exception does not undo what was done before it was raised. *)

Definition M (A : Type) : Type := World -> (exn + A) * World.

Definition ret {A} (a : A) : M A := fun w => (inr a, w).
Definition raise {A} (e : exn) : M A := fun w => (inl e, w).
Definition bind {A B} (m : M A) (k : A -> M B) : M B :=
  fun w => match m w with
           | (inl e, w') => (inl e, w')
           | (inr a, w') => k a w'
           end.
Definition get_world : M World := fun w => (inr w, w).
Definition modify (f : World -> World) : M unit := fun w => (inr tt, f w).
Definition lift {A} (r : exn + A) : M A := fun w => (r, w).
(** [try: m except ConnectionAbortedError: h] *)
Definition try_aborted {A} (m : M A) (h : M A) : M A :=
  fun w => match m w with
           | (inl ConnectionAbortedError, w') => h w'
           | r => r
           end.

Notation "x <- m ;; k" := (bind m (fun x => k))
  (at level 90, m at level 89, right associativity).
Notation "m ;;; k" := (bind m (fun _ => k))
  (at level 90, right associativity).

(** ** The runtime: finalisation.  CPython counts the references to an
    object and runs its [__del__] at the moment the last one is dropped; it
    ignores what [__del__] raises. *)

Global Instance AttrRef_eq_dec : EqDecision AttrRef_.
Proof. solve_decision. Defined.
Global Instance AttrProxy_eq_dec : EqDecision AttrProxy_.
Proof. solve_decision. Defined.
Global Instance obj_eq_dec : EqDecision obj.
Proof. solve_decision. Defined.

Fixpoint remove_one (o : obj) (h : list obj) : list obj :=
  match h with
  | [] => []
  | o' :: rest => if decide (o = o') then rest else o' :: remove_one o rest
  end.

Definition free (o : obj) (w : World) : World :=
  mkWorld (baseUrl w) (connection w) (temporary_references w) (disposed w)
          (opened w) (sent w) (wire w) (trace w) (remove_one o (heap w)).

(** The object [o] is collected: it leaves the heap and its [__del__],
    here [del], is run for its effect. *)
Definition collect (del : M unit) (o : obj) : M unit :=
  fun w => (inr tt, snd (del (free o w))).

(** ** class AttrRef *)

Module AttrRef.
Section Methods.
(** The two methods of [transport] that an [AttrRef] calls. *)
Variable increment_ref_count decrement_ref_count : string -> M unit.

(** [if transport and temporary:] *)
Definition tracked (self : AttrRef_) : bool :=
  match ref_transport self with
  | Some _ => ref_temporary self
  | None => false
  end.

Definition __init__ (path : string) (temporary : bool) (transport : handle)
  : M AttrRef_ :=
  let self := mkAttrRef path temporary transport in
  modify (allocate (ORef self)) ;;;
  (if tracked self then increment_ref_count path else ret tt) ;;;
  ret self.

Definition __del__ (self : AttrRef_) : M unit :=
  if tracked self then decrement_ref_count (ref_path self) else ret tt.
End Methods.
End AttrRef.

(** What a request returns: a scalar of the response, or the [AttrRef]
    built for a reference. *)
Inductive decoded : Type :=
| DVal (v : pyval)
| DRef (r : AttrRef_).

(** A value handed to a request: a Python value, an [AttrRef], or, from a
    caller that did not convert it, an [AttrProxy]. *)
Inductive pyarg : Type :=
| GVal (v : pyval)
| GRef (r : AttrRef_)
| GProxy (p : AttrProxy_).

(** [type(value).__name__] *)
Definition type_name (value : pyarg) : string :=
  match value with
  | GVal PNone => "NoneType"
  | GVal (PBool _) => "bool"
  | GVal (PInt _) => "int"
  | GVal (PFloat _) => "float"
  | GVal (PStr _) => "str"
  | GVal (PList _) => "list"
  | GVal (PDict _) => "dict"
  | GRef _ => "AttrRef"
  | GProxy _ => "AttrProxy"
  end.

Record HTTPResponse : Type := mkResponse {
  status : Z;
  reason : string;
  content : option string;
}.

(** ** class Transport *)

Module Transport.
Definition DEFAULT_HOST := "127.0.0.1".
Definition DEFAULT_PORT : Z := 9393.

(** [self.connection.request(method, url, body, headers=headers)] *)
Definition connection_request (method url : string) (body : option string)
           (h : headers) : M unit :=
  w <- get_world ;;
  match connection w with
  | None => raise AttributeError
  | Some c =>
      modify (fun w => mkWorld (baseUrl w) (connection w) (temporary_references w)
                (disposed w) (opened w) (S (sent w)) (wire w)
                (trace w ++ [EvRequest c method url body h]) (heap w)) ;;;
      match wire w (sent w) with
      | ReqRaises e => raise e
      | _ => ret tt
      end
  end.

(** [self.connection.getresponse()] *)
Definition connection_getresponse : M HTTPResponse :=
  w <- get_world ;;
  match connection w with
  | None => raise AttributeError
  | Some c =>
      modify (log (EvGetResponse c)) ;;;
      match sent w with
      | O => raise (NetError "ResponseNotReady")
      | S n =>
          match wire w n with
          | ReqRaises _ => raise (NetError "ResponseNotReady")
          | RespRaises e => raise e
          | Response st rs b => ret (mkResponse st rs b)
          end
      end
  end.

(** [self.connection.close()] *)
Definition connection_close : M unit :=
  w <- get_world ;;
  match connection w with
  | None => raise AttributeError
  | Some c => modify (log (EvClose c))
  end.

Definition _reset_connection : M unit :=
  w <- get_world ;;
  (match connection w with
   | Some c => modify (log (EvClose c))
   | None => ret tt
   end) ;;;
  modify (fun w => mkWorld (baseUrl w) (Some (opened w)) (temporary_references w)
            (disposed w) (S (opened w)) (sent w) (wire w)
            (trace w ++ [EvOpen (opened w)]) (heap w)).

(** [Transport(host, port)]: the store with the new object in it, talking
    to the peer [peer].  (The [atexit] registration is left to the
    caller of [close].) *)
Definition __init__ (host : option string) (port : option Z)
           (peer : nat -> reply) : World :=
  let host := default DEFAULT_HOST host in
  let port := default DEFAULT_PORT port in
  let w := mkWorld ("http://" ++ host ++ ":" ++ pretty port ++ "/v1.0/")
                   None ∅ false 0 0 peer [] [] in
  let w := snd (_reset_connection w) in
  set_disposed false (set_table ∅ w).

Definition _create_http_headers : headers := [("connection", "keep-alive")].

(** ['[' + ', '.join(f'"{a}"' for a in attribute_paths) + ']'] *)
Fixpoint join (sep : string) (xs : list string) : string :=
  match xs with
  | [] => EmptyString
  | [x] => x
  | x :: rest => x ++ sep ++ join sep rest
  end.

Definition release_body (attribute_paths : list string) : string :=
  "[" ++ join ", " (map (fun a => dquote ++ a ++ dquote) attribute_paths) ++ "]".

(** [for attribute_path in attribute_paths:
       del self.temporary_references[attribute_path]] *)
Fixpoint del_all (attribute_paths : list string) : M unit :=
  match attribute_paths with
  | [] => ret tt
  | a :: rest =>
      w <- get_world ;;
      match temporary_references w !! a with
      | None => raise (KeyError a)
      | Some _ =>
          modify (set_table (delete a (temporary_references w))) ;;;
          del_all rest
      end
  end.

(** [_encode(value)], a static method.  [json.dumps] is from the standard
    library. *)
Definition _encode (json_dumps : pyval -> string) (value : pyarg) : exn + string :=
  match value with
  | GRef r =>
      inr (json_dumps (PDict [("type", PStr "ref"); ("path", PStr (ref_path r))]))
  | GVal v =>
      if is_scalar v then inr (json_dumps v)
      else match v with
           | PNone => inr "null"
           | _ => inl (ClientException.__init__
                         (PStr ("Value of type " ++ type_name value ++
                                " cannot be encoded for a request."))
                         (PStr ClientExceptionCodes.SERIALIZATION_ERROR))
           end
  | GProxy _ =>
      inl (ClientException.__init__
             (PStr ("Value of type " ++ type_name value ++
                    " cannot be encoded for a request."))
             (PStr ClientExceptionCodes.SERIALIZATION_ERROR))
  end.

(** [self._encode(arg) for arg in arguments], as [join] consumes it. *)
Fixpoint encode_all (json_dumps : pyval -> string) (arguments : list pyarg)
  : exn + list string :=
  match arguments with
  | [] => inr []
  | arg :: rest =>
      match _encode json_dumps arg with
      | inl e => inl e
      | inr text =>
          match encode_all json_dumps rest with
          | inl e => inl e
          | inr texts => inr (text :: texts)
          end
      end
  end.

Module Body.
Section Methods.
(** [json.loads], from the standard library. *)
Variable json_loads : string -> exn + pyval.
(** [self._update_ref_count], as reached from inside a request. *)
Variable update : string -> bool -> M unit.

Definition _decode (message : string) : M decoded :=
  if String.eqb message EmptyString then ret (DVal (PStr message)) else
  spec <- lift (json_loads message) ;;
  if is_scalar spec then ret (DVal spec) else
  (* we expect a structure with a 'type' property *)
  match spec with
  | PNone | PList _ => raise TypeError
  | PDict members =>
      match dict_get members "type" with
      | None => raise (KeyError "type")
      | Some data_type =>
          if py_eq_str data_type "ref" then
            match dict_get members "path" with
            | None => raise (KeyError "path")
            | Some (PStr temp_ref_path) =>
                temp_ref <- AttrRef.__init__ (fun r => update r true)
                              temp_ref_path true (Some tt) ;;
                ret (DRef temp_ref)
            | Some _ => raise Unmodelled
            end
          else if py_eq_str data_type "error" then
            match dict_get members "code" with
            | None => raise (KeyError "code")
            | Some error_code =>
                match dict_get members "message" with
                | None => raise (KeyError "message")
                | Some error_message =>
                    raise (ClientException.__init__ error_message error_code)
                end
            end
          else
            raise (ClientException.__init__
                     (PStr ("Unable to deserialize response '" ++ message ++ "'."))
                     (PStr ClientExceptionCodes.SERIALIZATION_ERROR))
      end
  | _ => ret (DVal spec)
  end.

Definition _decode_http_response (response : HTTPResponse) : M decoded :=
  let response_content := content response in
  if Z.eqb (status response) 200 then
    match response_content with
    | None => raise UnicodeDecodeError
    | Some text => _decode text
    end
  else
    e <- lift (ClientException.create_from_http_status
                 (PInt (status response))
                 (PStr ("Failed to execute request: " ++ reason response))) ;;
    raise e.

Definition _send_http_request (method url : string) (body : option string)
           (h : headers) : M decoded :=
  try_aborted
    (connection_request method url body h)
    (* A ConnectionAbortedError is raised when debugging in PyCharm and
       staying on a line for a long time.  We will just retry the request. *)
    (_reset_connection ;;;
     connection_request method url body h) ;;;
  response <- connection_getresponse ;;
  _decode_http_response response.

Definition _http_get (url : string) : M decoded :=
  _send_http_request "GET" url None _create_http_headers.

Definition _http_post (url : string) (body : string) : M decoded :=
  _send_http_request "POST" url (Some body) _create_http_headers.

Definition get (attribute_path : string) : M decoded :=
  w <- get_world ;;
  let url := baseUrl w ++ attribute_path in
  _http_get url.

(** The value of a request is dropped by the code: a reference among
    them is collected at once. *)
Definition drop (d : decoded) : M unit :=
  match d with
  | DRef r => collect (AttrRef.__del__ (fun p => update p false) r) (ORef r)
  | DVal _ => ret tt
  end.

Definition release_refs (attribute_paths : list string) : M unit :=
  w <- get_world ;;
  if negb (disposed w) then
    if Nat.eqb (length attribute_paths) 0 then ret tt else
    del_all attribute_paths ;;;
    let body := release_body attribute_paths in
    w <- get_world ;;
    let url := baseUrl w ++ "workspace/references/release" in
    dropped <- _http_post url body ;;
    drop dropped
  else ret tt.

Definition get_ref_count : M decoded :=
  w <- get_world ;;
  let url := baseUrl w ++ "workspace/references/count" in
  _http_get url.

(** [json.dumps], from the standard library. *)
Variable json_dumps : pyval -> string.

Definition set (attribute_path : string) (value : pyarg) : M unit :=
  w <- get_world ;;
  let url := baseUrl w ++ attribute_path ++ "/set" in
  body <- lift (_encode json_dumps value) ;;
  dropped <- _http_post url body ;;
  drop dropped.

Definition invoke (attribute_path : string) (arguments : list pyarg) : M decoded :=
  w <- get_world ;;
  let url := baseUrl w ++ attribute_path ++ "/invoke" in
  encoded <- lift (encode_all json_dumps arguments) ;;
  let body := "[" ++ join "," encoded ++ "]" in
  _http_post url body.
End Methods.
End Body.

(** The methods with the recursion closed.  [_update_ref_count] calls
    [release_refs], which sends a request, whose response [_decode] may
    turn into an [AttrRef], whose constructor calls [_update_ref_count]:
    [fuel] is the number of such nested releases the interpreter still
    has room for, and running out of it is Python's [RecursionError]. *)
Fixpoint _update_ref_count (json_loads : string -> exn + pyval) (fuel : nat)
         (ref : string) (increment : bool) : M unit :=
  w <- get_world ;;
  if disposed w then ret tt else
  match temporary_references w !! ref with
  | None =>
      if negb increment then
        raise (ClientException.__init__
                 (PStr ("Cannot decrement count for " ++ ref ++
                        " because it was not found in the reference map."))
                 (PStr ClientExceptionCodes.INVALID_OPERATION))
      else
        modify (set_table (<[ref := 1]> (temporary_references w)))
  | Some c =>
      let c' := c + (if increment then 1 else -1) in
      modify (set_table (<[ref := c']> (temporary_references w))) ;;;
      if Z.eqb c' 0 then
        match fuel with
        | O => raise RecursionError
        | S fuel' =>
            Body.release_refs json_loads (_update_ref_count json_loads fuel') [ref]
        end
      else ret tt
  end.

Section Methods.
Variable json_loads : string -> exn + pyval.
Variable fuel : nat.

Definition increment_ref_count (ref : string) : M unit :=
  _update_ref_count json_loads fuel ref true.

Definition decrement_ref_count (ref : string) : M unit :=
  _update_ref_count json_loads fuel ref false.

Definition _decode := Body._decode json_loads (_update_ref_count json_loads fuel).
Definition _decode_http_response :=
  Body._decode_http_response json_loads (_update_ref_count json_loads fuel).
Definition _send_http_request :=
  Body._send_http_request json_loads (_update_ref_count json_loads fuel).
Definition _http_get := Body._http_get json_loads (_update_ref_count json_loads fuel).
Definition _http_post := Body._http_post json_loads (_update_ref_count json_loads fuel).
Definition get := Body.get json_loads (_update_ref_count json_loads fuel).
Definition drop := Body.drop (_update_ref_count json_loads fuel).
Definition release_refs :=
  Body.release_refs json_loads (_update_ref_count json_loads fuel).
Definition get_ref_count :=
  Body.get_ref_count json_loads (_update_ref_count json_loads fuel).

(** [list(self.temporary_references.keys())]: the keys in the order of
    their insertion. *)
Definition keys (t : pydict) : list string := (entries t).*1.

Definition close : M unit :=
  w <- get_world ;;
  if negb (disposed w) then
    release_refs (keys (temporary_references w)) ;;;
    connection_close ;;;
    modify (set_disposed true)
  else ret tt.

Variable json_dumps : pyval -> string.

Definition set := Body.set json_loads (_update_ref_count json_loads fuel) json_dumps.
Definition invoke := Body.invoke json_loads (_update_ref_count json_loads fuel) json_dumps.
End Methods.
End Transport.

(** ** class AttrProxy.  Its [transport] is the one of the store. *)

(** What a proxy operation returns: a scalar, or a proxy. *)
Inductive result : Type :=
| RVal (v : pyval)
| RProxy (p : AttrProxy_).

(** What ordinary lookup finds on a proxy: one of the three attributes
    [__init__] sets, or what the class or [object] gives for the name (a
    bound method, the docstring, ...). *)
Inductive member : Type :=
| MTransport
| MPath (path : string)
| MTemporary (temporary : bool)
| MClass (name : string).

(** What [proxy.name] evaluates to: what ordinary lookup found, or what
    the hook [__getattr__] returned. *)
Inductive value : Type :=
| VMember (m : member)
| VResult (r : result).

(** A subscript: a [str], or an integer. *)
Inductive key : Type :=
| KStr (s : string)
| KInt (z : Z).

(** [str.lower] on the letters of ASCII.  (Python also lowers letters
    outside ASCII; none of them lowers to a letter of ["count"].) *)
Definition lower_ascii (c : Ascii.ascii) : Ascii.ascii :=
  let n := Ascii.nat_of_ascii c in
  if (Nat.leb 65 n && Nat.leb n 90)%bool then Ascii.ascii_of_nat (n + 32) else c.

Fixpoint lower (s : string) : string :=
  match s with
  | EmptyString => EmptyString
  | String c rest => String (lower_ascii c) (lower rest)
  end.

Module AttrProxy.
(** The attributes [__init__] sets on the instance. *)
Definition instance_names : list string := ["transport"; "path"; "temporary"].

(** The names the body of the class defines. *)
Definition class_names : list string :=
  ["__init__"; "__del__"; "__getattr__"; "__setattr__"; "__call__"; "__getitem__";
   "eval"; "__iter__"; "__repr__"; "_value_for_transport_request";
   "_value_from_transport_response"].

(** A name of the form [__x__]. *)
Definition dunder (name : string) : bool :=
  String.prefix "__" name && String.prefix "__" (String.rev name).

(** Whether ordinary lookup finds [name] on a proxy: in the instance, in
    the class, or among what [object] and the class machinery give every
    instance ([__class__], [__dict__], [__doc__], ...).  The last are
    names of the form [__x__]; which of them exist is the interpreter's
    matter, [object_has]. *)
Definition found (object_has : string -> bool) (name : string) : bool :=
  existsb (String.eqb name) instance_names
  || existsb (String.eqb name) class_names
  || (dunder name && object_has name).

(** What ordinary lookup gives for a name it finds. *)
Definition ordinary (self : AttrProxy_) (name : string) : member :=
  if String.eqb name "transport" then MTransport
  else if String.eqb name "path" then MPath (path self)
  else if String.eqb name "temporary" then MTemporary (temporary self)
  else MClass name.

Section Methods.
Variable json_loads : string -> exn + pyval.
Variable fuel : nat.

Definition __init__ (path : string) (temporary : bool) : M AttrProxy_ :=
  let self := mkAttrProxy path temporary in
  modify (allocate (OProxy self)) ;;;
  (if temporary then Transport.increment_ref_count json_loads fuel path
   else ret tt) ;;;
  ret self.

Definition __del__ (self : AttrProxy_) : M unit :=
  if temporary self then Transport.decrement_ref_count json_loads fuel (path self)
  else ret tt.

Definition _value_from_transport_response (self : AttrProxy_)
           (response : decoded) : M result :=
  match response with
  | DRef r => p <- __init__ (ref_path r) (ref_temporary r) ;; ret (RProxy p)
  | DVal v => ret (RVal v)
  end.

Definition __getattr__ (self : AttrProxy_) (name : string) : M result :=
  if String.eqb (lower name) "count" then
    let path := path self ++ "." ++ name in
    response <- Transport.get json_loads fuel path ;;
    value <- _value_from_transport_response self response ;;
    (* [response] goes out of scope *)
    Transport.drop json_loads fuel response ;;;
    ret value
  else
    p <- __init__ (path self ++ "." ++ name) false ;;
    ret (RProxy p).

(** [self.name]: Python calls the hook [__getattr__] only when ordinary
    lookup does not find the name. *)
Definition getattr (object_has : string -> bool) (self : AttrProxy_) (name : string)
  : M value :=
  if found object_has name then ret (VMember (ordinary self name))
  else r <- __getattr__ self name ;; ret (VResult r).

Definition __getitem__ (self : AttrProxy_) (k : key) : M AttrProxy_ :=
  let ref := match k with
             | KStr s => dquote ++ s ++ dquote
             | KInt z => pretty z
             end in
  __init__ (path self ++ "(" ++ ref ++ ")") false.

Definition eval (self : AttrProxy_) : M result :=
  response <- Transport.get json_loads fuel (path self) ;;
  value <- _value_from_transport_response self response ;;
  (* [response] goes out of scope; when the line above raises, the
     traceback keeps it *)
  Transport.drop json_loads fuel response ;;;
  ret value.

Definition __repr__ (self : AttrProxy_) : string := path self.

Variable json_dumps : pyval -> string.

(** A static method.  The [AttrRef] it builds for a proxy is not temporary
    and has no transport. *)
Definition _value_for_transport_request (value : pyarg) : M pyarg :=
  match value with
  | GProxy p =>
      r <- AttrRef.__init__ (Transport.increment_ref_count json_loads fuel)
             (path p) false None ;;
      ret (GRef r)
  | _ => ret value
  end.

(** The [AttrRef] built for [value] goes out of scope. *)
Definition forget (value converted : pyarg) : M unit :=
  match value, converted with
  | GProxy _, GRef r =>
      collect (AttrRef.__del__ (Transport.decrement_ref_count json_loads fuel) r) (ORef r)
  | _, _ => ret tt
  end.

Definition __setattr__ (self : AttrProxy_) (name : string) (value : pyarg) : M unit :=
  value_for_request <- _value_for_transport_request value ;;
  Transport.set json_loads fuel json_dumps (path self ++ "." ++ name) value_for_request ;;;
  forget value value_for_request.

(** [for arg in args: transport_args.append(...)] *)
Fixpoint convert_all (args : list pyarg) : M (list pyarg) :=
  match args with
  | [] => ret []
  | arg :: rest =>
      converted <- _value_for_transport_request arg ;;
      others <- convert_all rest ;;
      ret (converted :: others)
  end.

Fixpoint forget_all (args transport_args : list pyarg) : M unit :=
  match args, transport_args with
  | arg :: rest, converted :: others =>
      forget arg converted ;;; forget_all rest others
  | _, _ => ret tt
  end.

Definition __call__ (self : AttrProxy_) (args : list pyarg) : M result :=
  transport_args <- convert_all args ;;
  response <- Transport.invoke json_loads fuel json_dumps (path self) transport_args ;;
  value <- _value_from_transport_response self response ;;
  (* the locals go out of scope *)
  Transport.drop json_loads fuel response ;;;
  forget_all args transport_args ;;;
  ret value.

(** [self[i]] for every [i] of the list. *)
Fixpoint items (self : AttrProxy_) (indices : list Z) : M (list AttrProxy_) :=
  match indices with
  | [] => ret []
  | i :: rest =>
      item <- __getitem__ self (KInt i) ;;
      others <- items self rest ;;
      ret (item :: others)
  end.

(** The generator [__iter__] run to its end, as a [for] loop without
    [break] runs it: [self.count] is read ([count] is no name ordinary
    lookup finds), [range] accepts an [int] (a [bool] is one), and the
    items are built in turn.  A proxy that [count] returned is refused by
    [range] and dropped as the call fails. *)
Definition __iter__ (self : AttrProxy_) : M (list AttrProxy_) :=
  count <- __getattr__ self "count" ;;
  match count with
  | RVal (PInt n) => items self (seqZ 0 n)
  | RVal (PBool b) => items self (seqZ 0 (if b then 1 else 0))
  | RVal _ => raise TypeError
  | RProxy p => collect (__del__ p) (OProxy p) ;;; raise TypeError
  end.
End Methods.
End AttrProxy.

(** ** class Client *)

Module Client.
Record Client_ : Type := mkClient { _root : AttrProxy_ }.

(** [Client(host, port)]: the store with the transport in it, and the
    client. *)
Definition __init__ (json_loads : string -> exn + pyval) (fuel : nat)
           (host : option string) (port : option Z) (peer : nat -> reply)
  : (exn + Client_) * World :=
  (root <- AttrProxy.__init__ json_loads fuel "ODTK" false ;;
   ret (mkClient root)) (Transport.__init__ host port peer).

End Client.

(** ** The runtime: finalising what the caller held.  An object a program
    holds (a proxy it was returned, a reference [Transport.get] returned)
    is finalised when the program lets go of it. *)

Definition finalize (json_loads : string -> exn + pyval) (fuel : nat) (o : obj)
  : M unit :=
  match o with
  | ORef r => collect (AttrRef.__del__ (Transport.decrement_ref_count json_loads fuel) r) o
  | OProxy p => collect (AttrProxy.__del__ json_loads fuel p) o
  end.

(** ** Notions the statements use *)

(** The count the table gives a path: 0 when the path is not a key. *)
Definition count_of (t : pydict) (p : string) : Z := default 0 (t !! p).

(** Whether a live object holds one unit of reference count on [p]. *)
Definition holds (o : obj) (p : string) : bool :=
  match o with
  | ORef r => AttrRef.tracked r && String.eqb (ref_path r) p
  | OProxy x => temporary x && String.eqb (path x) p
  end.

Fixpoint holders (h : list obj) (p : string) : Z :=
  match h with
  | [] => 0
  | o :: rest => (if holds o p then 1 else 0) + holders rest p
  end.

(** The table counts exactly the live holders of every path. *)
Definition balanced (w : World) : Prop :=
  forall p, count_of (temporary_references w) p = holders (heap w) p.

(** The operations that keep the table balanced: building proxies and
    references, navigation, requests, the finalisation of a live object,
    and a shutdown that returns.  A [close] that raises, and calls of the
    bookkeeping methods [release_refs], [increment_ref_count] and
    [decrement_ref_count] from outside the class, are not among them: they
    change the table under the live holders. *)
Inductive step (json_loads : string -> exn + pyval) : World -> World -> Prop :=
| step_new_proxy fuel p t w :
    step json_loads w (snd (AttrProxy.__init__ json_loads fuel p t w))
| step_new_ref fuel p t h w :
    step json_loads w
         (snd (AttrRef.__init__ (Transport.increment_ref_count json_loads fuel) p t h w))
| step_finalize fuel o w :
    o ∈ heap w ->
    step json_loads w (snd (finalize json_loads fuel o w))
| step_request fuel method url body h w :
    step json_loads w
         (snd (Transport._send_http_request json_loads fuel method url body h w))
| step_getattr fuel self name w :
    step json_loads w (snd (AttrProxy.__getattr__ json_loads fuel self name w))
| step_getitem fuel self k w :
    step json_loads w (snd (AttrProxy.__getitem__ json_loads fuel self k w))
| step_eval fuel self w :
    step json_loads w (snd (AttrProxy.eval json_loads fuel self w))
| step_close fuel w w' :
    Transport.close json_loads fuel w = (inr tt, w') ->
    step json_loads w w'.

(** Two characters that are the same letter of ASCII in either case, or the
    same character. *)
Definition same_letter (a b : Ascii.ascii) : bool :=
  let x := Ascii.nat_of_ascii a in
  let y := Ascii.nat_of_ascii b in
  (Nat.eqb x y
   || (Nat.leb 65 x && Nat.leb x 90 && Nat.eqb (x + 32) y)
   || (Nat.leb 65 y && Nat.leb y 90 && Nat.eqb (y + 32) x))%bool.

(** Modelled on the spec's words: [a] case-insensitively equals [b]. *)
Fixpoint caseless_eq (a b : string) : bool :=
  match a, b with
  | EmptyString, EmptyString => true
  | String x a', String y b' => same_letter x y && caseless_eq a' b'
  | _, _ => false
  end.

(** The events of one submission of a request on connection [c]: sent
    once, or aborted, the connection replaced by [c'], and sent again. *)
Definition sent_once (c : nat) (method url : string) (body : option string)
           (h : headers) : list event :=
  [EvRequest c method url body h].

Definition sent_twice (c c' : nat) (method url : string) (body : option string)
           (h : headers) : list event :=
  [EvRequest c method url body h; EvClose c; EvOpen c'; EvRequest c' method url body h].

(** [w'] is [w] with more done on the connection: the table, the flag, the
    heap and the peer are those of [w]. *)
Record wire_only (w w' : World) : Prop := {
  wo_base : baseUrl w' = baseUrl w;
  wo_table : temporary_references w' = temporary_references w;
  wo_disposed : disposed w' = disposed w;
  wo_heap : heap w' = heap w;
  wo_wire : wire w' = wire w;
  wo_trace : exists more, trace w' = (trace w ++ more)%list;
}.

(** The reference a response turns into, as [_decode] builds it. *)
Definition new_ref (update : string -> bool -> M unit) (p : string) : M decoded :=
  temp_ref <- AttrRef.__init__ (fun r => update r true) p true (Some tt) ;;
  ret (DRef temp_ref).

(** The release request for [paths], as [release_refs] sends it. *)
Definition release_post (json_loads : string -> exn + pyval) (fuel : nat)
           (paths : list string) : M unit :=
  w <- get_world ;;
  dropped <- Transport._http_post json_loads fuel
               (baseUrl w ++ "workspace/references/release")
               (Transport.release_body paths) ;;
  Transport.drop json_loads fuel dropped.

(** While the transport is in use, the table is balanced. *)
Definition invariant (w : World) : Prop := disposed w = false -> balanced w.

(** An operation that keeps the invariant, whatever it returns. *)
Definition preserves {A} (m : M A) : Prop :=
  forall w, invariant w -> invariant (snd (m w)).

(** The table with the count [c] of [p] lowered by one, as a decrement
    leaves it: an entry that reaches 0 is taken out. *)
Definition lowered (t : pydict) (p : string) (c : Z) : pydict :=
  if decide (c = 1) then delete p t else <[p := c - 1]> t.

(** The store after [connection.request] was called on connection [c]. *)
Definition after_request (c : nat) (method url : string) (body : option string)
           (h : headers) (w : World) : World :=
  mkWorld (baseUrl w) (connection w) (temporary_references w) (disposed w)
          (opened w) (S (sent w)) (wire w)
          (trace w ++ [EvRequest c method url body h]) (heap w).

(** The store after connection [c] was closed and replaced by a new one. *)
Definition after_reset (c : nat) (w : World) : World :=
  mkWorld (baseUrl w) (Some (opened w)) (temporary_references w) (disposed w)
          (S (opened w)) (sent w) (wire w)
          (trace w ++ [EvClose c; EvOpen (opened w)]) (heap w).

(** What [_send_http_request] does once the request is out. *)
Definition await (json_loads : string -> exn + pyval) (fuel : nat) : M decoded :=
  response <- Transport.connection_getresponse ;;
  Transport._decode_http_response json_loads fuel response.

(** The table after [del] of every path of the list, one after the other. *)
Fixpoint delete_all (paths : list string) (t : pydict) : pydict :=
  match paths with
  | [] => t
  | a :: rest => delete_all rest (delete a t)
  end.

(** None of the paths is a key of the table. *)
Definition absent (paths : list string) (w : World) : Prop :=
  forall p, p ∈ paths -> temporary_references w !! p = None.

(** ** Notions for the whole interface *)

Definition set_heap (h : list obj) (w : World) : World :=
  mkWorld (baseUrl w) (connection w) (temporary_references w) (disposed w)
          (opened w) (sent w) (wire w) (trace w) h.

(** The store after a new connection was made the current one. *)
Definition opened_anew (w : World) : World :=
  mkWorld (baseUrl w) (Some (opened w)) (temporary_references w) (disposed w)
          (S (opened w)) (sent w) (wire w) (trace w ++ [EvOpen (opened w)]) (heap w).

(** One step of navigation: an attribute, or a subscript. *)
Inductive hop : Type :=
| Attr (name : string)
| Item (k : key).

(** [self.a[k].b ...]: the accesses one after the other.  What an
    attribute or a subscript of a value that is not a proxy gives (a
    method of [str], say) lies outside the embedding. *)
Fixpoint navigate (json_loads : string -> exn + pyval) (fuel : nat)
         (object_has : string -> bool)
         (self : AttrProxy_) (hops : list hop) : M value :=
  match hops with
  | [] => ret (VResult (RProxy self))
  | Attr name :: rest =>
      v <- AttrProxy.getattr json_loads fuel object_has self name ;;
      match v, rest with
      | VResult (RProxy p), _ => navigate json_loads fuel object_has p rest
      | _, [] => ret v
      | _, _ => raise Unmodelled
      end
  | Item k :: rest =>
      p <- AttrProxy.__getitem__ json_loads fuel self k ;;
      navigate json_loads fuel object_has p rest
  end.

(** The text a hop adds to a path. *)
Definition hop_text (h : hop) : string :=
  match h with
  | Attr name => "." ++ name
  | Item (KStr s) => "(" ++ (dquote ++ s ++ dquote) ++ ")"
  | Item (KInt z) => "(" ++ pretty z ++ ")"
  end.

Fixpoint extend (p : string) (hops : list hop) : string :=
  match hops with
  | [] => p
  | h :: rest => extend (p ++ hop_text h) rest
  end.

(** The proxies a navigation builds on its way, in the order it builds
    them. *)
Fixpoint waypoints (p : string) (hops : list hop) : list obj :=
  match hops with
  | [] => []
  | h :: rest =>
      OProxy (mkAttrProxy (p ++ hop_text h) false) :: waypoints (p ++ hop_text h) rest
  end.

(** Every attribute of the chain is one the hook answers with a child:
    ordinary lookup does not find the name, and it is not [count] in any
    case of its letters. *)
Definition lazy_hops (object_has : string -> bool) (hops : list hop) : bool :=
  forallb (fun h => match h with
                    | Attr name => negb (AttrProxy.found object_has name)
                                   && negb (caseless_eq name "count")
                    | Item _ => true
                    end) hops.

(** What [_value_for_transport_request] makes of a value. *)
Definition converted (value : pyarg) : pyarg :=
  match value with
  | GProxy p => GRef (mkAttrRef (path p) false None)
  | _ => value
  end.

(** The [AttrRef]s built for the proxies among [args], in the order they
    are built. *)
Fixpoint conversions (args : list pyarg) : list obj :=
  match args with
  | [] => []
  | GProxy p :: rest => ORef (mkAttrRef (path p) false None) :: conversions rest
  | _ :: rest => conversions rest
  end.

(** The transport has a connection, the newest one. *)
Definition connected (w : World) : Prop :=
  exists c, connection w = Some c /\ opened w = S c.

(** The store after a request went out on connection [c] and its
    response was read. *)
Definition answered (c : nat) (method url : string) (body : option string)
           (h : headers) (w : World) : World :=
  log (EvGetResponse c) (after_request c method url body h w).

(** A response body that [_decode] reads as the scalar [v]: the empty
    body, or the JSON text of a scalar. *)
Definition scalar_body (json_loads : string -> exn + pyval) (text : string)
           (v : pyval) : Prop :=
  (text = EmptyString /\ v = PStr EmptyString)
  \/ (text <> EmptyString /\ json_loads text = inr v /\ is_scalar v = true).

(** A response body that is a reference to the path [q]. *)
Definition reference_body (json_loads : string -> exn + pyval) (text : string)
           (q : string) : Prop :=
  text <> EmptyString
  /\ exists members, json_loads text = inr (PDict members)
                     /\ dict_get members "type" = Some (PStr "ref")
                     /\ dict_get members "path" = Some (PStr q).

(** The values [_encode] has a text for. *)
Definition encodable (value : pyarg) : bool :=
  match value with
  | GVal (PList _) | GVal (PDict _) | GProxy _ => false
  | _ => true
  end.

(** The exception [_encode] raises for the others. *)
Definition cannot_encode (value : pyarg) : exn :=
  ClientException_
    (PStr ("Value of type " ++ type_name value ++ " cannot be encoded for a request."))
    (PStr "SerializationError").

(** The item of [self] at the index [i], as [self[i]] builds it. *)
Definition item_at (self : AttrProxy_) (i : Z) : AttrProxy_ :=
  mkAttrProxy (path self ++ "(" ++ pretty i ++ ")") false.

(** What [range(0, count)] makes of the value of [count]: the number of
    items, for an [int] (a [bool] is one). *)
Definition range_of (count : pyval) : option Z :=
  match count with
  | PInt n => Some n
  | PBool b => Some (if b then 1 else 0)
  | _ => None
  end.

(** The heap after the objects of the list were collected in turn. *)
Definition collected (os : list obj) (h : list obj) : list obj :=
  fold_left (fun h o => remove_one o h) os h.

(** [R] relates every store to the store an operation leaves. *)
Definition keeps (R : World -> World -> Prop) {A} (m : M A) : Prop :=
  forall w, R w (snd (m w)).

(** [w'] is [w] with more on the record of the connection. *)
Definition later (w w' : World) : Prop := exists more, trace w' = (trace w ++ more)%list.

(** The operations of [step] and the methods that send values: all that
    keep the table balanced. *)
Inductive orderly_step (json_loads : string -> exn + pyval) (json_dumps : pyval -> string)
  : World -> World -> Prop :=
| orderly_basic w w' :
    step json_loads w w' -> orderly_step json_loads json_dumps w w'
| orderly_get fuel attribute_path w :
    orderly_step json_loads json_dumps w
      (snd (Transport.get json_loads fuel attribute_path w))
| orderly_get_ref_count fuel w :
    orderly_step json_loads json_dumps w (snd (Transport.get_ref_count json_loads fuel w))
| orderly_set fuel attribute_path value w :
    orderly_step json_loads json_dumps w
      (snd (Transport.set json_loads fuel json_dumps attribute_path value w))
| orderly_invoke fuel attribute_path arguments w :
    orderly_step json_loads json_dumps w
      (snd (Transport.invoke json_loads fuel json_dumps attribute_path arguments w))
| orderly_getattr fuel object_has self name w :
    orderly_step json_loads json_dumps w
      (snd (AttrProxy.getattr json_loads fuel object_has self name w))
| orderly_setattr fuel self name value w :
    orderly_step json_loads json_dumps w
      (snd (AttrProxy.__setattr__ json_loads fuel json_dumps self name value w))
| orderly_call fuel self args w :
    orderly_step json_loads json_dumps w
      (snd (AttrProxy.__call__ json_loads fuel json_dumps self args w))
| orderly_iter fuel self w :
    orderly_step json_loads json_dumps w
      (snd (AttrProxy.__iter__ json_loads fuel self w)).

Inductive orderly (json_loads : string -> exn + pyval)
          (json_dumps : pyval -> string) : World -> Prop :=
| orderly_init host port peer :
    orderly json_loads json_dumps (Transport.__init__ host port peer)
| orderly_next w w' :
    orderly json_loads json_dumps w ->
    orderly_step json_loads json_dumps w w' ->
    orderly json_loads json_dumps w'.

(** The whole interface: the orderly operations, a [close] whatever it
    does, and the bookkeeping and the private methods called from
    outside. *)
Inductive api_step (json_loads : string -> exn + pyval) (json_dumps : pyval -> string)
  : World -> World -> Prop :=
| api_orderly w w' :
    orderly_step json_loads json_dumps w w' -> api_step json_loads json_dumps w w'
| api_close fuel w :
    api_step json_loads json_dumps w (snd (Transport.close json_loads fuel w))
| api_release_refs fuel attribute_paths w :
    api_step json_loads json_dumps w
      (snd (Transport.release_refs json_loads fuel attribute_paths w))
| api_increment_ref_count fuel ref w :
    api_step json_loads json_dumps w
      (snd (Transport.increment_ref_count json_loads fuel ref w))
| api_decrement_ref_count fuel ref w :
    api_step json_loads json_dumps w
      (snd (Transport.decrement_ref_count json_loads fuel ref w))
| api_decode fuel message w :
    api_step json_loads json_dumps w (snd (Transport._decode json_loads fuel message w))
| api_reset_connection w :
    api_step json_loads json_dumps w (snd (Transport._reset_connection w)).

(** The stores a program reaches from [Transport(host, port)] talking to
    [peer]. *)
Inductive api_reachable (json_loads : string -> exn + pyval)
          (json_dumps : pyval -> string)
          (host : option string) (port : option Z) (peer : nat -> reply)
  : World -> Prop :=
| api_init :
    api_reachable json_loads json_dumps host port peer (Transport.__init__ host port peer)
| api_next w w' :
    api_reachable json_loads json_dumps host port peer w ->
    api_step json_loads json_dumps w w' ->
    api_reachable json_loads json_dumps host port peer w'.

(** ** Sample environments, for the concrete cases *)

Module Sample.
(** A JSON string literal of a text without escapes. *)
Definition quoted (s : string) : string := dquote ++ s ++ dquote.

(** The body [{"type": "ref", "path": "WS._1"}]. *)
Definition ref_body : string :=
  "{" ++ quoted "type" ++ ": " ++ quoted "ref" ++ ", "
      ++ quoted "path" ++ ": " ++ quoted "WS._1" ++ "}".

(** The body [{"type": "error", "code": "ExecutionError", "message": "failed"}]. *)
Definition error_body : string :=
  "{" ++ quoted "type" ++ ": " ++ quoted "error" ++ ", "
      ++ quoted "code" ++ ": " ++ quoted "ExecutionError" ++ ", "
      ++ quoted "message" ++ ": " ++ quoted "failed" ++ "}".

(** The body [{"type": "list"}]. *)
Definition list_body : string := "{" ++ quoted "type" ++ ": " ++ quoted "list" ++ "}".

(** [json.loads] on a few texts. *)
Definition loads (s : string) : exn + pyval :=
  if String.eqb s "null" then inr PNone
  else if String.eqb s "[]" then inr (PList [])
  else if String.eqb s "{}" then inr (PDict [])
  else if String.eqb s "5" then inr (PInt 5)
  else if String.eqb s "true" then inr (PBool true)
  else if String.eqb s (quoted "6.5.3") then inr (PStr "6.5.3")
  else if String.eqb s ref_body then
    inr (PDict [("type", PStr "ref"); ("path", PStr "WS._1")])
  else if String.eqb s error_body then
    inr (PDict [("type", PStr "error"); ("code", PStr "ExecutionError");
                ("message", PStr "failed")])
  else if String.eqb s list_body then inr (PDict [("type", PStr "list")])
  else inl JSONDecodeError.

(** A peer that answers every request with an empty body. *)
Definition quiet (n : nat) : reply := Response 200 "OK" (Some EmptyString).

(** A peer that is not there. *)
Definition down (n : nat) : reply := ReqRaises (NetError "ConnectionRefusedError").

(** A peer that aborts the first submission and then answers. *)
Definition flaky (n : nat) : reply :=
  match n with
  | O => ReqRaises ConnectionAbortedError
  | _ => Response 200 "OK" (Some "5")
  end.

(** A peer that answers the first request with a reference and the
    later ones with an empty body. *)
Definition serving (n : nat) : reply :=
  match n with
  | O => Response 200 "OK" (Some ref_body)
  | _ => Response 200 "OK" (Some EmptyString)
  end.

(** A peer that answers with status 404. *)
Definition missing (n : nat) : reply := Response 404 "Not Found" (Some EmptyString).

Definition fresh (peer : nat -> reply) : World := Transport.__init__ None None peer.

(** The store after a temporary proxy for ["WS._1"] was built. *)
Definition one_proxy (peer : nat -> reply) : World :=
  snd (AttrProxy.__init__ loads 1 "WS._1" true (fresh peer)).

(** The store after temporary proxies for ["WS._1"] and ["WS._2"] were
    built. *)
Definition two_proxies (peer : nat -> reply) : World :=
  snd (AttrProxy.__init__ loads 1 "WS._2" true (one_proxy peer)).

(** The store after temporary proxies for ["WS._2"] and then ["WS._1"]
    were built. *)
Definition later_first (peer : nat -> reply) : World :=
  snd (AttrProxy.__init__ loads 1 "WS._1" true
         (snd (AttrProxy.__init__ loads 1 "WS._2" true (fresh peer)))).

(** A peer that answers every request with the number 5. *)
Definition numbered (n : nat) : reply := Response 200 "OK" (Some "5").

(** A peer that takes every request and hangs up. *)
Definition silent (n : nat) : reply := RespRaises ConnectionAbortedError.

(** A peer that answers every request with an error. *)
Definition failing (n : nat) : reply := Response 200 "OK" (Some error_body).

(** A peer that answers every request with a list. *)
Definition listing (n : nat) : reply := Response 200 "OK" (Some list_body).

(** The root of the application, and a satellite the server handed out. *)
Definition root : AttrProxy_ := mkAttrProxy "ODTK" false.
Definition satellite : AttrProxy_ := mkAttrProxy "WS._1" false.

(** [.scenario[0].Children["Satellite"]] *)
Definition to_satellites : list hop :=
  [Attr "scenario"; Item (KInt 0); Attr "Children"; Item (KStr "Satellite")].

(** [json.dumps], for texts without escapes and floats kept as written. *)
Fixpoint dumps (v : pyval) : string :=
  match v with
  | PNone => "null"
  | PBool true => "true"
  | PBool false => "false"
  | PInt z => pretty z
  | PFloat lexeme => lexeme
  | PStr s => quoted s
  | PList items => "[" ++ Transport.join ", " (map dumps items) ++ "]"
  | PDict members =>
      "{" ++ Transport.join ", "
               (map (fun member => quoted (fst member) ++ ": " ++ dumps (snd member))
                    members) ++ "}"
  end.

End Sample.

(** * Theorems *)

Open Scope list_scope.

(** ** The table *)

Lemma dict_lookup_empty (k : string) : (∅ : pydict) !! k = None.
Proof. reflexivity. Qed.

Lemma dict_lookup_insert (t : pydict) (k k' : string) (c : Z) :
  <[k := c]> t !! k' = if decide (k = k') then Some c else t !! k'.
Proof.
  destruct t as [l]. unfold insert, lookup, pydict_insert, pydict_lookup. cbn [entries].
  induction l as [|[k0 c0] l IH]; cbn [assoc_set assoc_get].
  - destruct (String.eqb_spec k k'); destruct (decide (k = k')); congruence.
  - destruct (String.eqb_spec k0 k) as [->|Hne]; cbn [assoc_get].
    + destruct (String.eqb_spec k k'); destruct (decide (k = k')); congruence.
    + destruct (String.eqb_spec k0 k') as [->|Hne']; [|exact IH].
      rewrite decide_False by congruence. reflexivity.
Qed.

Lemma dict_lookup_insert_eq (t : pydict) (k : string) (c : Z) : <[k := c]> t !! k = Some c.
Proof. rewrite dict_lookup_insert, decide_True; reflexivity. Qed.

Lemma dict_lookup_insert_ne (t : pydict) (k k' : string) (c : Z) :
  k <> k' -> <[k := c]> t !! k' = t !! k'.
Proof. intros H. rewrite dict_lookup_insert, decide_False; auto. Qed.

Lemma dict_lookup_delete (t : pydict) (k k' : string) :
  delete k t !! k' = if decide (k = k') then None else t !! k'.
Proof.
  destruct t as [l]. unfold delete, lookup, pydict_delete, pydict_lookup. cbn [entries].
  induction l as [|[k0 c0] l IH]; cbn [assoc_del assoc_get].
  - destruct (decide (k = k')); reflexivity.
  - destruct (String.eqb_spec k0 k) as [->|Hne]; cbn [assoc_get].
    + rewrite IH. destruct (decide (k = k')) as [->|Hne']; [reflexivity|].
      destruct (String.eqb_spec k k'); congruence.
    + rewrite IH. destruct (String.eqb_spec k0 k') as [->|Hne']; [|reflexivity].
      rewrite decide_False by congruence. reflexivity.
Qed.

Lemma dict_lookup_delete_eq (t : pydict) (k : string) : delete k t !! k = None.
Proof. rewrite dict_lookup_delete, decide_True; reflexivity. Qed.

Lemma dict_lookup_delete_ne (t : pydict) (k k' : string) :
  k <> k' -> delete k t !! k' = t !! k'.
Proof. intros H. rewrite dict_lookup_delete, decide_False; auto. Qed.

Lemma dict_insert_insert_eq (t : pydict) (k : string) (c c' : Z) :
  <[k := c]> (<[k := c']> t) = <[k := c]> t.
Proof.
  destruct t as [l]. unfold insert, pydict_insert. cbn [entries]. f_equal.
  induction l as [|[k0 c0] l IH]; cbn [assoc_set].
  - rewrite String.eqb_refl. reflexivity.
  - destruct (String.eqb_spec k0 k) as [->|Hne]; cbn [assoc_set].
    + rewrite String.eqb_refl. reflexivity.
    + apply String.eqb_neq in Hne. rewrite Hne, IH. reflexivity.
Qed.

Lemma dict_delete_insert_eq (t : pydict) (k : string) (c : Z) :
  delete k (<[k := c]> t) = delete k t.
Proof.
  destruct t as [l]. unfold delete, insert, pydict_delete, pydict_insert.
  cbn [entries]. f_equal.
  induction l as [|[k0 c0] l IH]; cbn [assoc_set assoc_del].
  - rewrite String.eqb_refl. reflexivity.
  - destruct (String.eqb_spec k0 k) as [->|Hne]; cbn [assoc_del].
    + rewrite String.eqb_refl. reflexivity.
    + apply String.eqb_neq in Hne. rewrite Hne, IH. reflexivity.
Qed.

Lemma dict_delete_id (t : pydict) (k : string) : t !! k = None -> delete k t = t.
Proof.
  destruct t as [l]. unfold delete, lookup, pydict_delete, pydict_lookup.
  cbn [entries]. intros H. f_equal.
  induction l as [|[k0 c0] l IH]; cbn [assoc_del assoc_get] in *; [reflexivity|].
  destruct (String.eqb k0 k); [discriminate|]. rewrite IH by exact H. reflexivity.
Qed.

Lemma keys_elem (t : pydict) (p : string) :
  p ∈ Transport.keys t <-> is_Some (t !! p).
Proof.
  destruct t as [l]. unfold Transport.keys, lookup, pydict_lookup. cbn [entries].
  induction l as [|[k0 c0] l IH]; cbn [assoc_get fmap list_fmap fst].
  - split; [intros H; inversion H|intros [c H]; discriminate].
  - destruct (String.eqb_spec k0 p) as [->|Hne].
    + split; [eauto|intros _; left].
    + rewrite elem_of_cons, IH. split; [intros [->|H]; [congruence|exact H]|auto].
Qed.

Lemma keys_nil (t : pydict) : Transport.keys t = [] <-> t = ∅.
Proof.
  destruct t as [[|[k c] l]]; split; try reflexivity; discriminate.
Qed.

Lemma keys_delete (t : pydict) (k p : string) :
  p ∈ Transport.keys (delete k t) -> p ∈ Transport.keys t /\ p <> k.
Proof.
  rewrite !keys_elem, dict_lookup_delete.
  destruct (decide (k = p)) as [->|Hne]; [intros [c H]; discriminate|auto].
Qed.

(** ** The monad, unfolded *)

Ltac run :=
  repeat (unfold bind, ret, raise, get_world, modify, lift, try_aborted in *;
          cbn [fst snd] in * ).

Lemma disposed_set_table t w : disposed (set_table t w) = disposed w.
Proof. reflexivity. Qed.

Lemma table_set_table t w : temporary_references (set_table t w) = t.
Proof. reflexivity. Qed.

Lemma set_table_same w : set_table (temporary_references w) w = w.
Proof. destruct w; reflexivity. Qed.

Lemma count_of_insert t p c q :
  count_of (<[p := c]> t) q = if decide (p = q) then c else count_of t q.
Proof.
  unfold count_of. rewrite dict_lookup_insert. destruct (decide (p = q)); reflexivity.
Qed.

Lemma count_of_delete t p q :
  count_of (delete p t) q = if decide (p = q) then 0 else count_of t q.
Proof.
  unfold count_of. rewrite dict_lookup_delete. destruct (decide (p = q)); reflexivity.
Qed.

(** ** A frame rule: what every operation keeps *)

Section Frame.
Variable json_loads : string -> exn + pyval.
Variable json_dumps : pyval -> string.
Variable R : World -> World -> Prop.
Hypothesis R_refl : forall w, R w w.
Hypothesis R_trans : forall w1 w2 w3, R w1 w2 -> R w2 w3 -> R w1 w3.
(** The table is only written while the transport is not disposed. *)
Hypothesis R_table : forall t w, disposed w = false -> R w (set_table t w).
Hypothesis R_disposed : forall w, R w (set_disposed true w).
Hypothesis R_log : forall e w, R w (log e w).
Hypothesis R_allocate : forall o w, R w (allocate o w).
(** An [AttrRef] is collected by the code that held it, a proxy by the
    program. *)
Hypothesis R_free_ref : forall r w, R w (free (ORef r) w).
Hypothesis R_free_proxy : forall p w, R w (free (OProxy p) w).
Hypothesis R_request : forall c method url body h w,
    R w (after_request c method url body h w).
Hypothesis R_open : forall w, R w (opened_anew w).

Lemma keeps_ret {A} (a : A) : keeps R (ret a).
Proof. intros w. apply R_refl. Qed.

Lemma keeps_raise {A} (e : exn) : keeps R (raise (A := A) e).
Proof. intros w. apply R_refl. Qed.

Lemma keeps_lift {A} (r : exn + A) : keeps R (lift r).
Proof. intros w. apply R_refl. Qed.

Lemma keeps_bind {A B} (m : M A) (k : A -> M B) :
  keeps R m -> (forall a, keeps R (k a)) -> keeps R (bind m k).
Proof.
  intros Hm Hk w. unfold bind. specialize (Hm w).
  destruct (m w) as [[e|a] w1]; cbn [snd] in *; [exact Hm|].
  eapply R_trans; [exact Hm|]. apply Hk.
Qed.

Lemma keeps_modify (f : World -> World) :
  (forall w, R w (f w)) -> keeps R (modify f).
Proof. intros Hf w. apply Hf. Qed.

Lemma keeps_try {A} (m h : M A) : keeps R m -> keeps R h -> keeps R (try_aborted m h).
Proof.
  intros Hm Hh w. unfold try_aborted. specialize (Hm w).
  destruct (m w) as [[e|a] w1]; cbn [snd] in *; [|exact Hm].
  destruct e; try exact Hm. eapply R_trans; [exact Hm|]. apply Hh.
Qed.

Lemma keeps_collect_ref (del : M unit) (r : AttrRef_) :
  keeps R del -> keeps R (collect del (ORef r)).
Proof.
  intros Hd w. unfold collect. cbn [snd].
  eapply R_trans; [apply R_free_ref|]. apply Hd.
Qed.

Lemma keeps_collect_proxy (del : M unit) (p : AttrProxy_) :
  keeps R del -> keeps R (collect del (OProxy p)).
Proof.
  intros Hd w. unfold collect. cbn [snd].
  eapply R_trans; [apply R_free_proxy|]. apply Hd.
Qed.

Lemma frame_request method url body h :
  keeps R (Transport.connection_request method url body h).
Proof.
  intros w. unfold Transport.connection_request. run.
  destruct (connection w) as [c|]; [|apply R_refl].
  destruct (wire w (sent w)); cbn; apply (R_request c method url body h w).
Qed.

Lemma frame_reset : keeps R Transport._reset_connection.
Proof.
  intros w. unfold Transport._reset_connection. run.
  destruct (connection w) as [c|]; cbn.
  - eapply R_trans; [apply (R_log (EvClose c))|]. apply (R_open (log (EvClose c) w)).
  - apply (R_open w).
Qed.

Lemma frame_getresponse : keeps R Transport.connection_getresponse.
Proof.
  intros w. unfold Transport.connection_getresponse. run.
  destruct (connection w) as [c|]; [|apply R_refl]. cbn.
  destruct (sent w) as [|k]; [apply R_log|].
  destruct (wire w k); apply R_log.
Qed.

Lemma frame_connection_close : keeps R Transport.connection_close.
Proof.
  intros w. unfold Transport.connection_close. run.
  destruct (connection w) as [c|]; [apply R_log|apply R_refl].
Qed.

Lemma frame_del_all paths :
  forall w, disposed w = false -> R w (snd (Transport.del_all paths w)).
Proof.
  induction paths as [|a rest IH]; intros w Hd; cbn; [apply R_refl|].
  run. destruct (temporary_references w !! a); [|apply R_refl].
  match goal with
  | |- context [Transport.del_all rest ?w0] =>
      specialize (IH w0 Hd); destruct (Transport.del_all rest w0) as [[e|[]] w1]
  end; cbn [snd] in *; (eapply R_trans; [apply R_table, Hd|exact IH]).
Qed.

Section Inner.
Variable update : string -> bool -> M unit.
Hypothesis Hupdate : forall r b, keeps R (update r b).

Lemma frame_ref_init_inner p t h :
  keeps R (AttrRef.__init__ (fun r => update r true) p t h).
Proof.
  unfold AttrRef.__init__.
  apply keeps_bind; [apply keeps_modify; intros w; apply R_allocate|]. intros _.
  apply keeps_bind; [|intros _; apply keeps_ret].
  destruct (AttrRef.tracked _); [apply Hupdate|apply keeps_ret].
Qed.

Lemma frame_decode message : keeps R (Transport.Body._decode json_loads update message).
Proof.
  unfold Transport.Body._decode.
  destruct (String.eqb message EmptyString); [apply keeps_ret|].
  apply keeps_bind; [apply keeps_lift|]. intros spec.
  destruct (is_scalar spec); [apply keeps_ret|].
  destruct spec; try apply keeps_ret; try apply keeps_raise.
  destruct (dict_get members "type") as [data_type|]; [|apply keeps_raise].
  destruct (py_eq_str data_type "ref").
  - destruct (dict_get members "path") as [[]|]; try apply keeps_raise.
    apply keeps_bind; [apply frame_ref_init_inner|]. intros r. apply keeps_ret.
  - destruct (py_eq_str data_type "error"); [|apply keeps_raise].
    destruct (dict_get members "code"); [|apply keeps_raise].
    destruct (dict_get members "message"); apply keeps_raise.
Qed.

Lemma frame_decode_http response :
  keeps R (Transport.Body._decode_http_response json_loads update response).
Proof.
  unfold Transport.Body._decode_http_response.
  destruct (Z.eqb (status response) 200).
  - destruct (content response); [apply frame_decode|apply keeps_raise].
  - apply keeps_bind; [apply keeps_lift|]. intros e. apply keeps_raise.
Qed.

Lemma frame_send method url body h :
  keeps R (Transport.Body._send_http_request json_loads update method url body h).
Proof.
  unfold Transport.Body._send_http_request.
  apply keeps_bind.
  { apply keeps_try; [apply frame_request|].
    apply keeps_bind; [apply frame_reset|]. intros _. apply frame_request. }
  intros _. apply keeps_bind; [apply frame_getresponse|]. intros response.
  apply frame_decode_http.
Qed.

Lemma frame_drop_inner d : keeps R (Transport.Body.drop update d).
Proof.
  destruct d as [v|r]; [apply keeps_ret|].
  apply keeps_collect_ref. unfold AttrRef.__del__.
  destruct (AttrRef.tracked r); [apply Hupdate|apply keeps_ret].
Qed.

Lemma frame_release_refs_inner paths :
  keeps R (Transport.Body.release_refs json_loads update paths).
Proof.
  intros w. unfold Transport.Body.release_refs. unfold bind at 1. unfold get_world at 1.
  destruct (disposed w) eqn:Hd; cbn [negb]; [apply R_refl|].
  destruct (Nat.eqb (length paths) 0); [apply R_refl|].
  unfold bind at 1. pose proof (frame_del_all paths w Hd) as H1.
  destruct (Transport.del_all paths w) as [[e|[]] w1]; cbn [snd] in *; [exact H1|].
  eapply R_trans; [exact H1|].
  apply (keeps_bind get_world); [intros w0; apply R_refl|]. intros w0.
  apply keeps_bind; [apply frame_send|]. intros d. apply frame_drop_inner.
Qed.
End Inner.

Lemma frame_update fuel : forall r b, keeps R (Transport._update_ref_count json_loads fuel r b).
Proof.
  induction fuel as [|fuel IH]; intros r b w; cbn; run.
  - destruct (disposed w) eqn:Hd; [apply R_refl|].
    destruct (temporary_references w !! r) as [c|].
    + cbn. destruct (Z.eqb _ 0); apply R_table, Hd.
    + destruct b; cbn; [apply R_table, Hd|apply R_refl].
  - destruct (disposed w) eqn:Hd; [apply R_refl|].
    destruct (temporary_references w !! r) as [c|].
    + cbn. destruct (Z.eqb _ 0); [|apply R_table, Hd].
      eapply R_trans; [apply R_table, Hd|].
      apply (frame_release_refs_inner (Transport._update_ref_count json_loads fuel) IH).
    + destruct b; cbn; [apply R_table, Hd|apply R_refl].
Qed.

Lemma frame_await fuel : keeps R (await json_loads fuel).
Proof.
  unfold await. apply keeps_bind; [apply frame_getresponse|]. intros response.
  apply frame_decode_http, frame_update.
Qed.

Lemma frame_send_http fuel method url body h :
  keeps R (Transport._send_http_request json_loads fuel method url body h).
Proof. apply frame_send, frame_update. Qed.

Lemma frame_drop fuel d : keeps R (Transport.drop json_loads fuel d).
Proof. apply frame_drop_inner, frame_update. Qed.

Lemma frame_release_refs fuel paths :
  keeps R (Transport.release_refs json_loads fuel paths).
Proof. apply frame_release_refs_inner, frame_update. Qed.

Lemma frame_get fuel attribute_path :
  keeps R (Transport.get json_loads fuel attribute_path).
Proof.
  unfold Transport.get, Transport.Body.get.
  apply (keeps_bind get_world); [intros w; apply R_refl|]. intros w.
  apply frame_send, frame_update.
Qed.

Lemma frame_get_ref_count fuel : keeps R (Transport.get_ref_count json_loads fuel).
Proof.
  unfold Transport.get_ref_count, Transport.Body.get_ref_count.
  apply (keeps_bind get_world); [intros w; apply R_refl|]. intros w.
  apply frame_send, frame_update.
Qed.

Lemma frame_set fuel attribute_path value :
  keeps R (Transport.set json_loads fuel json_dumps attribute_path value).
Proof.
  unfold Transport.set, Transport.Body.set.
  apply (keeps_bind get_world); [intros w; apply R_refl|]. intros w.
  apply keeps_bind; [apply keeps_lift|]. intros body.
  apply keeps_bind; [apply frame_send, frame_update|]. intros d.
  apply frame_drop_inner, frame_update.
Qed.

Lemma frame_invoke fuel attribute_path arguments :
  keeps R (Transport.invoke json_loads fuel json_dumps attribute_path arguments).
Proof.
  unfold Transport.invoke, Transport.Body.invoke.
  apply (keeps_bind get_world); [intros w; apply R_refl|]. intros w.
  apply keeps_bind; [apply keeps_lift|]. intros encoded.
  apply frame_send, frame_update.
Qed.

Lemma frame_close fuel : keeps R (Transport.close json_loads fuel).
Proof.
  unfold Transport.close.
  apply (keeps_bind get_world); [intros w; apply R_refl|]. intros w.
  destruct (negb (disposed w)); [|apply keeps_ret].
  apply keeps_bind; [apply frame_release_refs|]. intros _.
  apply keeps_bind; [apply frame_connection_close|]. intros _.
  apply keeps_modify. apply R_disposed.
Qed.

Lemma frame_ref_init fuel p t h :
  keeps R (AttrRef.__init__ (Transport.increment_ref_count json_loads fuel) p t h).
Proof. apply (frame_ref_init_inner (Transport._update_ref_count json_loads fuel)), frame_update. Qed.

Lemma frame_ref_del fuel r :
  keeps R (AttrRef.__del__ (Transport.decrement_ref_count json_loads fuel) r).
Proof.
  unfold AttrRef.__del__. destruct (AttrRef.tracked r); [apply frame_update|apply keeps_ret].
Qed.

Lemma frame_proxy_init fuel p t : keeps R (AttrProxy.__init__ json_loads fuel p t).
Proof.
  unfold AttrProxy.__init__.
  apply keeps_bind; [apply keeps_modify; intros w; apply R_allocate|]. intros _.
  apply keeps_bind; [|intros _; apply keeps_ret].
  destruct t; [apply frame_update|apply keeps_ret].
Qed.

Lemma frame_proxy_del fuel x : keeps R (AttrProxy.__del__ json_loads fuel x).
Proof.
  unfold AttrProxy.__del__. destruct (temporary x); [apply frame_update|apply keeps_ret].
Qed.

Lemma frame_finalize fuel o : keeps R (finalize json_loads fuel o).
Proof.
  destruct o as [r|x]; unfold finalize.
  - apply keeps_collect_ref, frame_ref_del.
  - apply keeps_collect_proxy, frame_proxy_del.
Qed.

Lemma frame_wrap fuel self response :
  keeps R (AttrProxy._value_from_transport_response json_loads fuel self response).
Proof.
  destruct response; cbn; [apply keeps_ret|].
  apply keeps_bind; [apply frame_proxy_init|]. intros p. apply keeps_ret.
Qed.

Lemma frame_getattr fuel self name :
  keeps R (AttrProxy.__getattr__ json_loads fuel self name).
Proof.
  unfold AttrProxy.__getattr__. destruct (String.eqb (lower name) "count").
  - apply keeps_bind; [apply frame_get|]. intros response.
    apply keeps_bind; [apply frame_wrap|]. intros value.
    apply keeps_bind; [apply frame_drop|]. intros _. apply keeps_ret.
  - apply keeps_bind; [apply frame_proxy_init|]. intros p. apply keeps_ret.
Qed.

Lemma frame_access fuel object_has self name :
  keeps R (AttrProxy.getattr json_loads fuel object_has self name).
Proof.
  unfold AttrProxy.getattr. destruct (AttrProxy.found object_has name); [apply keeps_ret|].
  apply keeps_bind; [apply frame_getattr|]. intros r. apply keeps_ret.
Qed.

Lemma frame_getitem fuel self k : keeps R (AttrProxy.__getitem__ json_loads fuel self k).
Proof. unfold AttrProxy.__getitem__. apply frame_proxy_init. Qed.

Lemma frame_eval fuel self : keeps R (AttrProxy.eval json_loads fuel self).
Proof.
  unfold AttrProxy.eval.
  apply keeps_bind; [apply frame_get|]. intros response.
  apply keeps_bind; [apply frame_wrap|]. intros value.
  apply keeps_bind; [apply frame_drop|]. intros _. apply keeps_ret.
Qed.

Lemma frame_convert fuel value :
  keeps R (AttrProxy._value_for_transport_request json_loads fuel value).
Proof.
  destruct value; cbn; try apply keeps_ret.
  apply keeps_bind; [apply frame_ref_init|]. intros r. apply keeps_ret.
Qed.

Lemma frame_forget fuel value converted : keeps R (AttrProxy.forget json_loads fuel value converted).
Proof.
  destruct value, converted; cbn; try apply keeps_ret.
  apply keeps_collect_ref, frame_ref_del.
Qed.

Lemma frame_setattr fuel self name value :
  keeps R (AttrProxy.__setattr__ json_loads fuel json_dumps self name value).
Proof.
  unfold AttrProxy.__setattr__.
  apply keeps_bind; [apply frame_convert|]. intros v.
  apply keeps_bind; [apply frame_set|]. intros _. apply frame_forget.
Qed.

Lemma frame_convert_all fuel args : keeps R (AttrProxy.convert_all json_loads fuel args).
Proof.
  induction args as [|a rest IH]; cbn; [apply keeps_ret|].
  apply keeps_bind; [apply frame_convert|]. intros v.
  apply keeps_bind; [apply IH|]. intros vs. apply keeps_ret.
Qed.

Lemma frame_forget_all fuel args :
  forall transport_args, keeps R (AttrProxy.forget_all json_loads fuel args transport_args).
Proof.
  induction args as [|a rest IH]; intros [|v vs]; cbn; try apply keeps_ret.
  apply keeps_bind; [apply frame_forget|]. intros _. apply IH.
Qed.

Lemma frame_call fuel self args :
  keeps R (AttrProxy.__call__ json_loads fuel json_dumps self args).
Proof.
  unfold AttrProxy.__call__.
  apply keeps_bind; [apply frame_convert_all|]. intros transport_args.
  apply keeps_bind; [apply frame_invoke|]. intros response.
  apply keeps_bind; [apply frame_wrap|]. intros value.
  apply keeps_bind; [apply frame_drop|]. intros _.
  apply keeps_bind; [apply frame_forget_all|]. intros _. apply keeps_ret.
Qed.

Lemma frame_items fuel self indices : keeps R (AttrProxy.items json_loads fuel self indices).
Proof.
  induction indices as [|i rest IH]; cbn; [apply keeps_ret|].
  apply keeps_bind; [apply frame_getitem|]. intros p.
  apply keeps_bind; [apply IH|]. intros ps. apply keeps_ret.
Qed.

Lemma frame_iter fuel self : keeps R (AttrProxy.__iter__ json_loads fuel self).
Proof.
  unfold AttrProxy.__iter__.
  apply keeps_bind; [apply frame_getattr|]. intros [[]|p]; try apply keeps_raise;
    try apply frame_items.
  apply keeps_bind; [|intros _; apply keeps_raise].
  apply keeps_collect_proxy, frame_proxy_del.
Qed.

Lemma frame_navigate fuel object_has hops :
  forall self, keeps R (navigate json_loads fuel object_has self hops).
Proof.
  induction hops as [|h rest IH]; intros self; cbn [navigate]; [apply keeps_ret|].
  destruct h as [name|k].
  - apply keeps_bind; [apply frame_access|].
    intros [m|[v|p]]; try apply IH; destruct rest; try apply keeps_ret; apply keeps_raise.
  - apply keeps_bind; [apply frame_getitem|]. intros p. apply IH.
Qed.

Lemma frame_step w w' : step json_loads w w' -> R w w'.
Proof.
  intros Hs. destruct Hs.
  - apply frame_proxy_init.
  - apply frame_ref_init.
  - apply frame_finalize.
  - apply frame_send_http.
  - apply frame_getattr.
  - apply frame_getitem.
  - apply frame_eval.
  - pose proof (frame_close fuel w) as X. rewrite H in X. exact X.
Qed.

Lemma frame_orderly_step w w' : orderly_step json_loads json_dumps w w' -> R w w'.
Proof.
  intros Hs. destruct Hs.
  - apply frame_step. assumption.
  - apply frame_get.
  - apply frame_get_ref_count.
  - apply frame_set.
  - apply frame_invoke.
  - apply frame_access.
  - apply frame_setattr.
  - apply frame_call.
  - apply frame_iter.
Qed.

Lemma frame_api_step w w' : api_step json_loads json_dumps w w' -> R w w'.
Proof.
  intros Hs. destruct Hs.
  - apply frame_orderly_step. assumption.
  - apply frame_close.
  - apply frame_release_refs.
  - apply frame_update.
  - apply frame_update.
  - apply frame_decode, frame_update.
  - apply frame_reset.
Qed.
End Frame.

(** The record of the connection only grows. *)
Lemma later_refl w : later w w.
Proof. exists []. rewrite app_nil_r. reflexivity. Qed.

Lemma later_trans w1 w2 w3 : later w1 w2 -> later w2 w3 -> later w1 w3.
Proof.
  intros [m1 H1] [m2 H2]. exists (m1 ++ m2). rewrite H2, H1, app_assoc. reflexivity.
Qed.

Ltac later_frame :=
  first [ exact later_refl | exact later_trans
        | intros; exists []; cbn; rewrite app_nil_r; reflexivity
        | intros; eexists; reflexivity ].

Section Bookkeeping.
Variable json_loads : string -> exn + pyval.

Lemma update_disposed fuel ref increment w :
  disposed w = true ->
  Transport._update_ref_count json_loads fuel ref increment w = (inr tt, w).
Proof.
  intros Hd. destruct fuel; cbn; run; rewrite Hd; reflexivity.
Qed.

Lemma update_absent_increment fuel ref w :
  disposed w = false -> temporary_references w !! ref = None ->
  Transport._update_ref_count json_loads fuel ref true w
  = (inr tt, set_table (<[ref := 1]> (temporary_references w)) w).
Proof.
  intros Hd Hn. destruct fuel; cbn; run; rewrite Hd, Hn; reflexivity.
Qed.

Lemma update_absent_decrement fuel ref w :
  disposed w = false -> temporary_references w !! ref = None ->
  Transport._update_ref_count json_loads fuel ref false w
  = (inl (ClientException_
            (PStr ("Cannot decrement count for " ++ ref ++
                   " because it was not found in the reference map.")%string)
            (PStr "InvalidOperation")), w).
Proof.
  intros Hd Hn. destruct fuel; cbn; run; rewrite Hd, Hn; reflexivity.
Qed.

Lemma update_present_nonzero fuel ref (increment : bool) (c : Z) w :
  disposed w = false -> temporary_references w !! ref = Some c ->
  c + (if increment then 1 else -1) <> 0 ->
  Transport._update_ref_count json_loads fuel ref increment w
  = (inr tt,
     set_table (<[ref := c + (if increment then 1 else -1)]> (temporary_references w)) w).
Proof.
  intros Hd Hs Hnz. apply Z.eqb_neq in Hnz.
  destruct fuel; cbn; run; rewrite Hd, Hs; cbn; rewrite Hnz; reflexivity.
Qed.
End Bookkeeping.

(** ** What a request does to the store *)

Lemma wire_only_refl w : wire_only w w.
Proof. split; try reflexivity. exists []. symmetry. apply app_nil_r. Qed.

Lemma wire_only_trans w1 w2 w3 :
  wire_only w1 w2 -> wire_only w2 w3 -> wire_only w1 w3.
Proof.
  intros [] []. split; try congruence.
  destruct wo_trace0 as [m1 H1], wo_trace1 as [m2 H2].
  exists (m1 ++ m2). rewrite H2, H1. symmetry. apply app_assoc.
Qed.

Lemma wire_only_log e w : wire_only w (log e w).
Proof. split; try reflexivity. exists [e]. reflexivity. Qed.

Lemma connection_request_wire method url body h w :
  wire_only w (snd (Transport.connection_request method url body h w)).
Proof.
  unfold Transport.connection_request. run.
  destruct (connection w); [|apply wire_only_refl].
  destruct (wire w (sent w)); cbn; (split; try reflexivity; eexists; reflexivity).
Qed.

Lemma reset_connection_wire w :
  wire_only w (snd (Transport._reset_connection w)).
Proof.
  unfold Transport._reset_connection. run.
  destruct (connection w); cbn; split; try reflexivity; cbn.
  - eexists. rewrite <- app_assoc. reflexivity.
  - eexists. reflexivity.
Qed.

Lemma connection_getresponse_wire w :
  wire_only w (snd (Transport.connection_getresponse w)).
Proof.
  unfold Transport.connection_getresponse. run.
  destruct (connection w); [|apply wire_only_refl]. cbn.
  destruct (sent w) as [|k]; [apply wire_only_log|].
  destruct (wire w k); apply wire_only_log.
Qed.

Lemma connection_close_wire w :
  wire_only w (snd (Transport.connection_close w)).
Proof.
  unfold Transport.connection_close. run.
  destruct (connection w); [apply wire_only_log|apply wire_only_refl].
Qed.

Section Requests.
Variable json_loads : string -> exn + pyval.
Variable update : string -> bool -> M unit.

(** [_decode] raises, or returns a scalar, without touching the store,
    or it builds one temporary reference. *)
Lemma decode_cases message w :
  (exists e, Transport.Body._decode json_loads update message w = (inl e, w))
  \/ (exists v, Transport.Body._decode json_loads update message w = (inr (DVal v), w))
  \/ (exists p, Transport.Body._decode json_loads update message w = new_ref update p w).
Proof.
  unfold Transport.Body._decode.
  destruct (String.eqb message EmptyString); [right; left; eexists; reflexivity|].
  run. destruct (json_loads message) as [e|spec]; [left; eexists; reflexivity|].
  destruct (is_scalar spec) eqn:Hs; [right; left; eexists; reflexivity|].
  destruct spec; try discriminate Hs; try (left; eexists; reflexivity).
  destruct (dict_get members "type") as [data_type|]; [|left; eexists; reflexivity].
  destruct (py_eq_str data_type "ref").
  - destruct (dict_get members "path") as [[]|];
      try (left; eexists; reflexivity).
    right; right. exists s. reflexivity.
  - destruct (py_eq_str data_type "error"); [|left; eexists; reflexivity].
    destruct (dict_get members "code"); [|left; eexists; reflexivity].
    destruct (dict_get members "message"); left; eexists; reflexivity.
Qed.
End Requests.

(** The submission of a request: the first thing done is the request on
    the current connection. *)
Lemma submission_wire method url body h w :
  let r := try_aborted (Transport.connection_request method url body h)
             (Transport._reset_connection ;;;
              Transport.connection_request method url body h) w in
  wire_only w (snd r)
  /\ (forall c, connection w = Some c ->
        exists rest, trace (snd r) = trace w ++ EvRequest c method url body h :: rest)
  /\ (connection w = None -> r = (inl AttributeError, w)).
Proof.
  cbn zeta. unfold try_aborted.
  destruct (Transport.connection_request method url body h w) as [[e|[]] w1] eqn:E1.
  - assert (W1 : wire_only w w1)
      by (pose proof (connection_request_wire method url body h w) as X;
          rewrite E1 in X; exact X).
    assert (T1 : forall c, connection w = Some c ->
                 trace w1 = trace w ++ [EvRequest c method url body h]).
    { intros c Hc. unfold Transport.connection_request in E1. run.
      rewrite Hc in E1. destruct (wire w (sent w)); inversion E1; reflexivity. }
    assert (N1 : connection w = None -> e = AttributeError /\ w1 = w).
    { intros Hc. unfold Transport.connection_request in E1. run.
      rewrite Hc in E1. inversion E1; auto. }
    assert (Hgen : wire_only w w1
       /\ (forall c, connection w = Some c ->
            exists rest, trace w1 = trace w ++ EvRequest c method url body h :: rest)
       /\ (connection w = None -> (inl e : exn + unit, w1) = (inl AttributeError, w))).
    { split; [exact W1|]. split.
      - intros c Hc. exists []. apply T1, Hc.
      - intros Hc. destruct (N1 Hc) as [-> ->]. reflexivity. }
    destruct e; try exact Hgen.
    (* ConnectionAbortedError: the connection is replaced, the request sent again *)
    unfold bind.
    destruct (Transport._reset_connection w1) as [[e2|[]] w2] eqn:E2.
    + unfold Transport._reset_connection in E2. run.
      destruct (connection w1); discriminate E2.
    + pose proof (reset_connection_wire w1) as W2. rewrite E2 in W2. cbn in W2.
      pose proof (connection_request_wire method url body h w2) as W3.
      split; [eauto using wire_only_trans|]. split.
      * intros c Hc.
        destruct (wire_only_trans _ _ _ W2 W3) as [_ _ _ _ _ [more Hm]].
        exists more. rewrite Hm, (T1 c Hc), <- app_assoc. reflexivity.
      * intros Hc. destruct (N1 Hc). discriminate.
  - pose proof (connection_request_wire method url body h w) as W1.
    rewrite E1 in W1. cbn in W1. split; [exact W1|]. split.
    + intros c Hc. exists []. unfold Transport.connection_request in E1. run.
      rewrite Hc in E1. destruct (wire w (sent w)); inversion E1; reflexivity.
    + intros Hc. unfold Transport.connection_request in E1. run.
      rewrite Hc in E1. discriminate.
Qed.

Section RequestCases.
Variable json_loads : string -> exn + pyval.
Variable update : string -> bool -> M unit.

(** A request changes the table and the heap only by the one reference
    its response may turn into, built after all traffic is over. *)
Lemma send_cases method url body h w :
  exists w1,
    wire_only w w1
    /\ (forall c, connection w = Some c ->
          exists rest, trace w1 = trace w ++ EvRequest c method url body h :: rest)
    /\ ((exists e, Transport.Body._send_http_request json_loads update
                     method url body h w = (inl e, w1))
        \/ (exists v, Transport.Body._send_http_request json_loads update
                        method url body h w = (inr (DVal v), w1))
        \/ (exists p, Transport.Body._send_http_request json_loads update
                        method url body h w = new_ref update p w1)).
Proof.
  destruct (submission_wire method url body h w) as (W1 & T1 & _).
  unfold Transport.Body._send_http_request, bind.
  destruct (try_aborted _ _ w) as [[e|[]] w1]; cbn [snd] in *.
  { exists w1. split; [exact W1|]. split; [exact T1|]. left. eexists. reflexivity. }
  pose proof (connection_getresponse_wire w1) as W2.
  destruct (Transport.connection_getresponse w1) as [[e|response] w2]; cbn [snd] in *.
  { exists w2. split; [eauto using wire_only_trans|]. split.
    - intros c Hc. destruct (T1 c Hc) as [rest Hr]. destruct W2 as [_ _ _ _ _ [more Hm]].
      exists (rest ++ more). rewrite Hm, Hr, <- app_assoc. reflexivity.
    - left. eexists. reflexivity. }
  exists w2. split; [eauto using wire_only_trans|]. split.
  { intros c Hc. destruct (T1 c Hc) as [rest Hr]. destruct W2 as [_ _ _ _ _ [more Hm]].
    exists (rest ++ more). rewrite Hm, Hr, <- app_assoc. reflexivity. }
  unfold Transport.Body._decode_http_response.
  destruct (Z.eqb (status response) 200).
  - destruct (content response) as [text|]; [|left; eexists; reflexivity].
    apply decode_cases.
  - left. eexists. reflexivity.
Qed.
End RequestCases.

(** ** The bookkeeping, case by case *)

Section Counting.
Variable json_loads : string -> exn + pyval.

Lemma update_decrement_to_zero fuel ref w :
  disposed w = false -> temporary_references w !! ref = Some 1 ->
  Transport._update_ref_count json_loads (S fuel) ref false w
  = release_post json_loads fuel [ref] (set_table (delete ref (temporary_references w)) w).
Proof.
  intros Hd Hs. cbn. run. rewrite Hd, Hs. cbn.
  unfold Transport.Body.release_refs. run.
  change (1 + -1) with 0. cbn. rewrite Hd. cbn.
  rewrite dict_lookup_insert_eq. cbn. rewrite dict_delete_insert_eq.
  unfold release_post, Transport._http_post. run. reflexivity.
Qed.

Lemma update_decrement_no_room ref w :
  disposed w = false -> temporary_references w !! ref = Some 1 ->
  Transport._update_ref_count json_loads 0 ref false w
  = (inl RecursionError, set_table (<[ref := 0]> (temporary_references w)) w).
Proof.
  intros Hd Hs. cbn. run. rewrite Hd, Hs. reflexivity.
Qed.

(** An increment of a count that is not negative adds one and sends
    nothing. *)
Lemma increment_effect fuel ref w :
  disposed w = false -> 0 <= count_of (temporary_references w) ref ->
  Transport.increment_ref_count json_loads fuel ref w
  = (inr tt,
     set_table (<[ref := count_of (temporary_references w) ref + 1]>
                  (temporary_references w)) w).
Proof.
  intros Hd Hc. unfold Transport.increment_ref_count, count_of in *.
  destruct (temporary_references w !! ref) as [c|] eqn:E; cbn in *.
  - rewrite (update_present_nonzero json_loads fuel ref true c w Hd E) by lia.
    reflexivity.
  - rewrite (update_absent_increment json_loads fuel ref w Hd E). reflexivity.
Qed.
End Counting.

(** ** The table counts the live holders *)

Lemma holders_nonneg h p : 0 <= holders h p.
Proof. induction h as [|o h IH]; cbn; [lia|]. destruct (holds o p); lia. Qed.

Lemma holders_remove_one o h p :
  o ∈ h -> holders (remove_one o h) p = holders h p - (if holds o p then 1 else 0).
Proof.
  induction h as [|o' h IH]; intros Hin.
  - inversion Hin.
  - cbn. destruct (decide (o = o')) as [->|Hne]; [lia|].
    cbn. rewrite IH; [lia|]. inversion Hin; subst; [congruence|assumption].
Qed.

Lemma holders_member o h p : o ∈ h -> holds o p = true -> 1 <= holders h p.
Proof.
  intros Hin Hh. pose proof (holders_remove_one o h p Hin) as E.
  rewrite Hh in E. pose proof (holders_nonneg (remove_one o h) p). lia.
Qed.

Lemma holds_unique o p q : holds o p = true -> holds o q = true -> p = q.
Proof.
  destruct o; cbn; intros H1 H2;
    apply andb_true_iff in H1 as [_ H1]; apply andb_true_iff in H2 as [_ H2];
    apply String.eqb_eq in H1, H2; congruence.
Qed.

Lemma holds_other o p q : holds o p = true -> p <> q -> holds o q = false.
Proof.
  intros Hp Hne. destruct (holds o q) eqn:E; [|reflexivity].
  destruct Hne. eapply holds_unique; eassumption.
Qed.

Lemma wire_only_invariant w w' : wire_only w w' -> invariant w -> invariant w'.
Proof.
  intros [] Hinv Hd q. rewrite wo_table0, wo_heap0. apply Hinv. congruence.
Qed.

Lemma preserves_ret {A} (a : A) : preserves (ret a).
Proof. intros w H. exact H. Qed.

Lemma preserves_bind {A B} (m : M A) (k : A -> M B) :
  preserves m -> (forall a, preserves (k a)) -> preserves (bind m k).
Proof.
  intros Hm Hk w Hw. unfold bind. specialize (Hm w Hw).
  destruct (m w) as [[e|a] w1]; cbn in *; [exact Hm|]. apply Hk, Hm.
Qed.

Lemma remove_one_head o h : remove_one o (o :: h) = h.
Proof. cbn. rewrite decide_True; reflexivity. Qed.

Section Invariant.
Variable json_loads : string -> exn + pyval.

(** Registering a new holder of [p] and counting it. *)
Lemma counted_allocation fuel (o : obj) (p : string) (w : World) :
  holds o p = true -> invariant w ->
  invariant (snd (Transport.increment_ref_count json_loads fuel p (allocate o w))).
Proof.
  intros Hh Hinv. destruct (disposed w) eqn:Hd.
  - unfold Transport.increment_ref_count.
    rewrite update_disposed by exact Hd. intros Hd'. cbn in Hd'. congruence.
  - specialize (Hinv Hd).
    rewrite increment_effect; cbn.
    + intros _ q. cbn. rewrite count_of_insert. destruct (decide (p = q)) as [->|Hne].
      * rewrite Hh, Hinv. lia.
      * rewrite (holds_other o p q Hh Hne), Hinv. lia.
    + exact Hd.
    + rewrite Hinv. apply holders_nonneg.
Qed.

Lemma idle_allocation (o : obj) (w : World) :
  (forall q, holds o q = false) -> invariant w -> invariant (allocate o w).
Proof.
  intros Hh Hinv Hd q. cbn. rewrite Hh. rewrite (Hinv Hd q). lia.
Qed.

(** Under the invariant a constructor returns its object, which is then
    the newest of the heap. *)
Lemma ref_init_live fuel p t h w :
  invariant w ->
  exists w',
    AttrRef.__init__ (Transport.increment_ref_count json_loads fuel) p t h w
    = (inr (mkAttrRef p t h), w')
    /\ heap w' = ORef (mkAttrRef p t h) :: heap w
    /\ disposed w' = disposed w
    /\ invariant w'.
Proof.
  intros Hinv. unfold AttrRef.__init__. run.
  destruct (AttrRef.tracked (mkAttrRef p t h)) eqn:Ht.
  - pose proof (counted_allocation fuel (ORef (mkAttrRef p t h)) p w) as X.
    destruct (disposed w) eqn:Hd.
    + unfold Transport.increment_ref_count in *.
      rewrite update_disposed in * by exact Hd.
      eexists. split; [reflexivity|]. repeat split; auto.
      apply X; auto. cbn. rewrite Ht, String.eqb_refl. reflexivity.
    + rewrite increment_effect in *; cbn; try exact Hd.
      * eexists. split; [reflexivity|]. repeat split; auto.
        apply X; auto. cbn. rewrite Ht, String.eqb_refl. reflexivity.
      * rewrite (Hinv Hd). apply holders_nonneg.
      * rewrite (Hinv Hd). apply holders_nonneg.
  - eexists. split; [reflexivity|]. repeat split.
    apply idle_allocation; [|exact Hinv]. intros q. cbn. rewrite Ht. reflexivity.
Qed.

Lemma proxy_init_live fuel p t w :
  invariant w ->
  exists w',
    AttrProxy.__init__ json_loads fuel p t w = (inr (mkAttrProxy p t), w')
    /\ heap w' = OProxy (mkAttrProxy p t) :: heap w
    /\ disposed w' = disposed w
    /\ invariant w'.
Proof.
  intros Hinv. unfold AttrProxy.__init__. run. destruct t.
  - pose proof (counted_allocation fuel (OProxy (mkAttrProxy p true)) p w) as X.
    destruct (disposed w) eqn:Hd.
    + unfold Transport.increment_ref_count in *.
      rewrite update_disposed in * by exact Hd.
      eexists. split; [reflexivity|]. repeat split; auto.
      apply X; auto. cbn. rewrite String.eqb_refl. reflexivity.
    + rewrite increment_effect in *; cbn; try exact Hd.
      * eexists. split; [reflexivity|]. repeat split; auto.
        apply X; auto. cbn. rewrite String.eqb_refl. reflexivity.
      * rewrite (Hinv Hd). apply holders_nonneg.
      * rewrite (Hinv Hd). apply holders_nonneg.
  - eexists. split; [reflexivity|]. repeat split.
    apply idle_allocation; [|exact Hinv]. intros q. reflexivity.
Qed.

Lemma ref_init_preserves fuel p t h :
  preserves (AttrRef.__init__ (Transport.increment_ref_count json_loads fuel) p t h).
Proof.
  intros w Hinv. destruct (ref_init_live fuel p t h w Hinv) as (w' & -> & _ & _ & H).
  exact H.
Qed.

Lemma proxy_init_preserves fuel p t :
  preserves (AttrProxy.__init__ json_loads fuel p t).
Proof.
  intros w Hinv. destruct (proxy_init_live fuel p t w Hinv) as (w' & -> & _ & _ & H).
  exact H.
Qed.

(** A request keeps the invariant, and the reference it returns is live. *)
Lemma send_live fuel method url body h w :
  invariant w ->
  invariant (snd (Transport._send_http_request json_loads fuel method url body h w))
  /\ disposed (snd (Transport._send_http_request json_loads fuel method url body h w))
     = disposed w
  /\ forall r, fst (Transport._send_http_request json_loads fuel method url body h w)
               = inr (DRef r) ->
               ORef r ∈ heap (snd (Transport._send_http_request json_loads fuel
                                     method url body h w)).
Proof.
  intros Hinv. unfold Transport._send_http_request.
  destruct (send_cases json_loads (Transport._update_ref_count json_loads fuel)
              method url body h w) as (w1 & W1 & _ & Hc).
  pose proof (wire_only_invariant _ _ W1 Hinv) as Hinv1.
  destruct W1 as [_ _ Hd1 _ _ _].
  destruct Hc as [[e ->]|[[v ->]|[p ->]]]; cbn [fst snd].
  - repeat split; auto. discriminate.
  - repeat split; auto. discriminate.
  - unfold new_ref.
    destruct (ref_init_live fuel p true (Some tt) w1 Hinv1) as (w2 & E & Hh & Hd2 & Hinv2).
    unfold Transport.increment_ref_count in E. unfold bind. rewrite E. cbn [fst snd ret].
    split; [exact Hinv2|]. split; [congruence|].
    intros r Hr. inversion Hr; subst. rewrite Hh. left.
Qed.

Lemma send_preserves fuel method url body h :
  preserves (Transport._send_http_request json_loads fuel method url body h).
Proof. intros w Hinv. apply send_live, Hinv. Qed.
End Invariant.

Lemma free_balance (o : obj) (p : string) (w : World) :
  o ∈ heap w -> holds o p = true -> balanced w ->
  forall q, count_of (temporary_references (free o w)) q
            = holders (heap (free o w)) q + (if decide (p = q) then 1 else 0).
Proof.
  intros Hin Hh Hbal q. cbn. rewrite holders_remove_one by exact Hin.
  rewrite Hbal. destruct (decide (p = q)) as [<-|Hpq].
  - rewrite Hh. lia.
  - rewrite (holds_other o p q Hh Hpq). lia.
Qed.

Lemma free_idle (o : obj) (w : World) :
  o ∈ heap w -> (forall q, holds o q = false) -> invariant w -> invariant (free o w).
Proof.
  intros Hin Hh Hinv Hd q. cbn. rewrite holders_remove_one by exact Hin.
  rewrite Hh, (Hinv Hd q). lia.
Qed.

Section Collecting.
Variable json_loads : string -> exn + pyval.

(** Collecting a live reference keeps the invariant, given that dropping
    one holder from the count does. *)
Lemma collect_ref_preserves (decrement : string -> M unit) (r : AttrRef_) (w : World) :
  (forall w0, disposed w0 = true -> decrement (ref_path r) w0 = (inr tt, w0)) ->
  (forall w0, disposed w0 = false ->
     (forall q, count_of (temporary_references w0) q
                = holders (heap w0) q + (if decide (ref_path r = q) then 1 else 0)) ->
     invariant (snd (decrement (ref_path r) w0))) ->
  ORef r ∈ heap w -> invariant w ->
  invariant (snd (collect (AttrRef.__del__ decrement r) (ORef r) w)).
Proof.
  intros Hoff Hon Hin Hinv. unfold collect, AttrRef.__del__. cbn [snd].
  destruct (AttrRef.tracked r) eqn:Ht.
  - destruct (disposed w) eqn:Hd.
    + rewrite Hoff by exact Hd. intros Hd'. cbn in Hd'. congruence.
    + apply Hon; [exact Hd|].
      apply free_balance; auto. cbn. rewrite Ht, String.eqb_refl. reflexivity.
  - cbn. apply free_idle; auto. intros q. cbn. rewrite Ht. reflexivity.
Qed.

(** Dropping one holder of [p] from the count, with all that follows when
    the count reaches 0. *)
Lemma counted_release fuel :
  forall (p : string) (w : World),
    disposed w = false ->
    (forall q, count_of (temporary_references w) q
               = holders (heap w) q + (if decide (p = q) then 1 else 0)) ->
    invariant (snd (Transport.decrement_ref_count json_loads fuel p w)).
Proof.
  induction fuel as [|fuel IH]; intros p w Hd Hbal;
    unfold Transport.decrement_ref_count;
    pose proof (Hbal p) as Hp; rewrite decide_True in Hp by reflexivity;
    pose proof (holders_nonneg (heap w) p) as Hn;
    unfold count_of in Hp;
    (destruct (temporary_references w !! p) as [c|] eqn:E; cbn in Hp; [|lia]);
    assert (Hafter : forall t, count_of t p = c - 1 ->
              (forall q, p <> q -> count_of t q = count_of (temporary_references w) q) ->
              invariant (set_table t w))
      by (intros t H0 Hq _ q; cbn; destruct (decide (p = q)) as [<-|Hpq];
          [rewrite H0; lia|rewrite (Hq q Hpq), Hbal, decide_False by exact Hpq; lia]);
    (destruct (decide (c = 1)) as [->|Hne];
     [|rewrite (update_present_nonzero json_loads _ p false c w Hd E) by (cbn; lia);
       cbn; apply Hafter;
       [rewrite count_of_insert, decide_True; reflexivity
       |intros q Hpq; rewrite count_of_insert, decide_False; auto]]).
  - rewrite update_decrement_no_room by assumption. cbn. apply Hafter.
    + rewrite count_of_insert, decide_True; reflexivity.
    + intros q Hpq. rewrite count_of_insert, decide_False; auto.
  - rewrite update_decrement_to_zero by assumption.
    assert (Hinv0 : invariant (set_table (delete p (temporary_references w)) w)).
    { apply Hafter.
      - rewrite count_of_delete, decide_True; reflexivity.
      - intros q Hpq. rewrite count_of_delete, decide_False; auto. }
    unfold release_post, Transport._http_post, Transport.Body._http_post.
    unfold bind at 1. unfold get_world at 1. unfold bind.
    change (Transport.Body._send_http_request json_loads
              (Transport._update_ref_count json_loads fuel))
      with (Transport._send_http_request json_loads fuel).
    match goal with
    | |- context [Transport._send_http_request json_loads fuel ?m ?u ?b ?h ?w0] =>
        destruct (send_live json_loads fuel m u b h w0 Hinv0) as (Hinv1 & Hd1 & Hlive);
        destruct (Transport._send_http_request json_loads fuel m u b h w0)
          as [[e|d] w1]
    end; cbn [fst snd] in *; [exact Hinv1|].
    destruct d as [v|r]; [exact Hinv1|].
    unfold Transport.drop, Transport.Body.drop.
    apply collect_ref_preserves.
    + intros w0 Hd0. apply update_disposed. exact Hd0.
    + intros w0 Hd0 Hb0. apply (IH (ref_path r) w0 Hd0 Hb0).
    + apply Hlive. reflexivity.
    + exact Hinv1.
Qed.

Lemma drop_preserves fuel (d : decoded) (w : World) :
  (forall r, d = DRef r -> ORef r ∈ heap w) -> invariant w ->
  invariant (snd (Transport.drop json_loads fuel d w)).
Proof.
  intros Hlive Hinv. destruct d as [v|r]; [exact Hinv|].
  unfold Transport.drop, Transport.Body.drop.
  apply collect_ref_preserves.
  - intros w0 Hd0. apply update_disposed. exact Hd0.
  - intros w0 Hd0 Hb0. apply (counted_release fuel (ref_path r) w0 Hd0 Hb0).
  - apply Hlive. reflexivity.
  - exact Hinv.
Qed.

Lemma finalize_preserves fuel (o : obj) (w : World) :
  o ∈ heap w -> invariant w -> invariant (snd (finalize json_loads fuel o w)).
Proof.
  intros Hin Hinv. destruct o as [r|x]; unfold finalize.
  - apply collect_ref_preserves; auto.
    + intros w0 Hd0. apply update_disposed. exact Hd0.
    + intros w0 Hd0 Hb0. apply (counted_release fuel (ref_path r) w0 Hd0 Hb0).
  - unfold collect, AttrProxy.__del__. cbn [snd].
    destruct (temporary x) eqn:Ht.
    + destruct (disposed w) eqn:Hd.
      * unfold Transport.decrement_ref_count. rewrite update_disposed by exact Hd.
        intros Hd'. cbn in Hd'. congruence.
      * apply counted_release; [exact Hd|].
        apply free_balance; auto. cbn. rewrite Ht, String.eqb_refl. reflexivity.
    + cbn. apply free_idle; auto. intros q. cbn. rewrite Ht. reflexivity.
Qed.
End Collecting.

Section Reachable.
Variable json_loads : string -> exn + pyval.

(** What [__getattr__] and [eval] do with the value of [Transport.get]. *)
Lemma wrap_and_drop_preserves fuel self (d : decoded) (w : World) :
  (forall r, d = DRef r -> ORef r ∈ heap w) -> invariant w ->
  invariant (snd ((value <- AttrProxy._value_from_transport_response
                              json_loads fuel self d ;;
                   Transport.drop json_loads fuel d ;;;
                   ret value) w)).
Proof.
  intros Hlive Hinv. destruct d as [v|r]; [exact Hinv|].
  unfold AttrProxy._value_from_transport_response.
  destruct (proxy_init_live json_loads fuel (ref_path r) (ref_temporary r) w Hinv)
    as (w2 & E & Hh & _ & Hinv2).
  unfold bind at 1. unfold bind at 1. rewrite E. unfold ret at 1.
  unfold bind at 1.
  pose proof (drop_preserves json_loads fuel (DRef r) w2) as X.
  destruct (Transport.drop json_loads fuel (DRef r) w2) as [[e|[]] w3];
    cbn [snd] in *; apply X; auto;
    intros r' Hr'; inversion Hr'; subst; rewrite Hh; right; apply Hlive; reflexivity.
Qed.

Lemma get_live fuel attribute_path w :
  invariant w ->
  invariant (snd (Transport.get json_loads fuel attribute_path w))
  /\ forall r, fst (Transport.get json_loads fuel attribute_path w) = inr (DRef r) ->
               ORef r ∈ heap (snd (Transport.get json_loads fuel attribute_path w)).
Proof.
  intros Hinv. unfold Transport.get, Transport.Body.get, Transport.Body._http_get.
  unfold bind, get_world.
  destruct (send_live json_loads fuel "GET" (baseUrl w ++ attribute_path)%string None
              Transport._create_http_headers w Hinv) as (H1 & _ & H2).
  split; assumption.
Qed.

Lemma resolve_preserves fuel self attribute_path :
  preserves (response <- Transport.get json_loads fuel attribute_path ;;
             value <- AttrProxy._value_from_transport_response
                        json_loads fuel self response ;;
             Transport.drop json_loads fuel response ;;;
             ret value).
Proof.
  intros w Hinv. destruct (get_live fuel attribute_path w Hinv) as [H1 H2].
  unfold bind at 1.
  destruct (Transport.get json_loads fuel attribute_path w) as [[e|d] w1];
    cbn [fst snd] in *; [exact H1|].
  apply wrap_and_drop_preserves; [|exact H1].
  intros r ->. apply H2. reflexivity.
Qed.

Lemma getattr_preserves fuel self name :
  preserves (AttrProxy.__getattr__ json_loads fuel self name).
Proof.
  unfold AttrProxy.__getattr__. destruct (String.eqb (lower name) "count").
  - apply resolve_preserves.
  - apply preserves_bind; [apply proxy_init_preserves|intros; apply preserves_ret].
Qed.

Lemma eval_preserves fuel self :
  preserves (AttrProxy.eval json_loads fuel self).
Proof. unfold AttrProxy.eval. apply resolve_preserves. Qed.

(** A shutdown that returns leaves the flag set. *)
Lemma close_returns_disposed fuel w w' :
  Transport.close json_loads fuel w = (inr tt, w') -> disposed w' = true.
Proof.
  unfold Transport.close, bind, get_world.
  destruct (disposed w) eqn:Hd; cbn [negb]; unfold ret, modify.
  - intros H. inversion H. subst. exact Hd.
  - destruct (Transport.release_refs json_loads fuel
                (Transport.keys (temporary_references w)) w) as [[e|[]] w1];
      [discriminate|].
    destruct (Transport.connection_close w1) as [[e|[]] w2]; [discriminate|].
    intros H. inversion H. reflexivity.
Qed.

Lemma step_invariant w w' :
  step json_loads w w' -> invariant w -> invariant w'.
Proof.
  intros Hs Hinv. destruct Hs.
  - apply proxy_init_preserves, Hinv.
  - apply ref_init_preserves, Hinv.
  - apply finalize_preserves; assumption.
  - apply send_preserves, Hinv.
  - apply getattr_preserves, Hinv.
  - apply proxy_init_preserves, Hinv.
  - apply eval_preserves, Hinv.
  - intros Hd. apply close_returns_disposed in H. congruence.
Qed.

End Reachable.

(** ** The operations that keep the balance *)

Lemma holders_remove_idle (o : obj) (h : list obj) (q : string) :
  (forall p, holds o p = false) -> holders (remove_one o h) q = holders h q.
Proof.
  intros Hidle. induction h as [|o' h IH]; [reflexivity|].
  cbn. destruct (decide (o = o')) as [<-|Hne].
  - rewrite Hidle. lia.
  - cbn. rewrite IH. reflexivity.
Qed.

Lemma free_idle_any (o : obj) (w : World) :
  (forall p, holds o p = false) -> invariant w -> invariant (free o w).
Proof.
  intros Hidle Hinv Hd q. cbn. rewrite holders_remove_idle by exact Hidle.
  apply (Hinv Hd).
Qed.

Lemma idle_ref_holds (p : string) (q : string) :
  holds (ORef (mkAttrRef p false None)) q = false.
Proof. reflexivity. Qed.

Section ApiBalance.
Variable json_loads : string -> exn + pyval.
Variable json_dumps : pyval -> string.

Lemma convert_effect fuel value w :
  AttrProxy._value_for_transport_request json_loads fuel value w
  = (inr (converted value),
     match value with
     | GProxy p => allocate (ORef (mkAttrRef (path p) false None)) w
     | _ => w
     end).
Proof. destruct value; reflexivity. Qed.

Lemma convert_all_effect fuel args :
  forall w,
    AttrProxy.convert_all json_loads fuel args w
    = (inr (map converted args), set_heap (rev (conversions args) ++ heap w) w).
Proof.
  induction args as [|a rest IH]; intros w.
  - cbn. destruct w; reflexivity.
  - cbn [AttrProxy.convert_all]. unfold bind at 1. rewrite convert_effect.
    unfold bind at 1. rewrite IH. cbn [ret map].
    destruct a; cbn [conversions]; try reflexivity.
    f_equal. unfold set_heap, allocate. cbn. f_equal.
    rewrite <- app_assoc. reflexivity.
Qed.

Lemma set_heap_idle (created : list obj) (w : World) :
  (forall o, o ∈ created -> forall p, holds o p = false) ->
  invariant w -> invariant (set_heap (created ++ heap w) w).
Proof.
  intros Hidle Hinv Hd q. cbn. rewrite (Hinv Hd q).
  induction created as [|o rest IH]; [reflexivity|].
  cbn. rewrite (Hidle o) by left. rewrite <- IH; [lia| |exact Hd].
  intros o' Ho'. apply Hidle. right. exact Ho'.
Qed.

Lemma conversions_idle args o : o ∈ conversions args -> forall p, holds o p = false.
Proof.
  induction args as [|a rest IH]; cbn; [intros H; inversion H|].
  destruct a; auto. intros H. apply elem_of_cons in H as [->|H]; [reflexivity|auto].
Qed.

Lemma forget_preserves fuel value :
  preserves (AttrProxy.forget json_loads fuel value (converted value)).
Proof.
  intros w Hinv. destruct value; cbn; try exact Hinv.
  apply free_idle_any; [apply idle_ref_holds|exact Hinv].
Qed.

Lemma forget_all_preserves fuel args :
  preserves (AttrProxy.forget_all json_loads fuel args (map converted args)).
Proof.
  induction args as [|a rest IH]; [apply preserves_ret|].
  cbn [AttrProxy.forget_all map].
  apply preserves_bind; [apply forget_preserves|]. intros _. exact IH.
Qed.

Lemma set_preserves fuel attribute_path value :
  preserves (Transport.set json_loads fuel json_dumps attribute_path value).
Proof.
  intros w Hinv. unfold Transport.set, Transport.Body.set.
  unfold bind at 1. unfold get_world at 1. unfold bind at 1, lift.
  destruct (Transport._encode json_dumps value) as [e|body]; [exact Hinv|].
  unfold bind, Transport.Body._http_post.
  change (Transport.Body._send_http_request json_loads
            (Transport._update_ref_count json_loads fuel))
    with (Transport._send_http_request json_loads fuel).
  match goal with
  | |- context [Transport._send_http_request json_loads fuel ?m ?u ?b ?h w] =>
      destruct (send_live json_loads fuel m u b h w Hinv) as (H1 & _ & H2);
      destruct (Transport._send_http_request json_loads fuel m u b h w) as [[e|d] w1]
  end; cbn [fst snd] in *; [exact H1|].
  apply (drop_preserves json_loads fuel d w1); [|exact H1].
  intros r ->. apply H2. reflexivity.
Qed.

Lemma invoke_live fuel attribute_path arguments w :
  invariant w ->
  invariant (snd (Transport.invoke json_loads fuel json_dumps attribute_path arguments w))
  /\ forall r,
       fst (Transport.invoke json_loads fuel json_dumps attribute_path arguments w)
       = inr (DRef r) ->
       ORef r ∈ heap (snd (Transport.invoke json_loads fuel json_dumps
                             attribute_path arguments w)).
Proof.
  intros Hinv. unfold Transport.invoke, Transport.Body.invoke.
  unfold bind at 1 3 5. unfold get_world. unfold bind, lift.
  destruct (Transport.encode_all json_dumps arguments) as [e|encoded].
  - split; [exact Hinv|]. discriminate.
  - unfold Transport.Body._http_post.
    match goal with
    | |- context [Transport.Body._send_http_request json_loads _ ?m ?u ?b ?h w] =>
        destruct (send_live json_loads fuel m u b h w Hinv) as (H1 & _ & H2)
    end.
    split; assumption.
Qed.

Lemma setattr_preserves fuel self name value :
  preserves (AttrProxy.__setattr__ json_loads fuel json_dumps self name value).
Proof.
  intros w Hinv. unfold AttrProxy.__setattr__.
  unfold bind at 1. rewrite convert_effect.
  assert (Hinv1 : invariant (match value with
                             | GProxy p => allocate (ORef (mkAttrRef (path p) false None)) w
                             | _ => w
                             end)).
  { destruct value; exact Hinv. }
  revert Hinv1.
  apply (preserves_bind (Transport.set json_loads fuel json_dumps _ _)
           (fun _ => AttrProxy.forget json_loads fuel value (converted value))).
  - apply set_preserves.
  - intros _. apply forget_preserves.
Qed.

Lemma call_preserves fuel self args :
  preserves (AttrProxy.__call__ json_loads fuel json_dumps self args).
Proof.
  intros w Hinv. unfold AttrProxy.__call__.
  unfold bind at 1. rewrite convert_all_effect.
  assert (Hinv1 : invariant (set_heap (rev (conversions args) ++ heap w) w)).
  { apply set_heap_idle; [|exact Hinv].
    intros o Ho. apply conversions_idle with (args := args).
    apply list_elem_of_In, in_rev, list_elem_of_In. exact Ho. }
  destruct (invoke_live fuel (path self) (map converted args) _ Hinv1) as [H1 H2].
  unfold bind at 1.
  destruct (Transport.invoke json_loads fuel json_dumps (path self) (map converted args) _)
    as [[e|d] w1]; cbn [fst snd] in *; [exact H1|].
  pose proof (wrap_and_drop_preserves json_loads fuel self d w1) as X.
  assert (Hlive : forall r, d = DRef r -> ORef r ∈ heap w1)
    by (intros r ->; apply H2; reflexivity).
  specialize (X Hlive H1).
  unfold bind at 1. unfold bind at 1 in X.
  destruct (AttrProxy._value_from_transport_response json_loads fuel self d w1)
    as [[e|value] w2]; [exact X|].
  unfold bind at 1. unfold bind at 1 in X.
  destruct (Transport.drop json_loads fuel d w2) as [[e|[]] w3]; [exact X|].
  cbn [snd ret] in X.
  revert X.
  apply (preserves_bind (AttrProxy.forget_all json_loads fuel args (map converted args))
           (fun _ => ret value)).
  - apply forget_all_preserves.
  - intros _. apply preserves_ret.
Qed.

Lemma items_preserves fuel self indices :
  preserves (AttrProxy.items json_loads fuel self indices).
Proof.
  induction indices as [|i rest IH]; [apply preserves_ret|].
  cbn [AttrProxy.items].
  apply preserves_bind; [apply proxy_init_preserves|]. intros p.
  apply preserves_bind; [exact IH|]. intros ps. apply preserves_ret.
Qed.

Lemma remove_one_keeps (o o' : obj) (h : list obj) :
  o <> o' -> o' ∈ h -> o' ∈ remove_one o h.
Proof.
  intros Hne. induction h as [|x h IH]; intros Hin; [inversion Hin|].
  cbn. destruct (decide (o = x)) as [<-|Hx].
  - apply elem_of_cons in Hin as [Hin|Hin]; [congruence|exact Hin].
  - apply elem_of_cons in Hin as [->|Hin]; [left|right; apply IH, Hin].
Qed.

(** Dropping the reference of a response leaves the proxies alive. *)
Lemma drop_keeps_proxies fuel d p w :
  OProxy p ∈ heap w -> OProxy p ∈ heap (snd (Transport.drop json_loads fuel d w)).
Proof.
  apply (frame_drop json_loads (fun w w' => OProxy p ∈ heap w -> OProxy p ∈ heap w'));
    try (intros; cbn; auto; fail).
  - intros o w0 H. cbn. right. exact H.
  - intros r w0 H. cbn. apply remove_one_keeps; [discriminate|exact H].
Qed.

(** The proxy a resolving access returns is alive. *)
Lemma resolve_live fuel self attribute_path w p w' :
  invariant w ->
  (response <- Transport.get json_loads fuel attribute_path ;;
   value <- AttrProxy._value_from_transport_response json_loads fuel self response ;;
   Transport.drop json_loads fuel response ;;;
   ret value) w = (inr (RProxy p), w') ->
  OProxy p ∈ heap w'.
Proof.
  intros Hinv H. destruct (get_live json_loads fuel attribute_path w Hinv) as [H1 _].
  unfold bind at 1 in H.
  destruct (Transport.get json_loads fuel attribute_path w) as [[e|d] w1];
    cbn [fst snd] in *; [discriminate|].
  destruct d as [v|r]; [discriminate|].
  unfold AttrProxy._value_from_transport_response in H.
  destruct (proxy_init_live json_loads fuel (ref_path r) (ref_temporary r) w1 H1)
    as (w2 & E & Hh & _ & _).
  unfold bind at 1 in H. unfold bind at 1 in H. rewrite E in H. unfold ret at 1 in H.
  unfold bind at 1 in H.
  pose proof (drop_keeps_proxies fuel (DRef r)
                (mkAttrProxy (ref_path r) (ref_temporary r)) w2) as X.
  destruct (Transport.drop json_loads fuel (DRef r) w2) as [[e|[]] w3];
    cbn [fst snd ret] in *; [discriminate|].
  inversion H; subst. apply X. rewrite Hh. left.
Qed.

Lemma iter_preserves fuel self : preserves (AttrProxy.__iter__ json_loads fuel self).
Proof.
  intros w Hinv. unfold AttrProxy.__iter__, AttrProxy.__getattr__.
  change (String.eqb (lower "count") "count") with true. cbv iota.
  pose proof (resolve_preserves json_loads fuel self (path self ++ "." ++ "count")%string
                w Hinv) as H1.
  pose proof (resolve_live fuel self (path self ++ "." ++ "count")%string w) as H2.
  unfold bind at 1.
  match goal with
  | |- context [match ?m w with _ => _ end] => destruct (m w) as [[e|count] w1]
  end; cbn [fst snd] in *; [exact H1|].
  destruct count as [v|p].
  - destruct v; try exact H1; apply items_preserves, H1.
  - unfold bind.
    pose proof (finalize_preserves json_loads fuel (OProxy p) w1
                  (H2 p w1 Hinv eq_refl) H1) as X.
    unfold finalize in X.
    destruct (collect (AttrProxy.__del__ json_loads fuel p) (OProxy p) w1) as [[e|[]] w2];
      exact X.
Qed.
Lemma orderly_step_invariant w w' :
  orderly_step json_loads json_dumps w w' -> invariant w -> invariant w'.
Proof.
  intros Hs Hinv. destruct Hs.
  - eapply step_invariant; eassumption.
  - apply get_live, Hinv.
  - unfold Transport.get_ref_count, Transport.Body.get_ref_count, Transport.Body._http_get.
    unfold bind, get_world. apply (send_preserves json_loads fuel), Hinv.
  - apply set_preserves, Hinv.
  - apply invoke_live, Hinv.
  - unfold AttrProxy.getattr. destruct (AttrProxy.found object_has name); [exact Hinv|].
    unfold bind.
    pose proof (getattr_preserves json_loads fuel self name w Hinv) as X.
    destruct (AttrProxy.__getattr__ json_loads fuel self name w) as [[e|r] w1]; exact X.
  - apply setattr_preserves, Hinv.
  - apply call_preserves, Hinv.
  - apply iter_preserves, Hinv.
Qed.

Lemma orderly_invariant w : orderly json_loads json_dumps w -> invariant w.
Proof.
  induction 1 as [host port peer|w w' _ IH Hs].
  - intros _ q. reflexivity.
  - eapply orderly_step_invariant; eassumption.
Qed.
End ApiBalance.

(** ** Construction and destruction of temporary holders *)

Lemma decrement_effect json_loads fuel (p : string) (c : Z) (w : World) :
  disposed w = false -> temporary_references w !! p = Some c ->
  Transport.decrement_ref_count json_loads (S fuel) p w
  = (if decide (c = 1) then release_post json_loads fuel [p] else ret tt)
      (set_table (lowered (temporary_references w) p c) w).
Proof.
  intros Hd Hc. unfold Transport.decrement_ref_count, lowered.
  destruct (decide (c = 1)) as [->|Hne].
  - apply update_decrement_to_zero; assumption.
  - rewrite (update_present_nonzero json_loads (S fuel) p false c w Hd Hc) by (cbn; lia).
    reflexivity.
Qed.

Lemma count_of_lowered t p c : count_of (lowered t p c) p = c - 1.
Proof.
  unfold lowered. destruct (decide (c = 1)) as [->|Hne].
  - rewrite count_of_delete, decide_True; reflexivity.
  - rewrite count_of_insert, decide_True; reflexivity.
Qed.

(** C1.  On a transport that is not disposed: building an [AttrProxy] or an
    [AttrRef] with [temporary] true registers the object and raises the
    count of its path by exactly one, sending nothing; its [__del__] lowers
    the count by exactly one, taking the entry out and sending the release
    request when the count reaches 0; building or destroying one with
    [temporary] false leaves the table alone.  Hence, in every store a
    program reaches by the operations of the client other than a [close]
    that raises and calls of [release_refs], [increment_ref_count] and
    [decrement_ref_count] from outside the class, and while the transport
    is not disposed, the path of a live temporary holder is in the table
    with a count of at least 1, namely the number of its live holders. *)
Theorem temporary_holder_counts (json_loads : string -> exn + pyval)
        (json_dumps : pyval -> string) (fuel : nat) (p : string) :
  (forall w, disposed w = false -> 0 <= count_of (temporary_references w) p ->
     AttrProxy.__init__ json_loads fuel p true w
     = (inr (mkAttrProxy p true),
        set_table (<[p := count_of (temporary_references w) p + 1]>
                     (temporary_references w))
                  (allocate (OProxy (mkAttrProxy p true)) w))
     /\ AttrRef.__init__ (Transport.increment_ref_count json_loads fuel) p true (Some tt) w
        = (inr (mkAttrRef p true (Some tt)),
           set_table (<[p := count_of (temporary_references w) p + 1]>
                        (temporary_references w))
                     (allocate (ORef (mkAttrRef p true (Some tt))) w)))
  /\ (forall w c, disposed w = false -> temporary_references w !! p = Some c ->
        count_of (lowered (temporary_references w) p c) p = c - 1
        /\ AttrProxy.__del__ json_loads (S fuel) (mkAttrProxy p true) w
           = (if decide (c = 1) then release_post json_loads fuel [p] else ret tt)
               (set_table (lowered (temporary_references w) p c) w)
        /\ AttrRef.__del__ (Transport.decrement_ref_count json_loads (S fuel))
                           (mkAttrRef p true (Some tt)) w
           = (if decide (c = 1) then release_post json_loads fuel [p] else ret tt)
               (set_table (lowered (temporary_references w) p c) w))
  /\ (forall w h,
        AttrProxy.__init__ json_loads fuel p false w
        = (inr (mkAttrProxy p false), allocate (OProxy (mkAttrProxy p false)) w)
        /\ AttrRef.__init__ (Transport.increment_ref_count json_loads fuel) p false h w
           = (inr (mkAttrRef p false h), allocate (ORef (mkAttrRef p false h)) w)
        /\ AttrProxy.__del__ json_loads fuel (mkAttrProxy p false) w = (inr tt, w)
        /\ AttrRef.__del__ (Transport.decrement_ref_count json_loads fuel)
                           (mkAttrRef p false h) w = (inr tt, w))
  /\ (forall w o, orderly json_loads json_dumps w -> disposed w = false ->
        o ∈ heap w -> holds o p = true ->
        exists c, temporary_references w !! p = Some c
                  /\ 1 <= c /\ c = holders (heap w) p).
Proof.
  repeat split.
  - unfold AttrProxy.__init__. run. rewrite increment_effect by assumption.
    reflexivity.
  - unfold AttrRef.__init__. run. cbn [AttrRef.tracked ref_transport ref_temporary].
    rewrite increment_effect by assumption. reflexivity.
  - apply count_of_lowered.
  - unfold AttrProxy.__del__. cbn [temporary path].
    apply decrement_effect; assumption.
  - unfold AttrRef.__del__. cbn [AttrRef.tracked ref_transport ref_temporary ref_path].
    apply decrement_effect; assumption.
  - unfold AttrRef.__init__. run. cbn [AttrRef.tracked ref_transport ref_temporary].
    destruct h; reflexivity.
  - unfold AttrRef.__del__. cbn [AttrRef.tracked ref_transport ref_temporary].
    destruct h; reflexivity.
  - intros w o Hr Hd Hin Hh.
    pose proof (orderly_invariant json_loads json_dumps w Hr Hd p) as Hbal.
    pose proof (holders_member o (heap w) p Hin Hh) as Hone.
    unfold count_of in Hbal.
    destruct (temporary_references w !! p) as [c|]; cbn in Hbal.
    + exists c. split; [reflexivity|]. split; lia.
    + lia.
Qed.

(** ** The release request *)

(** The release request raises, or returns with nothing to drop, or its
    response carried a reference, which is built and at once collected. *)
Lemma release_post_cases json_loads fuel paths w :
  exists w1,
    wire_only w w1
    /\ (forall c, connection w = Some c ->
          exists rest,
            trace w1 = trace w
                       ++ EvRequest c "POST"
                            (baseUrl w ++ "workspace/references/release")%string
                            (Some (Transport.release_body paths))
                            Transport._create_http_headers :: rest)
    /\ ((exists e, release_post json_loads fuel paths w = (inl e, w1))
        \/ release_post json_loads fuel paths w = (inr tt, w1)
        \/ (exists q, release_post json_loads fuel paths w
                      = (dropped <- new_ref (Transport._update_ref_count json_loads fuel) q ;;
                         Transport.drop json_loads fuel dropped) w1)).
Proof.
  destruct (send_cases json_loads (Transport._update_ref_count json_loads fuel)
              "POST" (baseUrl w ++ "workspace/references/release")%string
              (Some (Transport.release_body paths)) Transport._create_http_headers w)
    as (w1 & W1 & T1 & Hc).
  exists w1. split; [exact W1|]. split; [exact T1|].
  unfold release_post, Transport._http_post, Transport.Body._http_post.
  unfold bind at 1 3 5. unfold get_world.
  unfold bind at 1 2 3.
  destruct Hc as [[e ->]|[[v ->]|[q ->]]].
  - left. eexists. reflexivity.
  - right. left. reflexivity.
  - right. right. exists q. reflexivity.
Qed.

(** C2.  On a transport that is not disposed, an increment of a path that
    is not in the table puts it there with count 1.  A decrement that brings
    the count of [p] to exactly 0 takes the entry out and at once sends the
    release request whose body names [p] alone: it is the first thing done
    on the connection, the table is without [p] during all of its traffic,
    and only a reference that the response carries is dealt with
    afterwards. *)
Theorem absent_increment_and_release_at_zero
        (json_loads : string -> exn + pyval) (fuel : nat) (p : string) (w : World) :
  disposed w = false ->
  (temporary_references w !! p = None ->
     Transport.increment_ref_count json_loads fuel p w
     = (inr tt, set_table (<[p := 1]> (temporary_references w)) w))
  /\ (forall c, temporary_references w !! p = Some c -> c - 1 = 0 ->
        Transport.decrement_ref_count json_loads (S fuel) p w
        = release_post json_loads fuel [p]
            (set_table (delete p (temporary_references w)) w)
        /\ Transport.release_body [p] = ("[" ++ (dquote ++ p ++ dquote) ++ "]")%string
        /\ exists w1,
             temporary_references w1 = delete p (temporary_references w)
             /\ temporary_references w1 !! p = None
             /\ (forall conn, connection w = Some conn ->
                   exists rest,
                     trace w1 = trace w
                                ++ EvRequest conn "POST"
                                     (baseUrl w ++ "workspace/references/release")%string
                                     (Some (Transport.release_body [p]))
                                     Transport._create_http_headers :: rest)
             /\ ((exists e, Transport.decrement_ref_count json_loads (S fuel) p w
                            = (inl e, w1))
                 \/ Transport.decrement_ref_count json_loads (S fuel) p w = (inr tt, w1)
                 \/ (exists q, Transport.decrement_ref_count json_loads (S fuel) p w
                               = (dropped <- new_ref (Transport._update_ref_count
                                                        json_loads fuel) q ;;
                                  Transport.drop json_loads fuel dropped) w1))).
Proof.
  intros Hd. split.
  - intros Hn. apply update_absent_increment; assumption.
  - intros c Hc Hz. assert (c = 1) as -> by lia.
    assert (E : Transport.decrement_ref_count json_loads (S fuel) p w
                = release_post json_loads fuel [p]
                    (set_table (delete p (temporary_references w)) w))
      by (apply update_decrement_to_zero; assumption).
    split; [exact E|]. split; [reflexivity|].
    destruct (release_post_cases json_loads fuel [p]
                (set_table (delete p (temporary_references w)) w))
      as (w1 & W1 & T1 & Hcases).
    exists w1. destruct W1 as [_ Ht _ _ _ _]. cbn in Ht.
    split; [exact Ht|]. split; [rewrite Ht; apply dict_lookup_delete_eq|].
    split; [exact T1|]. rewrite E. exact Hcases.
Qed.

(** C3.  On a transport that is not disposed, a decrement of a path that is
    not in the table raises a [ClientException] with code
    [InvalidOperation], and the store is as before. *)
Theorem decrement_absent_raises
        (json_loads : string -> exn + pyval) (fuel : nat) (p : string) (w : World) :
  disposed w = false -> temporary_references w !! p = None ->
  Transport.decrement_ref_count json_loads fuel p w
  = (inl (ClientException.__init__
            (PStr ("Cannot decrement count for " ++ p ++
                   " because it was not found in the reference map.")%string)
            (PStr ClientExceptionCodes.INVALID_OPERATION)), w).
Proof.
  intros Hd Hn. apply update_absent_decrement; assumption.
Qed.

(** C6.  Once the transport is disposed, every increment and every
    decrement returns without an error and leaves the store, and so the
    table, as it was. *)
Theorem disposed_counts_are_noops
        (json_loads : string -> exn + pyval) (fuel : nat) (p : string) (w : World) :
  disposed w = true ->
  Transport.increment_ref_count json_loads fuel p w = (inr tt, w)
  /\ Transport.decrement_ref_count json_loads fuel p w = (inr tt, w).
Proof.
  intros Hd. split; apply update_disposed; exact Hd.
Qed.

(** ** Decoding a response body *)

Section Decoding.
Variable json_loads : string -> exn + pyval.
Variable fuel : nat.

Lemma decode_empty w :
  Transport._decode json_loads fuel EmptyString w = (inr (DVal (PStr EmptyString)), w).
Proof. reflexivity. Qed.

Lemma decode_scalar message v w :
  message <> EmptyString -> json_loads message = inr v -> is_scalar v = true ->
  Transport._decode json_loads fuel message w = (inr (DVal v), w).
Proof.
  intros Hne Hl Hs. apply String.eqb_neq in Hne.
  unfold Transport._decode, Transport.Body._decode. rewrite Hne. run.
  rewrite Hl, Hs. reflexivity.
Qed.

Lemma decode_dict message members data_type w :
  message <> EmptyString -> json_loads message = inr (PDict members) ->
  dict_get members "type" = Some data_type ->
  Transport._decode json_loads fuel message w
  = (if py_eq_str data_type "ref" then
       match dict_get members "path" with
       | None => raise (KeyError "path")
       | Some (PStr temp_ref_path) =>
           new_ref (Transport._update_ref_count json_loads fuel) temp_ref_path
       | Some _ => raise Unmodelled
       end
     else if py_eq_str data_type "error" then
       match dict_get members "code", dict_get members "message" with
       | None, _ => raise (KeyError "code")
       | Some _, None => raise (KeyError "message")
       | Some error_code, Some error_message =>
           raise (ClientException_ error_message error_code)
       end
     else
       raise (ClientException_
                (PStr ("Unable to deserialize response '" ++ message ++ "'.")%string)
                (PStr "SerializationError"))) w.
Proof.
  intros Hne Hl Ht. apply String.eqb_neq in Hne.
  unfold Transport._decode, Transport.Body._decode. rewrite Hne. run.
  rewrite Hl. cbn [is_scalar]. rewrite Ht.
  destruct (py_eq_str data_type "ref").
  - destruct (dict_get members "path") as [[]|]; reflexivity.
  - destruct (py_eq_str data_type "error"); [|reflexivity].
    destruct (dict_get members "code"); [|reflexivity].
    destruct (dict_get members "message"); reflexivity.
Qed.

(** A reference in the response becomes a temporary [AttrRef] on its
    path, counted in the table. *)
Lemma decode_ref message members q w :
  message <> EmptyString -> json_loads message = inr (PDict members) ->
  dict_get members "type" = Some (PStr "ref") ->
  dict_get members "path" = Some (PStr q) ->
  disposed w = false -> 0 <= count_of (temporary_references w) q ->
  Transport._decode json_loads fuel message w
  = (inr (DRef (mkAttrRef q true (Some tt))),
     set_table (<[q := count_of (temporary_references w) q + 1]>
                  (temporary_references w))
               (allocate (ORef (mkAttrRef q true (Some tt))) w)).
Proof.
  intros Hne Hl Ht Hp Hd Hc.
  rewrite (decode_dict message members (PStr "ref") w Hne Hl Ht). cbn [py_eq_str].
  cbn. rewrite Hp. unfold new_ref, AttrRef.__init__. run.
  cbn [AttrRef.tracked ref_transport ref_temporary].
  pose proof (increment_effect json_loads fuel q
                (allocate (ORef (mkAttrRef q true (Some tt))) w) Hd Hc) as E.
  unfold Transport.increment_ref_count in E. rewrite E. reflexivity.
Qed.

(** C7 (what the code does where the specification promises a
    [SerializationError]).  A body that is the JSON [null], a JSON array,
    or a JSON object without a ["type"] member raises [TypeError] or
    [KeyError]; no [ClientException] is raised for it. *)
Theorem decode_untagged_shapes message w :
  message <> EmptyString ->
  (json_loads message = inr PNone ->
     Transport._decode json_loads fuel message w = (inl TypeError, w))
  /\ (forall items, json_loads message = inr (PList items) ->
        Transport._decode json_loads fuel message w = (inl TypeError, w))
  /\ (forall members, json_loads message = inr (PDict members) ->
        dict_get members "type" = None ->
        Transport._decode json_loads fuel message w = (inl (KeyError "type"), w)).
Proof.
  intros Hne. apply String.eqb_neq in Hne.
  unfold Transport._decode, Transport.Body._decode. rewrite Hne. run.
  repeat split.
  - intros ->. reflexivity.
  - intros items ->. reflexivity.
  - intros members -> Hn. cbn [is_scalar]. rewrite Hn. reflexivity.
Qed.

End Decoding.

(** Given the status as text, [create_from_http_status] does derive the
    code from it. *)
Lemma create_from_text_status (status_code : string) (message : pyval) :
  ClientException.create_from_http_status (PStr status_code) message
  = inr (ClientException_ message (PStr ("HTTP" ++ status_code)%string)).
Proof. reflexivity. Qed.

(** ** Submitting a request *)

Section Submission.
Variable json_loads : string -> exn + pyval.
Variable fuel : nat.
Variables (method url : string) (body : option string) (h : headers).

Lemma request_effect c w :
  connection w = Some c ->
  Transport.connection_request method url body h w
  = (match wire w (sent w) with
     | ReqRaises e => inl e
     | _ => inr tt
     end, after_request c method url body h w).
Proof.
  intros Hc. unfold Transport.connection_request. run. rewrite Hc.
  destruct (wire w (sent w)); reflexivity.
Qed.

Lemma reset_effect c w :
  connection w = Some c ->
  Transport._reset_connection w = (inr tt, after_reset c w).
Proof.
  intros Hc. unfold Transport._reset_connection. run. rewrite Hc. cbn.
  unfold after_reset. cbn. rewrite <- app_assoc. reflexivity.
Qed.

Lemma send_unfold w :
  Transport._send_http_request json_loads fuel method url body h w
  = (try_aborted (Transport.connection_request method url body h)
       (Transport._reset_connection ;;;
        Transport.connection_request method url body h) ;;;
     await json_loads fuel) w.
Proof. reflexivity. Qed.

Lemma send_first_try_fails c e w :
  connection w = Some c -> wire w (sent w) = ReqRaises e ->
  e <> ConnectionAbortedError ->
  Transport._send_http_request json_loads fuel method url body h w
  = (inl e, after_request c method url body h w).
Proof.
  intros Hc Hw He. rewrite send_unfold. unfold bind at 1. unfold try_aborted.
  rewrite (request_effect c w Hc), Hw. destruct e; try reflexivity. congruence.
Qed.

Lemma send_first_try_goes_out c w :
  connection w = Some c -> (forall e, wire w (sent w) <> ReqRaises e) ->
  Transport._send_http_request json_loads fuel method url body h w
  = await json_loads fuel (after_request c method url body h w).
Proof.
  intros Hc Hw. rewrite send_unfold. unfold bind at 1. unfold try_aborted.
  rewrite (request_effect c w Hc).
  destruct (wire w (sent w)) as [e| |]; [destruct (Hw e); reflexivity| |]; reflexivity.
Qed.

Lemma send_aborted c w :
  connection w = Some c -> wire w (sent w) = ReqRaises ConnectionAbortedError ->
  let w2 := after_request (opened w) method url body h
              (after_reset c (after_request c method url body h w)) in
  (forall e, wire w (S (sent w)) = ReqRaises e ->
     Transport._send_http_request json_loads fuel method url body h w = (inl e, w2))
  /\ ((forall e, wire w (S (sent w)) <> ReqRaises e) ->
      Transport._send_http_request json_loads fuel method url body h w
      = await json_loads fuel w2).
Proof.
  intros Hc Hw w2.
  assert (E : Transport._send_http_request json_loads fuel method url body h w
              = match wire w (S (sent w)) with
                | ReqRaises e => (inl e, w2)
                | _ => await json_loads fuel w2
                end).
  { rewrite send_unfold. unfold bind at 1. unfold try_aborted.
    rewrite (request_effect c w Hc), Hw. unfold bind.
    rewrite (reset_effect c (after_request c method url body h w)) by exact Hc.
    rewrite (request_effect (opened w)) by reflexivity.
    cbn [wire sent after_reset after_request].
    destruct (wire w (S (sent w))); reflexivity. }
  split.
  - intros e He. rewrite E, He. reflexivity.
  - intros Hne. rewrite E.
    destruct (wire w (S (sent w))) as [e| |]; [destruct (Hne e)|  |]; reflexivity.
Qed.

(** C9.  When the first submission of a request raises
    [ConnectionAbortedError], the connection is closed and replaced and
    the same request is submitted once more, and that is all: what the
    second submission raises is raised to the caller.  Any other error of
    the first submission is raised to the caller with nothing submitted
    again. *)
Theorem abort_is_retried_once c w :
  connection w = Some c ->
  (forall e, wire w (sent w) = ReqRaises e -> e <> ConnectionAbortedError ->
     Transport._send_http_request json_loads fuel method url body h w
     = (inl e, after_request c method url body h w)
     /\ trace (after_request c method url body h w)
        = trace w ++ sent_once c method url body h)
  /\ (wire w (sent w) = ReqRaises ConnectionAbortedError ->
      let w2 := after_request (opened w) method url body h
                  (after_reset c (after_request c method url body h w)) in
      trace w2 = trace w ++ sent_twice c (opened w) method url body h
      /\ connection w2 = Some (opened w)
      /\ sent w2 = S (S (sent w))
      /\ (forall e, wire w (S (sent w)) = ReqRaises e ->
            Transport._send_http_request json_loads fuel method url body h w
            = (inl e, w2))
      /\ ((forall e, wire w (S (sent w)) <> ReqRaises e) ->
          Transport._send_http_request json_loads fuel method url body h w
          = await json_loads fuel w2)).
Proof.
  intros Hc. split.
  - intros e Hw He. split; [apply send_first_try_fails; assumption|reflexivity].
  - intros Hw w2. split.
    { unfold w2, sent_twice. cbn. rewrite <- !app_assoc. reflexivity. }
    split; [reflexivity|]. split; [reflexivity|].
    apply send_aborted; assumption.
Qed.
End Submission.

(** ** A response with a status other than 200 *)

Lemma non_200_decode json_loads fuel response w :
  status response <> 200 ->
  Transport._decode_http_response json_loads fuel response w = (inl TypeError, w).
Proof.
  intros Hs. apply Z.eqb_neq in Hs.
  unfold Transport._decode_http_response, Transport.Body._decode_http_response.
  rewrite Hs. reflexivity.
Qed.

(** C8 (what the code does where the specification promises a
    [ClientException]).
    The status of a response is an [int], and ["HTTP" + status_code] raises
    [TypeError] for it: [_decode_http_response] raises [TypeError] for every
    response with a status other than 200, and so does every request that
    is answered with one. *)
Theorem non_200_raises_type_error (json_loads : string -> exn + pyval) (fuel : nat) :
  (forall response w, status response <> 200 ->
     Transport._decode_http_response json_loads fuel response w = (inl TypeError, w))
  /\ (forall method url body h c w st rs b,
        connection w = Some c -> wire w (sent w) = Response st rs b -> st <> 200 ->
        Transport._send_http_request json_loads fuel method url body h w
        = (inl TypeError,
           log (EvGetResponse c) (after_request c method url body h w))).
Proof.
  split; [apply non_200_decode|].
  intros method url body h c w st rs b Hc Hw Hs.
  rewrite (send_first_try_goes_out json_loads fuel method url body h c w Hc)
    by (intros e; rewrite Hw; discriminate).
  unfold await, bind, Transport.connection_getresponse. run.
  cbn [connection sent wire after_request]. rewrite Hc, Hw.
  apply non_200_decode. exact Hs.
Qed.

(** ** A request and its answer *)

(** Two stores with the same fields are the same store. *)
Lemma store_ext (w w' : World) :
  baseUrl w = baseUrl w' -> connection w = connection w' ->
  temporary_references w = temporary_references w' -> disposed w = disposed w' ->
  opened w = opened w' -> sent w = sent w' -> wire w = wire w' ->
  trace w = trace w' -> heap w = heap w' -> w = w'.
Proof. destruct w, w'; cbn; intros; subst; reflexivity. Qed.

Ltac store_eq :=
  apply store_ext;
  cbn [baseUrl connection temporary_references disposed opened sent wire trace heap
       set_table set_heap set_disposed free allocate answered log after_request];
  try reflexivity.

Lemma remove_one_skip (o o' : obj) (h : list obj) :
  o <> o' -> remove_one o (o' :: h) = o' :: remove_one o h.
Proof. intros Hne. cbn [remove_one]. rewrite decide_False by exact Hne. reflexivity. Qed.

Section Answered.
Variable json_loads : string -> exn + pyval.
Variable fuel : nat.

Lemma getresponse_effect c w :
  connection w = Some c ->
  Transport.connection_getresponse w
  = (match sent w with
     | O => inl (NetError "ResponseNotReady")
     | S n => match wire w n with
              | ReqRaises _ => inl (NetError "ResponseNotReady")
              | RespRaises e => inl e
              | Response st rs b => inr (mkResponse st rs b)
              end
     end, log (EvGetResponse c) w).
Proof.
  intros Hc. unfold Transport.connection_getresponse. run. rewrite Hc. cbn.
  destruct (sent w) as [|n]; [reflexivity|]. destruct (wire w n); reflexivity.
Qed.

Lemma send_answered method url body h c st rs b w :
  connection w = Some c -> wire w (sent w) = Response st rs b ->
  Transport._send_http_request json_loads fuel method url body h w
  = Transport._decode_http_response json_loads fuel (mkResponse st rs b)
      (answered c method url body h w).
Proof.
  intros Hc Hw.
  rewrite (send_first_try_goes_out json_loads fuel method url body h c w Hc)
    by (intros e; rewrite Hw; discriminate).
  unfold await, bind.
  rewrite (getresponse_effect c) by exact Hc.
  cbn [sent wire after_request]. rewrite Hw. reflexivity.
Qed.

Lemma decode_scalar_body text v w :
  scalar_body json_loads text v ->
  Transport._decode json_loads fuel text w = (inr (DVal v), w).
Proof.
  intros [[-> ->]|(Hne & Hl & Hs)]; [reflexivity|].
  apply decode_scalar; assumption.
Qed.

Lemma send_scalar method url body h c rs text v w :
  connection w = Some c -> wire w (sent w) = Response 200 rs (Some text) ->
  scalar_body json_loads text v ->
  Transport._send_http_request json_loads fuel method url body h w
  = (inr (DVal v), answered c method url body h w).
Proof.
  intros Hc Hw Hb. rewrite (send_answered method url body h c 200 rs (Some text) w Hc Hw).
  unfold Transport._decode_http_response, Transport.Body._decode_http_response.
  cbn [status content Z.eqb Pos.eqb].
  apply (decode_scalar_body text v _ Hb).
Qed.

Lemma send_reference method url body h c rs text q w :
  connection w = Some c -> wire w (sent w) = Response 200 rs (Some text) ->
  reference_body json_loads text q ->
  disposed w = false -> 0 <= count_of (temporary_references w) q ->
  Transport._send_http_request json_loads fuel method url body h w
  = (inr (DRef (mkAttrRef q true (Some tt))),
     set_table (<[q := count_of (temporary_references w) q + 1]> (temporary_references w))
       (allocate (ORef (mkAttrRef q true (Some tt)))
          (answered c method url body h w))).
Proof.
  intros Hc Hw (Hne & members & Hl & Ht & Hp) Hd Hcount.
  rewrite (send_answered method url body h c 200 rs (Some text) w Hc Hw).
  unfold Transport._decode_http_response, Transport.Body._decode_http_response.
  cbn [status content Z.eqb Pos.eqb].
  exact (decode_ref json_loads fuel text members q
           (answered c method url body h w) Hne Hl Ht Hp Hd Hcount).
Qed.

(** A resolving access answered with a scalar. *)
Lemma resolve_scalar self attribute_path c rs text v w :
  connection w = Some c -> wire w (sent w) = Response 200 rs (Some text) ->
  scalar_body json_loads text v ->
  (response <- Transport.get json_loads fuel attribute_path ;;
   value <- AttrProxy._value_from_transport_response json_loads fuel self response ;;
   Transport.drop json_loads fuel response ;;;
   ret value) w
  = (inr (RVal v),
     answered c "GET" (baseUrl w ++ attribute_path)%string None
       [("connection", "keep-alive")%string] w).
Proof.
  intros Hc Hw Hb. unfold Transport.get, Transport.Body.get.
  unfold bind at 1. unfold bind at 1. unfold get_world at 1.
  unfold Transport.Body._http_get.
  change (Transport.Body._send_http_request json_loads
            (Transport._update_ref_count json_loads fuel))
    with (Transport._send_http_request json_loads fuel).
  rewrite (send_scalar "GET" _ None _ c rs text v w Hc Hw Hb).
  reflexivity.
Qed.

(** A resolving access answered with a reference. *)
Lemma resolve_reference self attribute_path c rs text q w :
  connection w = Some c -> wire w (sent w) = Response 200 rs (Some text) ->
  reference_body json_loads text q ->
  disposed w = false -> 0 <= count_of (temporary_references w) q ->
  (response <- Transport.get json_loads fuel attribute_path ;;
   value <- AttrProxy._value_from_transport_response json_loads fuel self response ;;
   Transport.drop json_loads fuel response ;;;
   ret value) w
  = (inr (RProxy (mkAttrProxy q true)),
     set_table (<[q := count_of (temporary_references w) q + 1]> (temporary_references w))
       (allocate (OProxy (mkAttrProxy q true))
          (answered c "GET" (baseUrl w ++ attribute_path)%string None
             [("connection", "keep-alive")%string] w))).
Proof.
  intros Hc Hw Hb Hd Hcount.
  unfold Transport.get, Transport.Body.get.
  unfold bind at 1. unfold bind at 1. unfold get_world at 1.
  unfold Transport.Body._http_get.
  change (Transport.Body._send_http_request json_loads
            (Transport._update_ref_count json_loads fuel))
    with (Transport._send_http_request json_loads fuel).
  rewrite (send_reference "GET" _ None _ c rs text q w Hc Hw Hb Hd Hcount).
  set (n := count_of (temporary_references w) q) in *.
  unfold AttrProxy._value_from_transport_response, AttrProxy.__init__.
  cbn [ref_path ref_temporary].
  unfold bind at 1. unfold bind at 1. unfold bind at 1. unfold modify at 1.
  unfold bind at 1. unfold Transport.increment_ref_count.
  rewrite (update_present_nonzero json_loads fuel q true (n + 1));
    [|exact Hd|cbn; apply dict_lookup_insert_eq|lia].
  cbn [ret]. unfold bind at 1.
  unfold Transport.drop, Transport.Body.drop, collect, AttrRef.__del__.
  cbn [AttrRef.tracked ref_transport ref_temporary ref_path].
  rewrite (update_present_nonzero json_loads fuel q false (n + 1 + 1));
    [|exact Hd|cbn; apply dict_lookup_insert_eq|cbn; lia].
  cbn [snd ret]. f_equal. store_eq.
  - rewrite !dict_insert_insert_eq. f_equal. lia.
  - rewrite remove_one_skip by discriminate. rewrite remove_one_head. reflexivity.
Qed.

(** What follows the submission of a request only adds to the record. *)
Lemma submission_pins {A B} (submit : M unit) (m : M A) (k : A -> M B)
      (first : event) (w : World) :
  keeps later m -> (forall a, keeps later (k a)) ->
  (exists rest, trace (snd (submit w)) = trace w ++ first :: rest) ->
  exists rest, trace (snd ((x <- (submit ;;; m) ;; k x) w)) = trace w ++ first :: rest.
Proof.
  intros Hm Hk [rest Hrest]. unfold bind.
  destruct (submit w) as [[e|[]] wa]; cbn [snd] in *; [eauto|].
  specialize (Hm wa). destruct (m wa) as [[e|a] wb]; cbn [snd] in *.
  - destruct Hm as [more Hmore]. exists (rest ++ more).
    rewrite Hmore, Hrest, <- app_assoc. reflexivity.
  - specialize (Hk a wb). destruct Hm as [m1 H1]. destruct Hk as [m2 H2].
    exists (rest ++ m1 ++ m2). rewrite H2, H1, Hrest, <- !app_assoc. reflexivity.
Qed.

(** A resolving access starts with its request, whatever comes of it. *)
Lemma resolve_pins_request self attribute_path c w :
  connection w = Some c ->
  exists rest,
    trace (snd ((response <- Transport.get json_loads fuel attribute_path ;;
                 value <- AttrProxy._value_from_transport_response
                            json_loads fuel self response ;;
                 Transport.drop json_loads fuel response ;;;
                 ret value) w))
    = trace w ++ EvRequest c "GET" (baseUrl w ++ attribute_path)%string None
                   [("connection", "keep-alive")%string] :: rest.
Proof.
  intros Hc.
  change (exists rest,
    trace (snd ((response <-
                   (try_aborted
                      (Transport.connection_request "GET"
                         (baseUrl w ++ attribute_path)%string None
                         Transport._create_http_headers)
                      (Transport._reset_connection ;;;
                       Transport.connection_request "GET"
                         (baseUrl w ++ attribute_path)%string None
                         Transport._create_http_headers) ;;;
                    await json_loads fuel) ;;
                 value <- AttrProxy._value_from_transport_response
                            json_loads fuel self response ;;
                 Transport.drop json_loads fuel response ;;;
                 ret value) w))
    = trace w ++ EvRequest c "GET" (baseUrl w ++ attribute_path)%string None
                   [("connection", "keep-alive")%string] :: rest).
  apply submission_pins.
  - apply (frame_await json_loads later); later_frame.
  - intros d. apply (keeps_bind later later_trans).
    + apply (frame_wrap json_loads later); later_frame.
    + intros value. apply (keeps_bind later later_trans).
      * apply (frame_drop json_loads later); later_frame.
      * intros _. apply (keeps_ret later later_refl).
  - destruct (submission_wire "GET" (baseUrl w ++ attribute_path)%string None
                Transport._create_http_headers w) as (_ & T1 & _).
    apply (T1 c Hc).
Qed.
End Answered.

(** ** Attribute access *)

Lemma lower_ascii_nat (c : Ascii.ascii) :
  Ascii.nat_of_ascii (lower_ascii c)
  = let n := Ascii.nat_of_ascii c in
    if (Nat.leb 65 n && Nat.leb n 90)%bool then (n + 32)%nat else n.
Proof.
  unfold lower_ascii. cbn zeta.
  destruct (Nat.leb 65 (Ascii.nat_of_ascii c) && Nat.leb (Ascii.nat_of_ascii c) 90)%bool
    eqn:E; [|reflexivity].
  apply andb_true_iff in E as [_ E]. apply Nat.leb_le in E.
  apply Ascii.nat_ascii_embedding. lia.
Qed.

Lemma same_letter_lower (x y : Ascii.ascii) :
  same_letter x y = true <-> lower_ascii x = lower_ascii y.
Proof.
  split.
  - intros H.
    rewrite <- (Ascii.ascii_nat_embedding (lower_ascii x)).
    rewrite <- (Ascii.ascii_nat_embedding (lower_ascii y)).
    f_equal. rewrite !lower_ascii_nat. cbn zeta. unfold same_letter in H.
    repeat match goal with
           | |- context [Nat.leb ?a ?b] => destruct (Nat.leb_spec a b)
           | H : context [Nat.leb ?a ?b] |- _ => destruct (Nat.leb_spec a b)
           | H : context [Nat.eqb ?a ?b] |- _ => destruct (Nat.eqb_spec a b)
           end; cbn in *; try lia; try discriminate.
  - intros H. apply (f_equal Ascii.nat_of_ascii) in H.
    rewrite !lower_ascii_nat in H. cbn zeta in H. unfold same_letter.
    repeat match goal with
           | |- context [Nat.leb ?a ?b] => destruct (Nat.leb_spec a b)
           | |- context [Nat.eqb ?a ?b] => destruct (Nat.eqb_spec a b)
           | H : context [Nat.leb ?a ?b] |- _ => destruct (Nat.leb_spec a b)
           end; cbn in *; try lia; try reflexivity.
Qed.

Lemma caseless_eq_lower (a b : string) :
  caseless_eq a b = true <-> lower a = lower b.
Proof.
  revert b. induction a as [|x a IH]; intros [|y b]; cbn; try (split; congruence).
  rewrite andb_true_iff, same_letter_lower, IH. split.
  - intros [-> ->]. reflexivity.
  - intros H. inversion H. auto.
Qed.

(** The test of [__getattr__] is the case-insensitive comparison. *)
Lemma lower_is_count (name : string) :
  String.eqb (lower name) "count" = caseless_eq name "count".
Proof.
  destruct (caseless_eq name "count") eqn:E.
  - apply caseless_eq_lower in E. rewrite E. reflexivity.
  - apply String.eqb_neq. intros H. apply not_true_iff_false in E. apply E.
    apply caseless_eq_lower. rewrite H. reflexivity.
Qed.

(** A letter that lowers to one of [count] is that letter, in either
    case. *)
Lemma lowers_to_count_letter (a : Ascii.ascii) :
  (lower_ascii a = "c"%char -> a = "c"%char \/ a = "C"%char)
  /\ (lower_ascii a = "o"%char -> a = "o"%char \/ a = "O"%char)
  /\ (lower_ascii a = "u"%char -> a = "u"%char \/ a = "U"%char)
  /\ (lower_ascii a = "n"%char -> a = "n"%char \/ a = "N"%char)
  /\ (lower_ascii a = "t"%char -> a = "t"%char \/ a = "T"%char).
Proof.
  destruct a as [[] [] [] [] [] [] [] []]; repeat split; intros H;
    vm_compute in H; try discriminate H; auto.
Qed.

(** Ordinary lookup finds no name that is [count] in some case of its
    letters: the hook answers for it. *)
Lemma count_is_not_found (object_has : string -> bool) (name : string) :
  caseless_eq name "count" = true -> AttrProxy.found object_has name = false.
Proof.
  intros H. apply caseless_eq_lower in H.
  change (lower "count") with "count" in H.
  destruct name as [|a [|b [|c [|d [|e [|f rest]]]]]]; cbn [lower] in H;
    try discriminate H.
  inversion H as [[Ha Hb Hc Hd He]].
  destruct (proj1 (lowers_to_count_letter a) Ha) as [->| ->];
    destruct (proj1 (proj2 (lowers_to_count_letter b)) Hb) as [->| ->];
    destruct (proj1 (proj2 (proj2 (lowers_to_count_letter c))) Hc) as [->| ->];
    destruct (proj1 (proj2 (proj2 (proj2 (lowers_to_count_letter d)))) Hd) as [->| ->];
    destruct (proj2 (proj2 (proj2 (proj2 (lowers_to_count_letter e)))) He) as [->| ->];
    reflexivity.
Qed.

Lemma snd_bind_ret {A B} (m : M A) (f : A -> B) (w : World) :
  snd ((x <- m ;; ret (f x)) w) = snd (m w).
Proof. unfold bind, ret. destruct (m w) as [[e|a] w1]; reflexivity. Qed.

(** C4, for the names ordinary lookup does not find.  Python evaluates
    [proxy.name] by ordinary lookup first, which finds [transport], [path],
    [temporary], the methods of the class and what every object has, and
    gives them as they are, sending nothing; the hook [__getattr__]
    answers for the other names.  A name that case-insensitively equals
    "count" is never found by ordinary lookup: the access sends the [GET]
    of [path + "." + name] before anything else and returns what the
    response decodes to, a scalar as it is and a reference as a temporary
    proxy of its path.  With any other name that is not found, the access
    returns a new proxy of path [path + "." + name] with [temporary]
    false, and nothing is done on the connection nor on the table. *)
Theorem getattr_resolves_count_only
        (json_loads : string -> exn + pyval) (fuel : nat)
        (object_has : string -> bool)
        (self : AttrProxy_) (name : string) (w : World) :
  let access := AttrProxy.getattr json_loads fuel object_has self name in
  let url := (baseUrl w ++ (path self ++ "." ++ name))%string in
  let h := [("connection", "keep-alive")%string] in
  (caseless_eq name "count" = true ->
     AttrProxy.found object_has name = false
     /\ (forall c, connection w = Some c ->
           exists rest, trace (snd (access w)) = trace w ++ EvRequest c "GET" url None h :: rest)
     /\ (forall c rs text v,
           connection w = Some c -> wire w (sent w) = Response 200 rs (Some text) ->
           scalar_body json_loads text v ->
           access w = (inr (VResult (RVal v)), answered c "GET" url None h w))
     /\ (forall c rs text q,
           connection w = Some c -> wire w (sent w) = Response 200 rs (Some text) ->
           reference_body json_loads text q ->
           disposed w = false -> 0 <= count_of (temporary_references w) q ->
           access w
           = (inr (VResult (RProxy (mkAttrProxy q true))),
              set_table (<[q := count_of (temporary_references w) q + 1]>
                           (temporary_references w))
                (allocate (OProxy (mkAttrProxy q true))
                   (answered c "GET" url None h w)))))
  /\ (caseless_eq name "count" = false -> AttrProxy.found object_has name = false ->
      let child := mkAttrProxy (path self ++ "." ++ name)%string false in
      access w = (inr (VResult (RProxy child)), allocate (OProxy child) w)
      /\ trace (allocate (OProxy child) w) = trace w
      /\ sent (allocate (OProxy child) w) = sent w
      /\ temporary_references (allocate (OProxy child) w) = temporary_references w)
  /\ (AttrProxy.found object_has name = true ->
      access w = (inr (VMember (AttrProxy.ordinary self name)), w)).
Proof.
  intros access url h. split; [|split].
  - intros Hcount. pose proof (count_is_not_found object_has name Hcount) as Hf.
    assert (E : access
                = (r <- (response <- Transport.get json_loads fuel
                                       (path self ++ "." ++ name)%string ;;
                         value <- AttrProxy._value_from_transport_response
                                    json_loads fuel self response ;;
                         Transport.drop json_loads fuel response ;;;
                         ret value) ;;
                   ret (VResult r))).
    { unfold access, AttrProxy.getattr, AttrProxy.__getattr__.
      rewrite Hf, lower_is_count, Hcount. reflexivity. }
    split; [exact Hf|]. split; [|split].
    + intros c Hc. rewrite E, snd_bind_ret.
      apply (resolve_pins_request json_loads fuel self _ c w Hc).
    + intros c rs text v Hc Hw Hb. rewrite E. unfold bind at 1.
      rewrite (resolve_scalar json_loads fuel self _ c rs text v w Hc Hw Hb).
      reflexivity.
    + intros c rs text q Hc Hw Hb Hd Hn. rewrite E. unfold bind at 1.
      rewrite (resolve_reference json_loads fuel self _ c rs text q w Hc Hw Hb Hd Hn).
      reflexivity.
  - intros Hcount Hf child. split; [|repeat split].
    unfold access, AttrProxy.getattr, AttrProxy.__getattr__.
    rewrite Hf, lower_is_count, Hcount. reflexivity.
  - intros Hf. unfold access, AttrProxy.getattr. rewrite Hf. reflexivity.
Qed.

(** ** Releasing a list of paths *)

Lemma delete_all_lookup paths t p :
  delete_all paths t !! p = if decide (p ∈ paths) then None else t !! p.
Proof.
  revert t. induction paths as [|a rest IH]; intros t; cbn.
  - rewrite decide_False; [reflexivity|]. intros H. inversion H.
  - rewrite IH. destruct (decide (p ∈ rest)) as [Hr|Hr].
    + rewrite decide_True; [reflexivity|]. right. exact Hr.
    + destruct (decide (a = p)) as [->|Hne].
      * rewrite dict_lookup_delete_eq, decide_True; [reflexivity|]. left.
      * rewrite dict_lookup_delete_ne by exact Hne.
        rewrite decide_False; [reflexivity|].
        intros H. inversion H; subst; [congruence|contradiction].
Qed.

Lemma delete_all_elem paths t p : p ∈ paths -> delete_all paths t !! p = None.
Proof. intros H. rewrite delete_all_lookup, decide_True; auto. Qed.

Lemma delete_all_not_elem paths t p : p ∉ paths -> delete_all paths t !! p = t !! p.
Proof. intros H. rewrite delete_all_lookup, decide_False; auto. Qed.

Lemma del_all_effect paths w :
  NoDup paths -> (forall p, p ∈ paths -> is_Some (temporary_references w !! p)) ->
  Transport.del_all paths w
  = (inr tt, set_table (delete_all paths (temporary_references w)) w).
Proof.
  revert w. induction paths as [|a rest IH]; intros w Hnd Hall.
  - cbn. rewrite set_table_same. reflexivity.
  - cbn. run. destruct (Hall a) as [c Hc]; [left|]. rewrite Hc.
    inversion Hnd as [|? ? Ha Hrest]; subst.
    rewrite IH; [reflexivity|exact Hrest|].
    intros p Hp. cbn. rewrite dict_lookup_delete_ne; [apply Hall; right; exact Hp|].
    intros ->. contradiction.
Qed.

Lemma del_all_stops pre a post w :
  NoDup pre -> (forall p, p ∈ pre -> is_Some (temporary_references w !! p)) ->
  a ∈ pre \/ temporary_references w !! a = None ->
  Transport.del_all (pre ++ a :: post) w
  = (inl (KeyError a), set_table (delete_all pre (temporary_references w)) w).
Proof.
  revert w. induction pre as [|b pre IH]; intros w Hnd Hall Ha.
  - cbn. run. destruct Ha as [Ha|Ha]; [inversion Ha|]. rewrite Ha.
    rewrite set_table_same. reflexivity.
  - cbn. run. destruct (Hall b) as [c Hc]; [left|]. rewrite Hc.
    inversion Hnd as [|? ? Hb Hrest]; subst.
    rewrite IH; [reflexivity|exact Hrest| |].
    + intros p Hp. cbn. rewrite dict_lookup_delete_ne; [apply Hall; right; exact Hp|].
      intros ->. contradiction.
    + cbn. destruct (decide (a = b)) as [->|Hne].
      * right. apply dict_lookup_delete_eq.
      * destruct Ha as [Ha|Ha].
        -- left. apply elem_of_cons in Ha as [Ha|Ha]; [contradiction|exact Ha].
        -- right. rewrite dict_lookup_delete_ne by congruence. exact Ha.
Qed.

Section Releasing.
Variable json_loads : string -> exn + pyval.

Lemma release_refs_effect fuel paths w :
  disposed w = false -> paths <> [] -> NoDup paths ->
  (forall p, p ∈ paths -> is_Some (temporary_references w !! p)) ->
  Transport.release_refs json_loads fuel paths w
  = release_post json_loads fuel paths
      (set_table (delete_all paths (temporary_references w)) w).
Proof.
  intros Hd Hne Hnd Hall.
  unfold Transport.release_refs, Transport.Body.release_refs.
  unfold bind at 1. unfold get_world at 1. rewrite Hd. cbn [negb].
  destruct paths as [|a rest]; [congruence|]. cbn [length Nat.eqb].
  unfold bind at 1. rewrite del_all_effect by assumption.
  reflexivity.
Qed.

(** An increment that raises leaves absent paths absent. *)
Lemma raising_increment_keeps_absent fuel :
  forall paths r w e w',
    absent paths w ->
    Transport._update_ref_count json_loads fuel r true w = (inl e, w') ->
    absent paths w'.
Proof.
  induction fuel as [|fuel IH]; intros paths r w e w' Habs H.
  - cbn in H. run. destruct (disposed w); [discriminate|].
    destruct (temporary_references w !! r) as [c|] eqn:E; [|discriminate].
    cbn in H. destruct (Z.eqb (c + 1) 0); [|discriminate].
    inversion H; subst. intros p Hp. cbn.
    rewrite dict_lookup_insert_ne; [apply Habs, Hp|].
    intros ->. rewrite (Habs p Hp) in E. discriminate.
  - cbn in H. run. destruct (disposed w) eqn:Hd; [discriminate|].
    destruct (temporary_references w !! r) as [c|] eqn:E; [|discriminate].
    cbn in H. destruct (Z.eqb (c + 1) 0); [|discriminate].
    change (Transport.release_refs json_loads fuel [r]
              (set_table (<[r := c + 1]> (temporary_references w)) w) = (inl e, w')) in H.
    rewrite release_refs_effect in H; cbn; try assumption; try discriminate.
    2: { apply NoDup_singleton. }
    2: { intros p Hp. apply list_elem_of_singleton in Hp as ->.
         rewrite dict_lookup_insert_eq. eauto. }
    cbn [delete_all temporary_references set_table] in H.
    rewrite dict_delete_insert_eq in H.
    change (release_post json_loads fuel [r]
              (set_table (delete r (temporary_references w)) w) = (inl e, w')) in H.
    assert (Habs0 : absent paths (set_table (delete r (temporary_references w)) w)).
    { intros p Hp. cbn. rewrite dict_lookup_delete_ne; [apply Habs, Hp|].
      intros ->. rewrite (Habs p Hp) in E. discriminate. }
    destruct (release_post_cases json_loads fuel [r]
                (set_table (delete r (temporary_references w)) w))
      as (w1 & W1 & _ & Hc).
    assert (Habs1 : absent paths w1).
    { intros p Hp. destruct W1 as [_ Ht _ _ _ _]. rewrite Ht. apply Habs0, Hp. }
    destruct Hc as [[e1 Hc]|[Hc|[q Hc]]]; rewrite Hc in H.
    + inversion H; subst. exact Habs1.
    + discriminate.
    + unfold new_ref, AttrRef.__init__ in H. run.
      cbn [AttrRef.tracked ref_transport ref_temporary] in H.
      destruct (Transport._update_ref_count json_loads fuel q true
                  (allocate (ORef (mkAttrRef q true (Some tt))) w1))
        as [[e2|[]] w2] eqn:E2;
        [|unfold Transport.drop, Transport.Body.drop, collect in H; discriminate].
      inversion H; subst. eapply IH; [|exact E2]. exact Habs1.
Qed.

Lemma raising_release_keeps_absent fuel paths sent_paths w e w' :
  absent paths w ->
  release_post json_loads fuel sent_paths w = (inl e, w') ->
  absent paths w'.
Proof.
  intros Habs H.
  destruct (release_post_cases json_loads fuel sent_paths w) as (w1 & W1 & _ & Hc).
  assert (Habs1 : absent paths w1).
  { intros p Hp. destruct W1 as [_ Ht _ _ _ _]. rewrite Ht. apply Habs, Hp. }
  destruct Hc as [[e1 Hc]|[Hc|[q Hc]]]; rewrite Hc in H.
  - inversion H; subst. exact Habs1.
  - discriminate.
  - unfold new_ref, AttrRef.__init__ in H. run.
    cbn [AttrRef.tracked ref_transport ref_temporary] in H.
    destruct (Transport._update_ref_count json_loads fuel q true
                (allocate (ORef (mkAttrRef q true (Some tt))) w1))
      as [[e2|[]] w2] eqn:E2;
        [|unfold Transport.drop, Transport.Body.drop, collect in H; discriminate].
    inversion H; subst.
    eapply raising_increment_keeps_absent; [|exact E2]. exact Habs1.
Qed.

(** C10, for a list without repetition.  [release_refs] of a non-empty
    list of distinct paths that are all in the table of a transport that
    is not disposed takes every one of them out of the table and then
    sends the release request; when the call raises, the paths are still
    out of the table. *)
Theorem release_refs_removes_before_request fuel (paths : list string) (w : World) :
  disposed w = false -> paths <> [] -> NoDup paths ->
  (forall p, p ∈ paths -> is_Some (temporary_references w !! p)) ->
  Transport.release_refs json_loads fuel paths w
  = release_post json_loads fuel paths
      (set_table (delete_all paths (temporary_references w)) w)
  /\ absent paths (set_table (delete_all paths (temporary_references w)) w)
  /\ (forall e w', Transport.release_refs json_loads fuel paths w = (inl e, w') ->
        absent paths w').
Proof.
  intros Hd Hne Hnd Hall.
  pose proof (release_refs_effect fuel paths w Hd Hne Hnd Hall) as E.
  assert (Habs : absent paths
                   (set_table (delete_all paths (temporary_references w)) w)).
  { intros p Hp. cbn. apply delete_all_elem, Hp. }
  split; [exact E|]. split; [exact Habs|].
  intros e w' H. rewrite E in H.
  eapply raising_release_keeps_absent; eassumption.
Qed.
End Releasing.

(** ** Shutdown *)

Lemma delete_all_covering (paths : list string) :
  forall t, (forall p, p ∈ Transport.keys t -> p ∈ paths) -> delete_all paths t = ∅.
Proof.
  induction paths as [|a rest IH]; intros t Hcover.
  - cbn. apply (proj1 (keys_nil t)).
    destruct (Transport.keys t) as [|k ks] eqn:E; [reflexivity|].
    assert (H : k ∈ []) by (apply Hcover; left). inversion H.
  - cbn. apply IH. intros p Hp. apply keys_delete in Hp as [Hp Hne].
    apply Hcover in Hp. apply elem_of_cons in Hp as [->|Hp]; [congruence|exact Hp].
Qed.

Lemma delete_all_keys (t : pydict) : delete_all (Transport.keys t) t = ∅.
Proof. apply delete_all_covering. auto. Qed.

(** A list with a repetition has a first one. *)
Lemma first_repetition (l : list string) :
  NoDup l \/ exists pre a post, l = pre ++ a :: post /\ NoDup pre /\ a ∈ pre.
Proof.
  induction l as [|x l IH] using rev_ind; [left; constructor|].
  destruct IH as [Hnd|(pre & a & post & -> & Hpre & Ha)].
  - destruct (decide (x ∈ l)) as [Hx|Hx].
    + right. exists l, x, []. auto.
    + left. apply NoDup_app. split; [exact Hnd|]. split.
      * intros y Hy Hy'. apply list_elem_of_singleton in Hy' as ->. contradiction.
      * apply NoDup_singleton.
  - right. exists pre, a, (post ++ [x]). rewrite <- app_assoc. auto.
Qed.

Section Shutdown.
Variable json_loads : string -> exn + pyval.

Lemma decode_http_cases fuel response w :
  (exists e, Transport._decode_http_response json_loads fuel response w = (inl e, w))
  \/ (exists v, Transport._decode_http_response json_loads fuel response w
                = (inr (DVal v), w))
  \/ (exists q, Transport._decode_http_response json_loads fuel response w
                = new_ref (Transport._update_ref_count json_loads fuel) q w).
Proof.
  unfold Transport._decode_http_response, Transport.Body._decode_http_response.
  destruct (Z.eqb (status response) 200).
  - destruct (content response) as [text|]; [|left; eexists; reflexivity].
    apply decode_cases.
  - left. eexists. reflexivity.
Qed.

(** On an empty table, waiting for the response adds one event. *)
Lemma await_on_empty_table fuel c w d w' :
  connection w = Some c -> disposed w = false -> temporary_references w = ∅ ->
  await json_loads fuel w = (inr d, w') ->
  trace w' = trace w ++ [EvGetResponse c]
  /\ connection w' = Some c /\ sent w' = sent w.
Proof.
  intros Hc Hd Ht H. unfold await, bind in H.
  assert (E : exists r, Transport.connection_getresponse w
                        = (r, log (EvGetResponse c) w)).
  { unfold Transport.connection_getresponse. run. rewrite Hc. cbn.
    destruct (sent w) as [|k]; [eexists; reflexivity|].
    destruct (wire w k); eexists; reflexivity. }
  destruct E as [r E]. rewrite E in H. destruct r as [e|response]; [discriminate|].
  destruct (decode_http_cases fuel response (log (EvGetResponse c) w))
    as [[e Hx]|[[v Hx]|[q Hx]]]; rewrite Hx in H.
  - discriminate.
  - inversion H; subst. cbn. auto.
  - unfold new_ref, AttrRef.__init__ in H. run.
    cbn [AttrRef.tracked ref_transport ref_temporary] in H.
    rewrite update_absent_increment in H.
    + inversion H; subst. cbn. auto.
    + exact Hd.
    + cbn. rewrite Ht. apply dict_lookup_empty.
Qed.

Lemma close_when_disposed fuel w :
  disposed w = true -> Transport.close json_loads fuel w = (inr tt, w).
Proof.
  intros Hd. unfold Transport.close, bind, get_world. rewrite Hd. reflexivity.
Qed.

Lemma close_effect fuel w :
  disposed w = false -> NoDup (Transport.keys (temporary_references w)) ->
  Transport.close json_loads fuel w
  = ((if decide (temporary_references w = ∅) then ret tt
      else release_post json_loads fuel (Transport.keys (temporary_references w))) ;;;
     Transport.connection_close ;;;
     modify (set_disposed true))
      (if decide (temporary_references w = ∅) then w else set_table ∅ w).
Proof.
  intros Hd Hnd. unfold Transport.close. unfold bind at 1. unfold get_world at 1.
  rewrite Hd. cbn [negb]. unfold bind at 1 3.
  destruct (decide (temporary_references w = ∅)) as [He|Hne].
  - unfold Transport.release_refs, Transport.Body.release_refs.
    unfold bind at 1. unfold get_world at 1. rewrite Hd. cbn [negb].
    rewrite He. reflexivity.
  - rewrite release_refs_effect.
    + rewrite delete_all_keys. reflexivity.
    + exact Hd.
    + intros H. apply keys_nil in H. contradiction.
    + exact Hnd.
    + intros p. apply keys_elem.
Qed.

(** A [close] that returns has read distinct keys: the second [del] of a
    key would have raised. *)
Lemma close_returns_distinct fuel w w1 :
  disposed w = false -> Transport.close json_loads fuel w = (inr tt, w1) ->
  NoDup (Transport.keys (temporary_references w)).
Proof.
  intros Hd H.
  destruct (first_repetition (Transport.keys (temporary_references w)))
    as [Hnd|(pre & a & post & E & Hpre & Ha)]; [exact Hnd|].
  exfalso. unfold Transport.close in H. unfold bind at 1 in H.
  unfold get_world at 1 in H. rewrite Hd in H. cbn [negb] in H.
  unfold bind at 1 in H.
  unfold Transport.release_refs, Transport.Body.release_refs in H.
  unfold bind at 1 in H. unfold get_world at 1 in H. rewrite Hd in H. cbn [negb] in H.
  rewrite E in H.
  replace (Nat.eqb (length (pre ++ a :: post)) 0) with false in H
    by (symmetry; apply Nat.eqb_neq; rewrite length_app; cbn; lia).
  unfold bind at 1 in H.
  rewrite (del_all_stops pre a post w Hpre) in H; [discriminate| |left; exact Ha].
  intros p Hp. apply keys_elem. rewrite E. apply elem_of_app. left. exact Hp.
Qed.
End Shutdown.

Section ShutdownOnce.
Variable json_loads : string -> exn + pyval.

Lemma send_without_connection fuel method url body h w :
  connection w = None ->
  Transport._send_http_request json_loads fuel method url body h w
  = (inl AttributeError, w).
Proof.
  intros Hc. rewrite send_unfold. unfold bind at 1.
  destruct (submission_wire method url body h w) as (_ & _ & E).
  cbn zeta in E. rewrite (E Hc). reflexivity.
Qed.

(** A request that returns, sent while the table is empty: it was
    submitted once, or aborted and submitted once more, and the response
    was read. *)
Lemma send_returns_traffic fuel method url body h c w d w' :
  connection w = Some c -> disposed w = false -> temporary_references w = ∅ ->
  Transport._send_http_request json_loads fuel method url body h w = (inr d, w') ->
  (connection w' = Some c
   /\ trace w' = trace w ++ sent_once c method url body h ++ [EvGetResponse c])
  \/ (wire w (sent w) = ReqRaises ConnectionAbortedError
      /\ connection w' = Some (opened w)
      /\ trace w' = trace w ++ sent_twice c (opened w) method url body h
                    ++ [EvGetResponse (opened w)]).
Proof.
  intros Hc Hd Ht H.
  destruct (wire w (sent w)) as [e| |] eqn:Hw.
  - assert (Hab : e = ConnectionAbortedError).
    { destruct e; try reflexivity;
        rewrite (send_first_try_fails json_loads fuel method url body h c _ w Hc Hw)
          in H by discriminate; discriminate. }
    subst e. right. split; [reflexivity|].
    destruct (send_aborted json_loads fuel method url body h c w Hc Hw) as [Hf Hok].
    destruct (wire w (S (sent w))) as [e2| |] eqn:Hw2.
    + rewrite (Hf e2 eq_refl) in H. discriminate.
    + rewrite Hok in H by discriminate.
      apply (await_on_empty_table json_loads fuel (opened w)) in H;
        [|reflexivity|exact Hd|exact Ht].
      destruct H as (Htr & Hcn & _). split; [exact Hcn|].
      rewrite Htr. cbn. rewrite <- !app_assoc. reflexivity.
    + rewrite Hok in H by discriminate.
      apply (await_on_empty_table json_loads fuel (opened w)) in H;
        [|reflexivity|exact Hd|exact Ht].
      destruct H as (Htr & Hcn & _). split; [exact Hcn|].
      rewrite Htr. cbn. rewrite <- !app_assoc. reflexivity.
  - left.
    rewrite (send_first_try_goes_out json_loads fuel method url body h c w Hc) in H
      by (intros e0; rewrite Hw; discriminate).
    apply (await_on_empty_table json_loads fuel c) in H;
      [|exact Hc|exact Hd|exact Ht].
    destruct H as (Htr & Hcn & _). split; [exact Hcn|].
    rewrite Htr. cbn. rewrite <- !app_assoc. reflexivity.
  - left.
    rewrite (send_first_try_goes_out json_loads fuel method url body h c w Hc) in H
      by (intros e0; rewrite Hw; discriminate).
    apply (await_on_empty_table json_loads fuel c) in H;
      [|exact Hc|exact Hd|exact Ht].
    destruct H as (Htr & Hcn & _). split; [exact Hcn|].
    rewrite Htr. cbn. rewrite <- !app_assoc. reflexivity.
Qed.

(** Whatever is done only adds to the record of the connection. *)
Lemma extends_trans (w1 w2 w3 : World) :
  (exists more, trace w2 = trace w1 ++ more) ->
  (exists more, trace w3 = trace w2 ++ more) ->
  exists more, trace w3 = trace w1 ++ more.
Proof.
  intros [m1 H1] [m2 H2]. exists (m1 ++ m2). rewrite H2, H1, app_assoc. reflexivity.
Qed.

Lemma update_extends fuel :
  forall r b w,
    exists more,
      trace (snd (Transport._update_ref_count json_loads fuel r b w)) = trace w ++ more.
Proof.
  assert (Hnil : forall w : World, exists more, trace w = trace w ++ more)
    by (intros w; exists []; rewrite app_nil_r; reflexivity).
  induction fuel as [|fuel IH]; intros r b w.
  - cbn. run. destruct (disposed w); [apply Hnil|].
    destruct (temporary_references w !! r) as [c|].
    + cbn. destruct (Z.eqb _ 0); apply (Hnil w).
    + destruct b; apply (Hnil w).
  - cbn. run. destruct (disposed w) eqn:Hd; [apply Hnil|].
    destruct (temporary_references w !! r) as [c|] eqn:E.
    2: { destruct b; apply (Hnil w). }
    cbn. destruct (Z.eqb _ 0); [|apply (Hnil w)].
    change (exists more,
              trace (snd (Transport.release_refs json_loads fuel [r]
                            (set_table (<[r := c + (if b then 1 else -1)]>
                                          (temporary_references w)) w)))
              = trace w ++ more).
    rewrite release_refs_effect;
      [|exact Hd|discriminate|apply NoDup_singleton
       |intros p Hp; apply list_elem_of_singleton in Hp as ->;
        cbn; rewrite dict_lookup_insert_eq; eauto].
    match goal with
    | |- context [release_post json_loads fuel [r] ?w0] =>
        destruct (release_post_cases json_loads fuel [r] w0) as (w1 & W1 & _ & Hc);
        assert (X1 : exists more, trace w1 = trace w ++ more)
          by (destruct W1 as [_ _ _ _ _ X]; exact X)
    end.
    destruct Hc as [[e1 ->]|[->|[q ->]]]; cbn [snd]; try exact X1.
    unfold new_ref, AttrRef.__init__. run.
    cbn [AttrRef.tracked ref_transport ref_temporary].
    match goal with
    | |- context [Transport._update_ref_count json_loads fuel q true ?w0] =>
        destruct (IH q true w0) as [m2 H2];
        destruct (Transport._update_ref_count json_loads fuel q true w0) as [[e2|[]] w2]
    end; cbn [snd] in *.
    + eapply extends_trans; [exact X1|]. exists m2. exact H2.
    + unfold Transport.drop, Transport.Body.drop, collect, AttrRef.__del__.
      cbn [snd AttrRef.tracked ref_transport ref_temporary ref_path].
      match goal with
      | |- context [Transport._update_ref_count json_loads fuel q false ?w0] =>
          destruct (IH q false w0) as [m3 H3]
      end.
      eapply extends_trans; [exact X1|].
      eapply extends_trans; [exists m2; exact H2|].
      exists m3. exact H3.
Qed.

Lemma drop_extends fuel (d : decoded) (w : World) :
  exists more, trace (snd (Transport.drop json_loads fuel d w)) = trace w ++ more.
Proof.
  destruct d as [v|r]; [exists []; rewrite app_nil_r; reflexivity|].
  unfold Transport.drop, Transport.Body.drop, collect, AttrRef.__del__. cbn [snd].
  destruct (AttrRef.tracked r).
  - apply (update_extends fuel (ref_path r) false (free (ORef r) w)).
  - exists []. rewrite app_nil_r. reflexivity.
Qed.

(** C5, for a first call that returns.  When [close] on a transport that
    is not disposed returns, the transport is disposed and every later
    [close] returns with the store untouched.  The first call sent nothing
    when the table was empty.  Else it emptied the table and sent one
    release request whose body lists every key of the table, submitted once
    (or, aborted, once more), and read its response; where that response
    carried no reference nothing else was done before the connection was
    closed, and a reference it carried was released in its turn. *)
Theorem shutdown_is_idempotent fuel (w w1 : World) :
  disposed w = false ->
  Transport.close json_loads fuel w = (inr tt, w1) ->
  disposed w1 = true
  /\ (forall fuel', Transport.close json_loads fuel' w1 = (inr tt, w1))
  /\ (NoDup (Transport.keys (temporary_references w))
      /\ forall p, p ∈ Transport.keys (temporary_references w)
                   <-> is_Some (temporary_references w !! p))
  /\ exists c c',
       connection w = Some c /\ connection w1 = Some c'
       /\ let url := (baseUrl w ++ "workspace/references/release")%string in
          let body := Transport.release_body (Transport.keys (temporary_references w)) in
          let h := Transport._create_http_headers in
          (temporary_references w = ∅ /\ c' = c
           /\ trace w1 = trace w ++ [EvClose c])
          \/ (temporary_references w <> ∅
              /\ exists cx d w2 more,
                   Transport._http_post json_loads fuel url body (set_table ∅ w)
                   = (inr d, w2)
                   /\ ((cx = c
                        /\ trace w2 = trace w ++ sent_once c "POST" url (Some body) h
                                      ++ [EvGetResponse c])
                       \/ (cx = opened w
                           /\ wire w (sent w) = ReqRaises ConnectionAbortedError
                           /\ trace w2 = trace w
                                         ++ sent_twice c (opened w) "POST" url (Some body) h
                                         ++ [EvGetResponse (opened w)]))
                   /\ trace w1 = trace w2 ++ more ++ [EvClose c']
                   /\ (forall v, d = DVal v -> more = [] /\ c' = cx)).
Proof.
  intros Hd H.
  pose proof (close_returns_disposed json_loads fuel w w1 H) as Hd1.
  split; [exact Hd1|].
  split; [intros fuel'; apply close_when_disposed; exact Hd1|].
  pose proof (close_returns_distinct json_loads fuel w w1 Hd H) as Hnd.
  split; [split; [exact Hnd|intros p; apply keys_elem]|].
  rewrite close_effect in H by assumption.
  destruct (decide (temporary_references w = ∅)) as [He|Hne].
  - unfold Transport.connection_close in H. run.
    destruct (connection w) as [c|] eqn:Hc; [|discriminate].
    inversion H; subst. exists c, c. cbn.
    split; [reflexivity|]. split; [exact Hc|]. left. auto.
  - unfold bind at 1 in H. unfold release_post in H.
    unfold bind at 1 in H. unfold get_world at 1 in H.
    unfold bind at 1 in H.
    cbn [baseUrl set_table] in H.
    destruct (connection w) as [c|] eqn:Hc.
    2: { unfold Transport._http_post, Transport.Body._http_post in H.
         change (Transport.Body._send_http_request json_loads
                   (Transport._update_ref_count json_loads fuel))
           with (Transport._send_http_request json_loads fuel) in H.
         rewrite send_without_connection in H by exact Hc. discriminate. }
    destruct (Transport._http_post json_loads fuel _ _ (set_table ∅ w))
      as [[e|d] w2] eqn:Es; [discriminate|].
    pose proof Es as Et.
    unfold Transport._http_post, Transport.Body._http_post in Et.
    change (Transport.Body._send_http_request json_loads
              (Transport._update_ref_count json_loads fuel))
      with (Transport._send_http_request json_loads fuel) in Et.
    apply (send_returns_traffic fuel _ _ _ _ c) in Et;
      [|exact Hc|exact Hd|reflexivity].
    destruct (drop_extends fuel d w2) as [more Hmore].
    destruct (Transport.drop json_loads fuel d w2) as [[e3|[]] w3] eqn:Ed;
      [discriminate|]. cbn [snd] in Hmore.
    unfold Transport.connection_close in H. run.
    destruct (connection w3) as [c'|] eqn:Hc3; [|discriminate].
    inversion H; subst. exists c, c'. cbn [connection set_disposed log trace].
    split; [reflexivity|]. split; [exact Hc3|].
    right. split; [exact Hne|].
    assert (Hscalar : forall cx, connection w2 = Some cx ->
                      forall v, d = DVal v -> more = [] /\ c' = cx).
    { intros cx Hcx v ->. cbn in Ed. inversion Ed; subst.
      split; [|congruence].
      apply (app_inv_head (trace w3)). rewrite app_nil_r. symmetry. exact Hmore. }
    destruct Et as [(Hc2 & Ht2)|(Hw & Hc2 & Ht2)].
    + exists c, d, w2, more. split; [exact Es|]. split.
      * left. split; [reflexivity|]. exact Ht2.
      * split; [rewrite Hmore, <- app_assoc; reflexivity|]. apply Hscalar, Hc2.
    + exists (opened w), d, w2, more. split; [exact Es|]. split.
      * right. split; [reflexivity|]. split; [exact Hw|]. exact Ht2.
      * split; [rewrite Hmore, <- app_assoc; reflexivity|]. apply Hscalar, Hc2.
Qed.
End ShutdownOnce.

(** * Concrete cases *)

Lemma scalar_five : scalar_body Sample.loads "5" (PInt 5).
Proof. right. split; [discriminate|]. split; reflexivity. Defined.

Lemma scalar_empty : scalar_body Sample.loads EmptyString (PStr EmptyString).
Proof. left. split; reflexivity. Defined.

Lemma reference_sample : reference_body Sample.loads Sample.ref_body "WS._1".
Proof.
  split; [vm_compute; discriminate|].
  exists [("type", PStr "ref"); ("path", PStr "WS._1")]%string.
  split; [vm_compute; reflexivity|]. split; reflexivity.
Defined.

(** The five shapes of a response body. *)
Example decode_shapes :
  let w := Sample.fresh Sample.quiet in
  fst (Transport._decode Sample.loads 1 EmptyString w) = inr (DVal (PStr EmptyString))
  /\ fst (Transport._decode Sample.loads 1 "5" w) = inr (DVal (PInt 5))
  /\ fst (Transport._decode Sample.loads 1 "true" w) = inr (DVal (PBool true))
  /\ fst (Transport._decode Sample.loads 1 (Sample.quoted "6.5.3") w)
     = inr (DVal (PStr "6.5.3"))
  /\ fst (Transport._decode Sample.loads 1 Sample.ref_body w)
     = inr (DRef (mkAttrRef "WS._1" true (Some tt)))
  /\ fst (Transport._decode Sample.loads 1 Sample.error_body w)
     = inl (ClientException_ (PStr "failed") (PStr "ExecutionError"))
  /\ fst (Transport._decode Sample.loads 1 Sample.list_body w)
     = inl (ClientException_
              (PStr ("Unable to deserialize response '" ++ Sample.list_body ++ "'.")%string)
              (PStr "SerializationError"))
  /\ fst (Transport._decode Sample.loads 1 "[]" w) = inl TypeError
  /\ fst (Transport._decode Sample.loads 1 "{}" w) = inl (KeyError "type").
Proof. repeat split; vm_compute; reflexivity. Qed.

(** [odtk.application.eval()] answered with a reference: the caller gets a
    temporary proxy, the one holder of the path once the [AttrRef] of the
    response is gone; finalising the proxy takes the entry out and sends
    the release request. *)
Example eval_of_a_reference :
  let w0 := Sample.fresh Sample.serving in
  let r1 := AttrProxy.eval Sample.loads 2 (mkAttrProxy "ODTK.application" false) w0 in
  let w1 := snd r1 in
  let w2 := snd (finalize Sample.loads 2 (OProxy (mkAttrProxy "WS._1" true)) w1) in
  fst r1 = inr (RProxy (mkAttrProxy "WS._1" true))
  /\ temporary_references w1 !! "WS._1" = Some 1
  /\ heap w1 = [OProxy (mkAttrProxy "WS._1" true)]
  /\ temporary_references w2 !! "WS._1" = None
  /\ heap w2 = []
  /\ trace w2 = trace w1
                ++ [EvRequest 0 "POST"
                      "http://127.0.0.1:9393/v1.0/workspace/references/release"
                      (Some (Transport.release_body ["WS._1"]))
                      [("connection", "keep-alive")];
                    EvGetResponse 0].
Proof. repeat split; vm_compute; reflexivity. Qed.

(** [Transport.get] hands the [AttrRef] itself to its caller, who holds
    it. *)
Example get_of_a_reference :
  let w0 := Sample.fresh Sample.serving in
  let r1 := Transport.get Sample.loads 2 "ODTK.application" w0 in
  fst r1 = inr (DRef (mkAttrRef "WS._1" true (Some tt)))
  /\ temporary_references (snd r1) !! "WS._1" = Some 1
  /\ heap (snd r1) = [ORef (mkAttrRef "WS._1" true (Some tt))].
Proof. repeat split; vm_compute; reflexivity. Qed.

(** A peer that answers a release request with a reference: the reference
    is counted, dropped, and released by a second request, all within the
    first. *)
Example release_answered_with_a_reference :
  let w0 := snd (AttrProxy.__init__ Sample.loads 2 "WS._7" true
                   (Sample.fresh Sample.serving)) in
  let r1 := finalize Sample.loads 2 (OProxy (mkAttrProxy "WS._7" true)) w0 in
  temporary_references (snd r1) = ∅
  /\ heap (snd r1) = []
  /\ trace (snd r1)
     = trace w0
       ++ [EvRequest 0 "POST"
             "http://127.0.0.1:9393/v1.0/workspace/references/release"
             (Some (Transport.release_body ["WS._7"]))
             [("connection", "keep-alive")];
           EvGetResponse 0;
           EvRequest 0 "POST"
             "http://127.0.0.1:9393/v1.0/workspace/references/release"
             (Some (Transport.release_body ["WS._1"]))
             [("connection", "keep-alive")];
           EvGetResponse 0].
Proof. repeat split; vm_compute; reflexivity. Qed.

(** A temporary proxy for ["WS._1"] on a new transport: the count goes
    from nothing to 1, the proxy is live and counted, and its [__del__]
    takes the entry out again. *)
Lemma temporary_holder_counts_witness :
  let w0 := Sample.fresh Sample.quiet in
  let w1 := Sample.one_proxy Sample.quiet in
  (disposed w0 = false /\ 0 <= count_of (temporary_references w0) "WS._1")
  /\ (disposed w1 = false /\ temporary_references w1 !! "WS._1" = Some 1)
  /\ temporary_references (snd (AttrProxy.__init__ Sample.loads 1 "WS._1" true w0))
       !! "WS._1" = Some 1
  /\ count_of (lowered (temporary_references w1) "WS._1" 1) "WS._1" = 1 - 1
  /\ (orderly Sample.loads Sample.dumps w1
      /\ OProxy (mkAttrProxy "WS._1" true) ∈ heap w1
      /\ holds (OProxy (mkAttrProxy "WS._1" true)) "WS._1" = true)
  /\ exists c, temporary_references w1 !! "WS._1" = Some c
               /\ 1 <= c /\ c = holders (heap w1) "WS._1".
Proof.
  intros w0 w1.
  assert (Hd0 : disposed w0 = false) by reflexivity.
  assert (Hc0 : 0 <= count_of (temporary_references w0) "WS._1")
    by (vm_compute; discriminate).
  assert (Hd1 : disposed w1 = false) by reflexivity.
  assert (Ht1 : temporary_references w1 !! "WS._1" = Some 1) by reflexivity.
  assert (Hr1 : orderly Sample.loads Sample.dumps w1).
  { apply (orderly_next Sample.loads Sample.dumps w0 w1).
    - apply orderly_init.
    - apply orderly_basic. apply (step_new_proxy Sample.loads 1 "WS._1" true w0). }
  assert (Hin : OProxy (mkAttrProxy "WS._1" true) ∈ heap w1) by left.
  assert (Hh : holds (OProxy (mkAttrProxy "WS._1" true)) "WS._1" = true)
    by reflexivity.
  destruct (temporary_holder_counts Sample.loads Sample.dumps 1 "WS._1")
    as (Hnew & Hdel & _ & Hlive).
  split; [split; assumption|]. split; [split; assumption|].
  split.
  { rewrite (proj1 (Hnew w0 Hd0 Hc0)). reflexivity. }
  split.
  { exact (proj1 (Hdel w1 1 Hd1 Ht1)). }
  split; [repeat split; assumption|].
  exact (Hlive w1 _ Hr1 Hd1 Hin Hh).
Defined.

(** C1 as it is stated fails after a [close] whose release request
    raises: the transport is not disposed and the temporary proxy is
    alive, but its path is out of the table, and its [__del__] raises
    instead of lowering a count.  It fails as well after a [close] that
    returned: the proxy is alive and the table is empty. *)
Lemma holder_outlives_failed_close :
  let w := Sample.one_proxy Sample.down in
  let w1 := snd (Transport.close Sample.loads 1 w) in
  let v1 := snd (Transport.close Sample.loads 1 (Sample.one_proxy Sample.quiet)) in
  let proxy := mkAttrProxy "WS._1" true in
  (disposed w = false /\ OProxy proxy ∈ heap w
   /\ temporary_references w !! "WS._1" = Some 1
   /\ fst (Transport.close Sample.loads 1 w) = inl (NetError "ConnectionRefusedError")
   /\ disposed w1 = false /\ OProxy proxy ∈ heap w1
   /\ temporary_references w1 !! "WS._1" = None
   /\ AttrProxy.__del__ Sample.loads 1 proxy w1
      = (inl (ClientException_
                (PStr "Cannot decrement count for WS._1 because it was not found in the reference map.")
                (PStr "InvalidOperation")), w1))
  /\ (disposed v1 = true /\ OProxy proxy ∈ heap v1
      /\ temporary_references v1 !! "WS._1" = None).
Proof.
  intros w w1 v1 proxy.
  repeat split; try (vm_compute; reflexivity); left.
Defined.

Lemma absent_increment_and_release_at_zero_witness :
  let w0 := Sample.fresh Sample.quiet in
  let w1 := Sample.one_proxy Sample.quiet in
  (disposed w0 = false /\ temporary_references w0 !! "WS._1" = None)
  /\ (disposed w1 = false /\ temporary_references w1 !! "WS._1" = Some 1 /\ 1 - 1 = 0)
  /\ Transport.increment_ref_count Sample.loads 1 "WS._1" w0
     = (inr tt, set_table (<["WS._1" := 1]> (temporary_references w0)) w0)
  /\ Transport.decrement_ref_count Sample.loads 1 "WS._1" w1
     = release_post Sample.loads 0 ["WS._1"]
         (set_table (delete "WS._1" (temporary_references w1)) w1).
Proof.
  intros w0 w1.
  assert (Hd0 : disposed w0 = false) by reflexivity.
  assert (Hn0 : temporary_references w0 !! "WS._1" = None) by reflexivity.
  assert (Hd1 : disposed w1 = false) by reflexivity.
  assert (Ht1 : temporary_references w1 !! "WS._1" = Some 1) by reflexivity.
  assert (Hz : 1 - 1 = 0) by reflexivity.
  split; [split; assumption|]. split; [repeat split; assumption|]. split.
  - exact (proj1 (absent_increment_and_release_at_zero
                    Sample.loads 1 "WS._1" w0 Hd0) Hn0).
  - exact (proj1 (proj2 (absent_increment_and_release_at_zero
                           Sample.loads 0 "WS._1" w1 Hd1) 1 Ht1 Hz)).
Defined.

Lemma decrement_absent_raises_witness :
  let w0 := Sample.fresh Sample.quiet in
  disposed w0 = false /\ temporary_references w0 !! "WS._1" = None
  /\ Transport.decrement_ref_count Sample.loads 1 "WS._1" w0
     = (inl (ClientException_
               (PStr "Cannot decrement count for WS._1 because it was not found in the reference map.")
               (PStr "InvalidOperation")), w0).
Proof.
  intros w0.
  assert (Hd0 : disposed w0 = false) by reflexivity.
  assert (Hn0 : temporary_references w0 !! "WS._1" = None) by reflexivity.
  split; [exact Hd0|]. split; [exact Hn0|].
  exact (decrement_absent_raises Sample.loads 1 "WS._1" w0 Hd0 Hn0).
Defined.

Lemma disposed_counts_are_noops_witness :
  let w := snd (Transport.close Sample.loads 1 (Sample.one_proxy Sample.quiet)) in
  disposed w = true
  /\ Transport.increment_ref_count Sample.loads 1 "WS._1" w = (inr tt, w)
  /\ Transport.decrement_ref_count Sample.loads 1 "WS._1" w = (inr tt, w).
Proof.
  intros w.
  assert (Hd : disposed w = true) by reflexivity.
  split; [exact Hd|].
  exact (disposed_counts_are_noops Sample.loads 1 "WS._1" w Hd).
Defined.

(** [odtk.children.COUNT] asks the peer; [odtk.children.counts] does not. *)
Lemma getattr_resolves_count_only_witness :
  let w := Sample.fresh Sample.numbered in
  let self := mkAttrProxy "ODTK.children" false in
  let none (name : string) := false in
  let h := [("connection", "keep-alive")%string] in
  (caseless_eq "COUNT" "count" = true
   /\ connection w = Some 0%nat /\ wire w (sent w) = Response 200 "OK" (Some "5"%string)
   /\ scalar_body Sample.loads "5" (PInt 5)
   /\ caseless_eq "counts" "count" = false /\ AttrProxy.found none "counts" = false
   /\ AttrProxy.found none "eval" = true)
  /\ AttrProxy.getattr Sample.loads 1 none self "COUNT" w
     = (inr (VResult (RVal (PInt 5))),
        answered 0 "GET" (baseUrl w ++ "ODTK.children.COUNT")%string None h w)
  /\ (exists rest,
        trace (snd (AttrProxy.getattr Sample.loads 1 none self "COUNT" w))
        = trace w ++ EvRequest 0 "GET" (baseUrl w ++ "ODTK.children.COUNT")%string None h
                     :: rest)
  /\ AttrProxy.getattr Sample.loads 1 none self "counts" w
     = (inr (VResult (RProxy (mkAttrProxy "ODTK.children.counts" false))),
        allocate (OProxy (mkAttrProxy "ODTK.children.counts" false)) w)
  /\ AttrProxy.getattr Sample.loads 1 none self "eval" w
     = (inr (VMember (MClass "eval")), w).
Proof.
  intros w self none h.
  assert (H1 : caseless_eq "COUNT" "count" = true) by reflexivity.
  assert (Hc : connection w = Some 0%nat) by reflexivity.
  assert (Hw : wire w (sent w) = Response 200 "OK" (Some "5"%string)) by reflexivity.
  assert (H2 : caseless_eq "counts" "count" = false) by reflexivity.
  assert (H3 : AttrProxy.found none "counts" = false) by reflexivity.
  assert (H4 : AttrProxy.found none "eval" = true) by reflexivity.
  split; [repeat split; try assumption; exact scalar_five|].
  destruct (getattr_resolves_count_only Sample.loads 1 none self "COUNT" w)
    as (Hcount & _ & _).
  destruct (Hcount H1) as (_ & Hpin & Hscalar & _).
  split; [exact (Hscalar 0%nat "OK" "5"%string (PInt 5) Hc Hw scalar_five)|].
  split; [exact (Hpin 0%nat Hc)|].
  split.
  - exact (proj1 (proj1 (proj2 (getattr_resolves_count_only
                                  Sample.loads 1 none self "counts" w)) H2 H3)).
  - exact (proj2 (proj2 (getattr_resolves_count_only
                           Sample.loads 1 none self "eval" w)) H4).
Defined.

(** C4 as it is stated fails for the names ordinary lookup finds:
    [proxy.path] is the [str] that [__init__] stored, not a new proxy of
    path [ODTK.path], and likewise [temporary], [transport] and [eval]. *)
Lemma path_is_not_a_child :
  let w := Sample.fresh Sample.quiet in
  let none (name : string) := false in
  caseless_eq "path" "count" = false
  /\ AttrProxy.getattr Sample.loads 1 none Sample.root "path" w
     = (inr (VMember (MPath "ODTK")), w)
  /\ AttrProxy.getattr Sample.loads 1 none Sample.root "path" w
     <> (inr (VResult (RProxy (mkAttrProxy "ODTK.path" false))),
         allocate (OProxy (mkAttrProxy "ODTK.path" false)) w)
  /\ AttrProxy.getattr Sample.loads 1 none Sample.root "temporary" w
     = (inr (VMember (MTemporary false)), w)
  /\ AttrProxy.getattr Sample.loads 1 none Sample.root "eval" w
     = (inr (VMember (MClass "eval")), w).
Proof.
  intros w none. repeat split; try reflexivity. discriminate.
Defined.

(** Shutdown with one tracked path and a peer that answers. *)
Lemma shutdown_is_idempotent_witness :
  let w := Sample.later_first Sample.quiet in
  let w1 := snd (Transport.close Sample.loads 1 w) in
  (disposed w = false /\ Transport.close Sample.loads 1 w = (inr tt, w1))
  /\ Transport.keys (temporary_references w) = ["WS._2"; "WS._1"]
  /\ trace w1
     = trace w
       ++ [EvRequest 0 "POST" (baseUrl w ++ "workspace/references/release")%string
             (Some (Transport.release_body ["WS._2"; "WS._1"]))
             Transport._create_http_headers;
           EvGetResponse 0; EvClose 0]
  /\ disposed w1 = true
  /\ forall fuel', Transport.close Sample.loads fuel' w1 = (inr tt, w1).
Proof.
  intros w w1.
  assert (Hd : disposed w = false) by reflexivity.
  assert (Hc : Transport.close Sample.loads 1 w = (inr tt, w1)) by reflexivity.
  split; [split; assumption|].
  split; [reflexivity|]. split; [vm_compute; reflexivity|].
  destruct (shutdown_is_idempotent Sample.loads 1 w w1 Hd Hc) as (H1 & H2 & _).
  split; assumption.
Defined.

(** C5 as it is stated fails when the release request of the first call
    raises: the first [close] raises and leaves the transport not
    disposed and the connection open, and the second [close] is the one
    that closes the connection and sets the flag.  And a first [close] with
    an empty table sends no release request at all. *)
Lemma shutdown_after_failed_release :
  let w := Sample.one_proxy Sample.down in
  let w1 := snd (Transport.close Sample.loads 1 w) in
  let w2 := snd (Transport.close Sample.loads 1 w1) in
  let v := Sample.fresh Sample.quiet in
  (disposed w = false
   /\ fst (Transport.close Sample.loads 1 w) = inl (NetError "ConnectionRefusedError")
   /\ disposed w1 = false
   /\ trace w1 = trace w ++ [EvRequest 0 "POST"
                               "http://127.0.0.1:9393/v1.0/workspace/references/release"
                               (Some (Transport.release_body ["WS._1"]))
                               [("connection", "keep-alive")]]
   /\ fst (Transport.close Sample.loads 1 w1) = inr tt
   /\ disposed w2 = true
   /\ trace w2 = trace w1 ++ [EvClose 0]
   /\ w2 <> w1)
  /\ (disposed v = false
      /\ fst (Transport.close Sample.loads 1 v) = inr tt
      /\ trace (snd (Transport.close Sample.loads 1 v)) = trace v ++ [EvClose 0]).
Proof.
  intros w w1 w2 v. repeat split; try (vm_compute; reflexivity).
  intros H. apply (f_equal disposed) in H. vm_compute in H. discriminate H.
Defined.

Lemma decode_untagged_shapes_witness :
  let w0 := Sample.fresh Sample.quiet in
  ("null" <> EmptyString /\ Sample.loads "null" = inr PNone)
  /\ Transport._decode Sample.loads 1 "null" w0 = (inl TypeError, w0).
Proof.
  intros w0.
  assert (Hne : "null" <> EmptyString) by discriminate.
  assert (Hl : Sample.loads "null" = inr PNone) by reflexivity.
  split; [split; assumption|].
  exact (proj1 (decode_untagged_shapes Sample.loads 1 "null" w0 Hne) Hl).
Defined.

Lemma non_200_raises_type_error_witness :
  let w0 := Sample.fresh Sample.missing in
  let response := mkResponse 404 "Not Found" (Some EmptyString) in
  (status response <> 200
   /\ connection w0 = Some 0%nat
   /\ wire w0 (sent w0) = Response 404 "Not Found" (Some EmptyString)
   /\ 404 <> 200)
  /\ Transport._decode_http_response Sample.loads 1 response w0 = (inl TypeError, w0)
  /\ fst (AttrProxy.eval Sample.loads 1 (mkAttrProxy "ODTK.application" false) w0)
     = inl TypeError.
Proof.
  intros w0 response.
  assert (Hs : status response <> 200) by discriminate.
  assert (Hc : connection w0 = Some 0%nat) by reflexivity.
  assert (Hw : wire w0 (sent w0) = Response 404 "Not Found" (Some EmptyString))
    by reflexivity.
  assert (Hn : 404 <> 200) by discriminate.
  split; [repeat split; assumption|].
  destruct (non_200_raises_type_error Sample.loads 1) as [H1 H2].
  split; [exact (H1 response w0 Hs)|].
  unfold AttrProxy.eval, Transport.get, Transport.Body.get, Transport.Body._http_get.
  unfold bind at 1. unfold bind at 1. unfold get_world at 1.
  change (Transport.Body._send_http_request Sample.loads
            (Transport._update_ref_count Sample.loads 1))
    with (Transport._send_http_request Sample.loads 1).
  rewrite (H2 "GET" _ None Transport._create_http_headers 0%nat w0
              404 "Not Found" (Some EmptyString) Hc Hw Hn).
  reflexivity.
Defined.

(** A peer that aborts the first submission: the request goes out twice. *)
Lemma abort_is_retried_once_witness :
  let w0 := Sample.fresh Sample.flaky in
  let h := Transport._create_http_headers in
  (connection w0 = Some 0%nat /\ wire w0 (sent w0) = ReqRaises ConnectionAbortedError)
  /\ trace (after_request (opened w0) "GET" "u" None h
              (after_reset 0 (after_request 0 "GET" "u" None h w0)))
     = trace w0 ++ sent_twice 0 (opened w0) "GET" "u" None h.
Proof.
  intros w0 h.
  assert (Hc : connection w0 = Some 0%nat) by reflexivity.
  assert (Hw : wire w0 (sent w0) = ReqRaises ConnectionAbortedError) by reflexivity.
  split; [split; assumption|].
  exact (proj1 (proj2 (abort_is_retried_once Sample.loads 1 "GET" "u" None h 0%nat w0 Hc)
                  Hw)).
Defined.

Lemma release_refs_removes_before_request_witness :
  let w := Sample.two_proxies Sample.down in
  let paths := ["WS._1"; "WS._2"] in
  (disposed w = false /\ paths <> [] /\ NoDup paths
   /\ forall p, p ∈ paths -> is_Some (temporary_references w !! p))
  /\ absent paths (set_table (delete_all paths (temporary_references w)) w)
  /\ forall e w', Transport.release_refs Sample.loads 1 paths w = (inl e, w') ->
                  absent paths w'.
Proof.
  intros w paths.
  assert (Hd : disposed w = false) by reflexivity.
  assert (Hne : paths <> []) by discriminate.
  assert (Hnd : NoDup paths).
  { unfold paths. apply NoDup_cons. split.
    - intros H. apply list_elem_of_singleton in H. discriminate H.
    - apply NoDup_singleton. }
  assert (Hall : forall p, p ∈ paths -> is_Some (temporary_references w !! p)).
  { intros p Hp. unfold paths in Hp.
    apply elem_of_cons in Hp as [->|Hp]; [exists 1; reflexivity|].
    apply list_elem_of_singleton in Hp as ->. exists 1. reflexivity. }
  split; [repeat split; assumption|].
  exact (proj2 (release_refs_removes_before_request Sample.loads 1 paths w
                  Hd Hne Hnd Hall)).
Defined.

(** C10 as it is stated fails for a list that names a path twice: the
    second [del] of that path raises [KeyError], the paths after it stay
    in the table, and no request is sent. *)
Lemma release_refs_with_repeated_path :
  let w := Sample.two_proxies Sample.quiet in
  let paths := ["WS._1"; "WS._1"; "WS._2"] in
  let w' := snd (Transport.release_refs Sample.loads 1 paths w) in
  disposed w = false
  /\ paths <> []
  /\ (forall p, p ∈ paths -> is_Some (temporary_references w !! p))
  /\ fst (Transport.release_refs Sample.loads 1 paths w) = inl (KeyError "WS._1")
  /\ temporary_references w' !! "WS._2" = Some 1
  /\ trace w' = trace w.
Proof.
  intros w paths w'. repeat split; try (vm_compute; reflexivity); try discriminate.
  intros p Hp. unfold paths in Hp.
  repeat (apply elem_of_cons in Hp as [->|Hp]; [exists 1; reflexivity|]).
  inversion Hp.
Defined.

(** * The whole interface *)


(** ** The connection and the address *)

Lemma connected_init host port peer : connected (Transport.__init__ host port peer).
Proof. exists 0%nat. split; reflexivity. Qed.

(** X1.  Whatever a program does with the client built by
    [Transport(host, port)], the transport has a current connection, the
    one opened last, its base URL is the [http://host:port/v1.0/] the
    constructor made of its arguments (with the defaults [127.0.0.1] and
    [9393]), and it talks to the same peer. *)
Theorem connection_and_address_are_kept
        (json_loads : string -> exn + pyval) (json_dumps : pyval -> string)
        (host : option string) (port : option Z) (peer : nat -> reply) (w : World) :
  api_reachable json_loads json_dumps host port peer w ->
  (exists c, connection w = Some c /\ opened w = S c)
  /\ baseUrl w = ("http://" ++ default "127.0.0.1" host ++ ":"
                  ++ pretty (default 9393 port) ++ "/v1.0/")%string
  /\ wire w = peer.
Proof.
  intros Hr. split.
  - induction Hr as [|w w' _ IH Hs]; [apply connected_init|].
    revert IH.
    apply (frame_api_step json_loads json_dumps
             (fun w w' => connected w -> connected w')); try assumption;
      try (intros; assumption); auto.
    intros w0 _. exists (opened w0). split; reflexivity.
  - induction Hr as [|w w' _ IH Hs]; [split; reflexivity|].
    destruct IH as [Hb Hw]. rewrite <- Hb, <- Hw.
    apply (frame_api_step json_loads json_dumps
             (fun w w' => baseUrl w' = baseUrl w /\ wire w' = wire w));
      try assumption; try (intros; split; reflexivity).
    intros w1 w2 w3 [H1 H2] [H3 H4]. split; congruence.
Qed.

(** ** After shutdown *)

(** X2.  Once the transport is disposed, no operation of the interface
    changes the table or clears the flag. *)
Theorem disposed_table_is_frozen
        (json_loads : string -> exn + pyval) (json_dumps : pyval -> string)
        (w w' : World) :
  api_step json_loads json_dumps w w' ->
  disposed w = true ->
  disposed w' = true /\ temporary_references w' = temporary_references w.
Proof.
  apply (frame_api_step json_loads json_dumps
           (fun w w' => disposed w = true ->
                        disposed w' = true /\ temporary_references w' = temporary_references w));
    try (intros; split; auto; fail).
  - intros w1 w2 w3 H12 H23 Hd. destruct (H12 Hd) as [Hd2 Ht2].
    destruct (H23 Hd2) as [Hd3 Ht3]. split; congruence.
  - intros t w0 Hf Ht. congruence.
Qed.

(** ** The balance of the table *)

(** X3.  In every store a program reaches by the operations of the
    client other than a [close] that raises and calls of [release_refs],
    [increment_ref_count] and [decrement_ref_count] from outside the
    class, while the transport is not disposed, the count the table gives
    a path is the number of live temporary holders of that path: it is
    never negative, and a path without a live holder counts 0. *)
Theorem table_counts_live_holders
        (json_loads : string -> exn + pyval) (json_dumps : pyval -> string) (w : World) :
  orderly json_loads json_dumps w -> disposed w = false ->
  forall p, count_of (temporary_references w) p = holders (heap w) p
            /\ 0 <= count_of (temporary_references w) p
            /\ ((forall o, o ∈ heap w -> holds o p = false) ->
                count_of (temporary_references w) p = 0).
Proof.
  intros Hr Hd p.
  pose proof (orderly_invariant json_loads json_dumps w Hr Hd p) as Hinv.
  split; [exact Hinv|]. split.
  - rewrite Hinv. apply holders_nonneg.
  - intros Hnone. rewrite Hinv. clear Hinv.
    induction (heap w) as [|o h IH]; [reflexivity|].
    cbn. rewrite (Hnone o) by left. rewrite IH; [reflexivity|].
    intros o' Ho'. apply Hnone. right. exact Ho'.
Qed.

(** ** Answers of the peer *)

Section Answers.
Variable json_loads : string -> exn + pyval.
Variable fuel : nat.

(** X4.  An error of [getresponse] is raised to the caller as it is, after
    the one submission of the request: the handler of
    [ConnectionAbortedError] covers the submission only, so nothing is
    submitted again, whatever the error. *)
Theorem response_error_is_not_retried method url body h c e w :
  connection w = Some c -> wire w (sent w) = RespRaises e ->
  Transport._send_http_request json_loads fuel method url body h w
  = (inl e, answered c method url body h w)
  /\ trace (answered c method url body h w)
     = trace w ++ [EvRequest c method url body h; EvGetResponse c]
  /\ connection (answered c method url body h w) = Some c.
Proof.
  intros Hc Hw. split; [|split].
  - rewrite (send_first_try_goes_out json_loads fuel method url body h c w Hc)
      by (intros e0; rewrite Hw; discriminate).
    unfold await, bind. rewrite (getresponse_effect c) by exact Hc.
    cbn [sent wire after_request]. rewrite Hw. reflexivity.
  - cbn. rewrite <- app_assoc. reflexivity.
  - exact Hc.
Qed.

(** X5.  [eval] answered with a scalar (or an empty body) sends one [GET]
    for the path of the proxy under the base URL, returns the scalar, and
    leaves the table and the heap as they were. *)
Theorem eval_returns_the_scalar self c rs text v w :
  connection w = Some c -> wire w (sent w) = Response 200 rs (Some text) ->
  scalar_body json_loads text v ->
  AttrProxy.eval json_loads fuel self w
  = (inr (RVal v),
     answered c "GET" (baseUrl w ++ path self)%string None
       [("connection", "keep-alive")%string] w).
Proof.
  intros Hc Hw Hb. unfold AttrProxy.eval.
  apply (resolve_scalar json_loads fuel self (path self) c rs text v w); assumption.
Qed.

(** X6.  [eval] answered with a reference to [q], on a transport that is
    not disposed, returns a temporary proxy of [q]: the [AttrRef] decoded
    from the response and the proxy each take a unit of the count of [q],
    the [AttrRef] is dropped on return, so that the count ends one higher
    than it was, with the proxy as the one new object and the one [GET] as
    all the traffic. *)
Theorem eval_keeps_one_unit_for_a_reference self c rs text q w :
  connection w = Some c -> wire w (sent w) = Response 200 rs (Some text) ->
  reference_body json_loads text q ->
  disposed w = false -> 0 <= count_of (temporary_references w) q ->
  AttrProxy.eval json_loads fuel self w
  = (inr (RProxy (mkAttrProxy q true)),
     set_table (<[q := count_of (temporary_references w) q + 1]> (temporary_references w))
       (allocate (OProxy (mkAttrProxy q true))
          (answered c "GET" (baseUrl w ++ path self)%string None
             [("connection", "keep-alive")%string] w))).
Proof.
  intros Hc Hw Hb Hd Hcount. unfold AttrProxy.eval.
  apply (resolve_reference json_loads fuel self (path self) c rs text q w); assumption.
Qed.
End Answers.

(** ** Encoding a value for a request *)

Lemma encode_refused json_dumps value :
  encodable value = false ->
  Transport._encode json_dumps value = inl (cannot_encode value).
Proof. destruct value as [[]| |]; try discriminate; reflexivity. Qed.

Lemma encode_accepted json_dumps value :
  encodable value = true -> exists text, Transport._encode json_dumps value = inr text.
Proof. destruct value as [[]| |]; try discriminate; eexists; reflexivity. Qed.

Lemma encode_all_refused json_dumps pre value post :
  Forall (fun a => encodable a = true) pre -> encodable value = false ->
  Transport.encode_all json_dumps (pre ++ value :: post) = inl (cannot_encode value).
Proof.
  intros Hpre Hv. induction Hpre as [|a pre Ha _ IH]; cbn.
  - rewrite (encode_refused json_dumps value Hv). reflexivity.
  - destruct (encode_accepted json_dumps a Ha) as [text ->]. rewrite IH. reflexivity.
Qed.

(** X7.  A list, a dictionary or an [AttrProxy] handed to [set], or
    anywhere among the arguments of [invoke] after values that can be
    encoded, raises the [SerializationError] that names its type, and
    nothing is sent: the store is the one before the call. *)
Theorem unencodable_value_sends_nothing
        (json_loads : string -> exn + pyval) (json_dumps : pyval -> string) (fuel : nat)
        (attribute_path : string) (pre : list pyarg) (value : pyarg) (post : list pyarg)
        (w : World) :
  Forall (fun a => encodable a = true) pre -> encodable value = false ->
  Transport.set json_loads fuel json_dumps attribute_path value w
  = (inl (cannot_encode value), w)
  /\ Transport.invoke json_loads fuel json_dumps attribute_path (pre ++ value :: post) w
     = (inl (cannot_encode value), w)
  /\ (type_name value = "list" \/ type_name value = "dict"
      \/ type_name value = "AttrProxy")%string.
Proof.
  intros Hpre Hv. split; [|split].
  - unfold Transport.set, Transport.Body.set. run.
    rewrite (encode_refused json_dumps value Hv). reflexivity.
  - unfold Transport.invoke, Transport.Body.invoke. run.
    rewrite (encode_all_refused json_dumps pre value post Hpre Hv). reflexivity.
  - destruct value as [[]| |]; try discriminate; auto.
Qed.

(** X8.  What [_encode] writes for a value, [_decode] reads back as that
    value when it is a [bool], an [int], a [float] or a [str]; [None] is
    written as [null], which [_decode] refuses with a [TypeError].  (With
    a [json.loads] that inverts [json.dumps], whose texts are not
    empty.) *)
Theorem encoded_value_is_decoded
        (json_loads : string -> exn + pyval) (json_dumps : pyval -> string) (fuel : nat)
        (v : pyval) (w : World) :
  encodable (GVal v) = true ->
  json_loads (json_dumps v) = inr v -> json_dumps v <> EmptyString ->
  json_loads "null" = inr PNone ->
  exists text,
    Transport._encode json_dumps (GVal v) = inr text
    /\ Transport._decode json_loads fuel text w
       = (if is_scalar v then inr (DVal v) else inl TypeError, w).
Proof.
  intros He Hl Hne Hnull. destruct v; try discriminate He.
  - exists "null"%string. split; [reflexivity|].
    unfold Transport._decode, Transport.Body._decode. cbn [String.eqb Ascii.eqb].
    run. rewrite Hnull. reflexivity.
  - eexists. split; [reflexivity|]. apply decode_scalar; auto.
  - eexists. split; [reflexivity|]. apply decode_scalar; auto.
  - eexists. split; [reflexivity|]. apply decode_scalar; auto.
  - eexists. split; [reflexivity|]. apply decode_scalar; auto.
Qed.

(** X9.  The text [_encode] writes for an [AttrRef], of whatever flag and
    transport, is read back by [_decode] as a reference of the same path
    that is temporary and tracked: on a transport that is not disposed it
    is registered and takes one unit of the count of its path. *)
Theorem encoded_reference_is_decoded_as_temporary
        (json_loads : string -> exn + pyval) (json_dumps : pyval -> string) (fuel : nat)
        (r : AttrRef_) (w : World) :
  let spec := PDict [("type", PStr "ref"); ("path", PStr (ref_path r))]%string in
  json_loads (json_dumps spec) = inr spec -> json_dumps spec <> EmptyString ->
  disposed w = false -> 0 <= count_of (temporary_references w) (ref_path r) ->
  exists text,
    Transport._encode json_dumps (GRef r) = inr text
    /\ Transport._decode json_loads fuel text w
       = (inr (DRef (mkAttrRef (ref_path r) true (Some tt))),
          set_table (<[ref_path r := count_of (temporary_references w) (ref_path r) + 1]>
                       (temporary_references w))
            (allocate (ORef (mkAttrRef (ref_path r) true (Some tt))) w)).
Proof.
  intros spec Hl Hne Hd Hc. eexists. split; [reflexivity|].
  apply (decode_ref json_loads fuel _ _ (ref_path r) w Hne Hl); auto.
Qed.

(** ** Releasing paths that are not all in the table *)

(** X10.  [release_refs] on a list whose first path that is repeated, or
    not in the table, is [a]: the [del] of [a] raises [KeyError], the
    paths before it are already out of the table, and no release request
    is sent for them. *)
Theorem release_refs_stops_at_the_first_missing_path
        (json_loads : string -> exn + pyval) (fuel : nat)
        (pre : list string) (a : string) (post : list string) (w : World) :
  disposed w = false -> NoDup pre ->
  (forall p, p ∈ pre -> is_Some (temporary_references w !! p)) ->
  a ∈ pre \/ temporary_references w !! a = None ->
  Transport.release_refs json_loads fuel (pre ++ a :: post) w
  = (inl (KeyError a), set_table (delete_all pre (temporary_references w)) w)
  /\ trace (set_table (delete_all pre (temporary_references w)) w) = trace w
  /\ forall p, p ∈ pre ->
       temporary_references (set_table (delete_all pre (temporary_references w)) w) !! p
       = None.
Proof.
  intros Hd Hnd Hall Ha. split; [|split].
  - unfold Transport.release_refs, Transport.Body.release_refs.
    unfold bind at 1. unfold get_world at 1. rewrite Hd. cbn [negb].
    replace (Nat.eqb (length (pre ++ a :: post)) 0) with false
      by (symmetry; apply Nat.eqb_neq; rewrite length_app; cbn; lia).
    unfold bind at 1. rewrite (del_all_stops pre a post w Hnd Hall Ha). reflexivity.
  - reflexivity.
  - intros p Hp. cbn. apply delete_all_elem, Hp.
Qed.

(** ** Navigation *)

Section Navigation.
Variable json_loads : string -> exn + pyval.
Variable fuel : nat.

Lemma getattr_child self name w :
  caseless_eq name "count" = false ->
  AttrProxy.__getattr__ json_loads fuel self name w
  = (inr (RProxy (mkAttrProxy (path self ++ hop_text (Attr name)) false)),
     allocate (OProxy (mkAttrProxy (path self ++ hop_text (Attr name)) false)) w).
Proof.
  intros H. unfold AttrProxy.__getattr__. rewrite lower_is_count, H. reflexivity.
Qed.

Lemma getitem_child self k w :
  AttrProxy.__getitem__ json_loads fuel self k w
  = (inr (mkAttrProxy (path self ++ hop_text (Item k)) false),
     allocate (OProxy (mkAttrProxy (path self ++ hop_text (Item k)) false)) w).
Proof. destruct k; reflexivity. Qed.

Lemma access_child object_has self name w :
  AttrProxy.found object_has name = false -> caseless_eq name "count" = false ->
  AttrProxy.getattr json_loads fuel object_has self name w
  = (inr (VResult (RProxy (mkAttrProxy (path self ++ hop_text (Attr name)) false))),
     allocate (OProxy (mkAttrProxy (path self ++ hop_text (Attr name)) false)) w).
Proof.
  intros Hf Hc. unfold AttrProxy.getattr. rewrite Hf. unfold bind.
  rewrite getattr_child by exact Hc. reflexivity.
Qed.

Lemma navigate_effect object_has hops :
  forall self w,
    lazy_hops object_has hops = true ->
    exists p,
      navigate json_loads fuel object_has self hops w
      = (inr (VResult (RProxy p)),
         set_heap (rev (waypoints (path self) hops) ++ heap w) w)
      /\ path p = extend (path self) hops
      /\ (hops <> [] -> temporary p = false).
Proof.
  induction hops as [|h rest IH]; intros self w Hl.
  - exists self. split; [destruct w; reflexivity|]. split; [reflexivity|congruence].
  - cbn [lazy_hops forallb] in Hl. apply andb_prop in Hl as [Hh Hrest].
    set (child := mkAttrProxy (path self ++ hop_text h) false).
    assert (E : navigate json_loads fuel object_has self (h :: rest) w
                = navigate json_loads fuel object_has child rest
                    (allocate (OProxy child) w)).
    { destruct h as [name|k]; cbn [navigate]; unfold bind.
      - apply andb_prop in Hh as [Hf Hc].
        apply negb_true_iff in Hf. apply negb_true_iff in Hc.
        rewrite access_child by assumption. reflexivity.
      - rewrite getitem_child. reflexivity. }
    destruct (IH child (allocate (OProxy child) w) Hrest) as (p & Hn & Hp & Ht).
    exists p. rewrite E, Hn. split; [|split].
    + f_equal. unfold set_heap, allocate. cbn. f_equal.
      rewrite <- app_assoc. reflexivity.
    + exact Hp.
    + intros _. destruct rest as [|h' rest']; [|apply Ht; discriminate].
      cbn in Hn. inversion Hn; subst. reflexivity.
Qed.

(** X11.  A chain of attribute accesses and subscripts in which every
    attribute name is one ordinary lookup does not find (so not [path],
    [temporary], [transport], [eval] or another name of the class or of
    [object]) and is not [count] in any case of its letters returns a
    proxy that is not temporary, whose path is the path of the start with
    the text of every step appended ([.name], [("key")], [(index)]), and
    sends nothing: but for the proxies built on the way, the store is the
    one before. *)
Theorem navigation_sends_nothing
        (object_has : string -> bool) (self : AttrProxy_) (hops : list hop) (w : World) :
  lazy_hops object_has hops = true -> hops <> [] ->
  let w' := set_heap (rev (waypoints (path self) hops) ++ heap w) w in
  navigate json_loads fuel object_has self hops w
  = (inr (VResult (RProxy (mkAttrProxy (extend (path self) hops) false))), w')
  /\ trace w' = trace w /\ sent w' = sent w
  /\ temporary_references w' = temporary_references w
  /\ forall o, o ∈ waypoints (path self) hops -> forall q, holds o q = false.
Proof.
  intros Hl Hne w'.
  destruct (navigate_effect object_has hops self w Hl) as (p & Hn & Hp & Ht).
  split.
  { rewrite Hn. destruct p as [pp pt]. cbn in Hp, Ht. rewrite Hp, (Ht Hne). reflexivity. }
  split; [reflexivity|]. split; [reflexivity|]. split; [reflexivity|].
  clear. generalize (path self) as s.
  induction hops as [|h rest IH]; intros s o Ho q; [inversion Ho|].
  cbn in Ho. apply elem_of_cons in Ho as [->|Ho]; [reflexivity|].
  apply (IH _ o Ho).
Qed.

End Navigation.

(** ** Sending values *)

Lemma remove_one_app (o : obj) (front h : list obj) :
  o ∈ front -> remove_one o (front ++ h) = remove_one o front ++ h.
Proof.
  induction front as [|o' front IH]; intros Ho; [inversion Ho|].
  cbn. destruct (decide (o = o')) as [|Hne]; [reflexivity|].
  apply elem_of_cons in Ho as [Ho|Ho]; [contradiction|].
  cbn. rewrite IH by exact Ho. reflexivity.
Qed.

Lemma remove_one_perm (o : obj) (front : list obj) :
  o ∈ front -> front ≡ₚ o :: remove_one o front.
Proof.
  induction front as [|o' front IH]; intros Ho; [inversion Ho|].
  cbn. destruct (decide (o = o')) as [<-|Hne]; [reflexivity|].
  apply elem_of_cons in Ho as [Ho|Ho]; [contradiction|].
  rewrite (IH Ho) at 1. apply Permutation_swap.
Qed.

(** Objects put on the heap and collected again, in whatever order, leave
    the heap as it was. *)
Lemma collected_all (os : list obj) :
  forall front h, front ≡ₚ os -> collected os (front ++ h) = h.
Proof.
  induction os as [|o os IH]; intros front h Hp.
  - apply Permutation_nil_r in Hp. subst. reflexivity.
  - assert (Ho : o ∈ front) by (rewrite Hp; left).
    cbn. rewrite remove_one_app by exact Ho. apply IH.
    apply (Permutation_cons_inv (a := o)).
    rewrite <- (remove_one_perm o front Ho). exact Hp.
Qed.

Section Sending.
Variable json_loads : string -> exn + pyval.
Variable json_dumps : pyval -> string.
Variable fuel : nat.

Lemma post_unfold url body w :
  Transport.Body._http_post json_loads (Transport._update_ref_count json_loads fuel)
    url body w
  = Transport._send_http_request json_loads fuel "POST" url (Some body)
      [("connection", "keep-alive")%string] w.
Proof. reflexivity. Qed.

Lemma forget_effect value w :
  AttrProxy.forget json_loads fuel value (converted value) w
  = (inr tt, set_heap (collected (conversions [value]) (heap w)) w).
Proof. destruct value; cbn; destruct w; reflexivity. Qed.

Lemma forget_all_effect args :
  forall w,
    AttrProxy.forget_all json_loads fuel args (map converted args) w
    = (inr tt, set_heap (collected (conversions args) (heap w)) w).
Proof.
  induction args as [|a rest IH]; intros w; [destruct w; reflexivity|].
  cbn [AttrProxy.forget_all map]. unfold bind. rewrite forget_effect, IH.
  destruct a; cbn; reflexivity.
Qed.

(** X13.  An assignment [self.name = value] posts the text of the value
    to [path.name/set], a proxy going out as a reference to its path,
    built without a transport so that no count is touched; answered with
    a scalar or an empty body the assignment returns, and the table and
    the heap are as they were. *)
Theorem assignment_posts_the_value self name value body c rs text v w :
  connection w = Some c -> wire w (sent w) = Response 200 rs (Some text) ->
  scalar_body json_loads text v ->
  Transport._encode json_dumps (converted value) = inr body ->
  AttrProxy.__setattr__ json_loads fuel json_dumps self name value w
  = (inr tt,
     answered c "POST" (baseUrl w ++ (path self ++ "." ++ name) ++ "/set")%string
       (Some body) [("connection", "keep-alive")%string] w)
  /\ forall p, value = GProxy p ->
       body = json_dumps (PDict [("type", PStr "ref"); ("path", PStr (path p))]%string).
Proof.
  intros Hc Hw Hb He. split.
  - unfold AttrProxy.__setattr__. unfold bind at 1. rewrite convert_effect.
    unfold bind at 1. unfold Transport.set, Transport.Body.set.
    unfold bind at 1. unfold get_world at 1.
    unfold bind at 1. unfold lift at 1. rewrite He.
    unfold bind at 1. rewrite post_unfold.
    rewrite (send_scalar json_loads fuel "POST" _ (Some body) _ c rs text v);
      [|destruct value; exact Hc|destruct value; exact Hw|exact Hb].
    cbn [Transport.Body.drop ret]. rewrite forget_effect.
    destruct value; try (destruct w; reflexivity).
    cbn. rewrite decide_True by reflexivity. destruct w; reflexivity.
  - intros p ->. cbn in He. inversion He. reflexivity.
Qed.

(** X14.  A call [self(args)] posts [[t1,t2,...]] to [path/invoke], where
    the texts are those of the arguments in their order, a proxy among
    them going out as a reference to its path; answered with a scalar or
    an empty body the call returns it, and the table and the heap are as
    they were. *)
Theorem call_posts_the_arguments self args texts c rs text v w :
  connection w = Some c -> wire w (sent w) = Response 200 rs (Some text) ->
  scalar_body json_loads text v ->
  Transport.encode_all json_dumps (map converted args) = inr texts ->
  AttrProxy.__call__ json_loads fuel json_dumps self args w
  = (inr (RVal v),
     answered c "POST" (baseUrl w ++ path self ++ "/invoke")%string
       (Some ("[" ++ Transport.join "," texts ++ "]")%string)
       [("connection", "keep-alive")%string] w)
  /\ length texts = length args.
Proof.
  intros Hc Hw Hb He. split.
  - unfold AttrProxy.__call__. unfold bind at 1. rewrite convert_all_effect.
    unfold bind at 1. unfold Transport.invoke, Transport.Body.invoke.
    unfold bind at 1. unfold get_world at 1.
    unfold bind at 1. unfold lift at 1. rewrite He. rewrite post_unfold.
    rewrite (send_scalar json_loads fuel "POST" _ _ _ c rs text v);
      [|exact Hc|exact Hw|exact Hb].
    cbn [AttrProxy._value_from_transport_response]. unfold bind at 1. unfold ret at 1.
    unfold bind at 1. cbn [Transport.drop Transport.Body.drop]. unfold ret at 1.
    unfold bind at 1. rewrite forget_all_effect. cbn [ret].
    f_equal. cbn [heap answered log after_request set_heap].
    rewrite collected_all by (symmetry; apply Permutation_rev).
    destruct w; reflexivity.
  - revert texts He. induction args as [|a rest IH]; intros texts He; cbn in He.
    + inversion He. reflexivity.
    + destruct (Transport._encode json_dumps (converted a)); [discriminate|].
      destruct (Transport.encode_all json_dumps (map converted rest)); [discriminate|].
      inversion He; subst. cbn. rewrite (IH l); reflexivity.
Qed.

Lemma items_effect self indices :
  forall w,
    AttrProxy.items json_loads fuel self indices w
    = (inr (map (item_at self) indices),
       set_heap (rev (map OProxy (map (item_at self) indices)) ++ heap w) w).
Proof.
  induction indices as [|i rest IH]; intros w; [destruct w; reflexivity|].
  cbn [AttrProxy.items]. unfold bind at 1.
  rewrite (getitem_child json_loads fuel self (KInt i) w).
  unfold bind at 1. rewrite IH. cbn [ret map]. f_equal.
  unfold set_heap, allocate. cbn. f_equal. rewrite <- app_assoc. reflexivity.
Qed.

(** X15.  Iterating a proxy reads [count] with one [GET] of [path.count].
    When the answer is an [int] [n] (a [bool] counts as 0 or 1), the
    iteration yields the proxies of [path(0)] to [path(n-1)], none of
    them temporary, none when [n] is not positive, and sends nothing
    more; when it is any other scalar, or the body is empty, it raises
    [TypeError]. *)
Theorem iteration_yields_the_items self c rs text v w :
  connection w = Some c -> wire w (sent w) = Response 200 rs (Some text) ->
  scalar_body json_loads text v ->
  let w1 := answered c "GET" (baseUrl w ++ (path self ++ ".count"))%string None
              [("connection", "keep-alive")%string] w in
  AttrProxy.__iter__ json_loads fuel self w
  = match range_of v with
    | Some n =>
        (inr (map (item_at self) (seqZ 0 n)),
         set_heap (rev (map OProxy (map (item_at self) (seqZ 0 n))) ++ heap w) w1)
    | None => (inl TypeError, w1)
    end.
Proof.
  intros Hc Hw Hb w1. unfold AttrProxy.__iter__, AttrProxy.__getattr__.
  change (String.eqb (lower "count") "count") with true. cbv iota.
  unfold Transport.get, Transport.Body.get.
  unfold bind at 1. unfold bind at 1. unfold bind at 1. unfold get_world at 1.
  unfold Transport.Body._http_get.
  change (Transport.Body._send_http_request json_loads
            (Transport._update_ref_count json_loads fuel))
    with (Transport._send_http_request json_loads fuel).
  rewrite (send_scalar json_loads fuel "GET" _ None _ c rs text v w Hc Hw Hb).
  cbn [AttrProxy._value_from_transport_response]. unfold bind at 1. unfold ret at 1.
  unfold bind at 1. cbn [Transport.drop Transport.Body.drop]. unfold ret at 1.
  cbn [ret].
  destruct v as [|b|n|f|s|l|m]; cbn [range_of]; try reflexivity.
  - rewrite items_effect. reflexivity.
  - rewrite items_effect. reflexivity.
Qed.

(** X16.  [set] ignores what the server answers.  Answered with a
    reference to a path that is not in the table, it has built the
    [AttrRef] for it and dropped it at once, so that a second request
    follows the [POST] of the value: the release of that path.  The
    table during that release is the one before the call. *)
Theorem ignored_reference_is_released attribute_path value body c rs text q w :
  connection w = Some c -> wire w (sent w) = Response 200 rs (Some text) ->
  reference_body json_loads text q ->
  disposed w = false -> temporary_references w !! q = None ->
  Transport._encode json_dumps value = inr body ->
  let w1 := answered c "POST" (baseUrl w ++ attribute_path ++ "/set")%string
              (Some body) [("connection", "keep-alive")%string] w in
  Transport.set json_loads (S fuel) json_dumps attribute_path value w
  = (inr tt, snd (release_post json_loads fuel [q] w1))
  /\ exists rest,
       trace (snd (release_post json_loads fuel [q] w1))
       = trace w
         ++ [EvRequest c "POST" (baseUrl w ++ attribute_path ++ "/set")%string
               (Some body) [("connection", "keep-alive")%string];
             EvGetResponse c;
             EvRequest c "POST" (baseUrl w ++ "workspace/references/release")%string
               (Some (Transport.release_body [q]))
               [("connection", "keep-alive")%string]]
         ++ rest.
Proof.
  intros Hc Hw Hb Hd Hq He w1. split.
  - unfold Transport.set, Transport.Body.set.
    unfold bind at 1. unfold get_world at 1.
    unfold bind at 1. unfold lift at 1. rewrite He.
    unfold bind at 1.
    change (Transport.Body._http_post json_loads
              (Transport._update_ref_count json_loads (S fuel))
              (baseUrl w ++ attribute_path ++ "/set")%string body w)
      with (Transport._send_http_request json_loads (S fuel) "POST"
              (baseUrl w ++ attribute_path ++ "/set")%string (Some body)
              [("connection", "keep-alive")%string] w).
    rewrite (send_reference json_loads (S fuel) "POST" _ (Some body) _ c rs text q w
               Hc Hw Hb Hd)
      by (unfold count_of; rewrite Hq; reflexivity).
    unfold Transport.Body.drop, collect, AttrRef.__del__.
    cbn [AttrRef.tracked ref_transport ref_temporary ref_path].
    f_equal.
    change (Transport._update_ref_count json_loads (S fuel) q false)
      with (Transport._update_ref_count json_loads (S fuel) q false).
    rewrite (update_decrement_to_zero json_loads fuel q);
      [|exact Hd
       |cbn; unfold count_of; rewrite Hq; cbn; apply dict_lookup_insert_eq].
    f_equal. f_equal. unfold set_table, free, allocate. cbn.
    rewrite decide_True by reflexivity.
    rewrite dict_delete_insert_eq, dict_delete_id by exact Hq.
    destruct w; reflexivity.
  - destruct (release_post_cases json_loads fuel [q] w1) as (w2 & W2 & T2 & Hcases).
    destruct (T2 c Hc) as [rest Hrest].
    assert (X : exists more, trace (snd (release_post json_loads fuel [q] w1))
                              = trace w2 ++ more).
    { destruct Hcases as [[e ->]|[->|[p ->]]];
        try (exists []; rewrite app_nil_r; reflexivity).
      unfold new_ref, AttrRef.__init__. run.
      cbn [AttrRef.tracked ref_transport ref_temporary].
      match goal with
      | |- context [Transport._update_ref_count json_loads fuel p true ?w0] =>
          destruct (update_extends json_loads fuel p true w0) as [m1 H1];
          destruct (Transport._update_ref_count json_loads fuel p true w0)
            as [[e1|[]] w3]
      end; cbn [snd] in *.
      - exists m1. exact H1.
      - match goal with
        | |- context [Transport.drop json_loads fuel ?d w3] =>
            destruct (drop_extends json_loads fuel d w3) as [m2 H2]
        end.
        exists (m1 ++ m2). rewrite H2, H1. cbn. rewrite app_assoc. reflexivity. }
    destruct X as [more Hmore]. exists (rest ++ more).
    rewrite Hmore, Hrest. cbn. rewrite <- !app_assoc. reflexivity.
Qed.
End Sending.

(** ** Answers that are raised *)

Section Raised.
Variable json_loads : string -> exn + pyval.
Variable fuel : nat.

Lemma eval_unfold self w :
  AttrProxy.eval json_loads fuel self w
  = (response <- Transport._send_http_request json_loads fuel "GET"
                   (baseUrl w ++ path self)%string None
                   [("connection", "keep-alive")%string] ;;
     value <- AttrProxy._value_from_transport_response json_loads fuel self response ;;
     Transport.drop json_loads fuel response ;;;
     ret value) w.
Proof. reflexivity. Qed.

Lemma eval_raises self c rs text e w :
  connection w = Some c -> wire w (sent w) = Response 200 rs (Some text) ->
  (forall w', Transport._decode json_loads fuel text w' = (inl e, w')) ->
  AttrProxy.eval json_loads fuel self w
  = (inl e, answered c "GET" (baseUrl w ++ path self)%string None
              [("connection", "keep-alive")%string] w).
Proof.
  intros Hc Hw He. rewrite eval_unfold. unfold bind at 1.
  rewrite (send_answered json_loads fuel "GET" _ None _ c 200 rs (Some text) w Hc Hw).
  unfold Transport._decode_http_response, Transport.Body._decode_http_response.
  cbn [status content Z.eqb Pos.eqb].
  change (Transport.Body._decode json_loads (Transport._update_ref_count json_loads fuel))
    with (Transport._decode json_loads fuel).
  rewrite He. reflexivity.
Qed.

(** X17.  An answer tagged [error] is raised by [eval] as the
    [ClientException] of its message and its code, after the one [GET];
    the table and the heap are as they were. *)
Theorem error_answer_is_raised self c rs text members code message w :
  connection w = Some c -> wire w (sent w) = Response 200 rs (Some text) ->
  text <> EmptyString -> json_loads text = inr (PDict members) ->
  dict_get members "type" = Some (PStr "error") ->
  dict_get members "code" = Some code ->
  dict_get members "message" = Some message ->
  AttrProxy.eval json_loads fuel self w
  = (inl (ClientException_ message code),
     answered c "GET" (baseUrl w ++ path self)%string None
       [("connection", "keep-alive")%string] w).
Proof.
  intros Hc Hw Hne Hl Ht Hcode Hm. apply (eval_raises self c rs text _ w Hc Hw).
  intros w'. rewrite (decode_dict json_loads fuel text members _ w' Hne Hl Ht).
  cbn [py_eq_str String.eqb Ascii.eqb Bool.eqb]. rewrite Hcode, Hm. reflexivity.
Qed.

(** X18.  An answer that is a JSON object tagged neither [ref] nor [error]
    is raised by [eval] as the [SerializationError] that quotes the body,
    after the one [GET]; the table and the heap are as they were. *)
Theorem unknown_tag_is_a_serialization_error self c rs text members data_type w :
  connection w = Some c -> wire w (sent w) = Response 200 rs (Some text) ->
  text <> EmptyString -> json_loads text = inr (PDict members) ->
  dict_get members "type" = Some data_type ->
  py_eq_str data_type "ref" = false -> py_eq_str data_type "error" = false ->
  AttrProxy.eval json_loads fuel self w
  = (inl (ClientException_
            (PStr ("Unable to deserialize response '" ++ text ++ "'.")%string)
            (PStr "SerializationError")),
     answered c "GET" (baseUrl w ++ path self)%string None
       [("connection", "keep-alive")%string] w).
Proof.
  intros Hc Hw Hne Hl Ht Hr He. apply (eval_raises self c rs text _ w Hc Hw).
  intros w'. rewrite (decode_dict json_loads fuel text members _ w' Hne Hl Ht).
  rewrite Hr, He. reflexivity.
Qed.
End Raised.

(** ** A call that returns an object *)

Lemma collected_past_proxy (os : list obj) (p : AttrProxy_) :
  (forall o, o ∈ os -> exists r, o = ORef r) ->
  forall l, collected os (OProxy p :: l) = OProxy p :: collected os l.
Proof.
  induction os as [|o os IH]; intros Hos l; [reflexivity|].
  destruct (Hos o) as [r ->]; [left|].
  cbn. rewrite decide_False by discriminate.
  apply IH. intros o Ho. apply Hos. right. exact Ho.
Qed.

Lemma conversions_are_refs args o : o ∈ conversions args -> exists r, o = ORef r.
Proof.
  induction args as [|a rest IH]; cbn; [intros H; inversion H|].
  destruct a; auto. intros H. apply elem_of_cons in H as [->|H]; eauto.
Qed.

(** X19.  A call [self(args)] answered with a reference to [q], on a
    transport that is not disposed, returns a temporary proxy of [q], as
    [createObj] does for the object it made: the count of [q] ends one
    higher than it was, the proxy is the one new object, and the [POST]
    of the arguments is all the traffic. *)
Theorem call_keeps_one_unit_for_a_reference
        (json_loads : string -> exn + pyval) (json_dumps : pyval -> string) (fuel : nat)
        (self : AttrProxy_) (args : list pyarg) (texts : list string)
        (c : nat) (rs text q : string) (w : World) :
  connection w = Some c -> wire w (sent w) = Response 200 rs (Some text) ->
  reference_body json_loads text q ->
  disposed w = false -> 0 <= count_of (temporary_references w) q ->
  Transport.encode_all json_dumps (map converted args) = inr texts ->
  AttrProxy.__call__ json_loads fuel json_dumps self args w
  = (inr (RProxy (mkAttrProxy q true)),
     set_table (<[q := count_of (temporary_references w) q + 1]> (temporary_references w))
       (allocate (OProxy (mkAttrProxy q true))
          (answered c "POST" (baseUrl w ++ path self ++ "/invoke")%string
             (Some ("[" ++ Transport.join "," texts ++ "]")%string)
             [("connection", "keep-alive")%string] w))).
Proof.
  intros Hc Hw Hb Hd Hcount He.
  unfold AttrProxy.__call__. unfold bind at 1. rewrite convert_all_effect.
  unfold bind at 1. unfold Transport.invoke, Transport.Body.invoke.
  unfold bind at 1. unfold get_world at 1.
  unfold bind at 1. unfold lift at 1. rewrite He. rewrite post_unfold.
  rewrite (send_reference json_loads fuel "POST" _ _ _ c rs text q
             (set_heap (rev (conversions args) ++ heap w) w) Hc Hw Hb Hd Hcount).
  cbn [temporary_references set_heap].
  set (n := count_of (temporary_references w) q) in *.
  unfold AttrProxy._value_from_transport_response, AttrProxy.__init__.
  cbn [ref_path ref_temporary].
  unfold bind at 1. unfold bind at 1. unfold bind at 1. unfold modify at 1.
  unfold bind at 1. unfold Transport.increment_ref_count.
  rewrite (update_present_nonzero json_loads fuel q true (n + 1));
    [|exact Hd|cbn; apply dict_lookup_insert_eq|lia].
  cbn [ret]. unfold bind at 1.
  unfold Transport.drop, Transport.Body.drop, collect, AttrRef.__del__.
  cbn [AttrRef.tracked ref_transport ref_temporary ref_path].
  rewrite (update_present_nonzero json_loads fuel q false (n + 1 + 1));
    [|exact Hd|cbn; apply dict_lookup_insert_eq|cbn; lia].
  cbn [snd]. unfold bind at 1. rewrite forget_all_effect. cbn [ret].
  f_equal. store_eq.
  - rewrite !dict_insert_insert_eq. f_equal. lia.
  - rewrite remove_one_skip by discriminate. rewrite remove_one_head.
    rewrite (collected_past_proxy _ _ (conversions_are_refs args)).
    rewrite collected_all by (symmetry; apply Permutation_rev). reflexivity.
Qed.

(** * Concrete cases of the whole interface *)

Lemma connection_and_address_are_kept_witness :
  let host := Some "localhost"%string in
  let w := snd (Transport.close Sample.loads 1
                  (snd (Transport.release_refs Sample.loads 1 ["WS._9"%string]
                          (Transport.__init__ host None Sample.flaky)))) in
  api_reachable Sample.loads Sample.dumps host None Sample.flaky w
  /\ (exists c, connection w = Some c /\ opened w = S c)
  /\ baseUrl w = ("http://" ++ default "127.0.0.1" host ++ ":"
                  ++ pretty (default 9393 None) ++ "/v1.0/")%string
  /\ wire w = Sample.flaky.
Proof.
  intros host w.
  assert (Hr : api_reachable Sample.loads Sample.dumps host None Sample.flaky w).
  { eapply api_next; [eapply api_next; [apply api_init|]|].
    - apply (api_release_refs Sample.loads Sample.dumps 1 ["WS._9"%string]).
    - apply (api_close Sample.loads Sample.dumps 1). }
  split; [exact Hr|].
  exact (connection_and_address_are_kept Sample.loads Sample.dumps host None
           Sample.flaky w Hr).
Defined.

Lemma disposed_table_is_frozen_witness :
  let w := set_disposed true (Sample.one_proxy Sample.serving) in
  let w' := snd (Transport.decrement_ref_count Sample.loads 1 "WS._1" w) in
  (api_step Sample.loads Sample.dumps w w' /\ disposed w = true)
  /\ disposed w' = true /\ temporary_references w' = temporary_references w.
Proof.
  intros w w'.
  assert (Hs : api_step Sample.loads Sample.dumps w w')
    by apply (api_decrement_ref_count Sample.loads Sample.dumps 1 "WS._1" w).
  assert (Hd : disposed w = true) by reflexivity.
  split; [split; assumption|].
  exact (disposed_table_is_frozen Sample.loads Sample.dumps w w' Hs Hd).
Defined.

Lemma table_counts_live_holders_witness :
  let w := Sample.two_proxies Sample.quiet in
  (orderly Sample.loads Sample.dumps w /\ disposed w = false)
  /\ count_of (temporary_references w) "WS._2" = holders (heap w) "WS._2"
  /\ 0 <= count_of (temporary_references w) "WS._2"
  /\ ((forall o, o ∈ heap w -> holds o "WS._2" = false) ->
      count_of (temporary_references w) "WS._2" = 0).
Proof.
  intros w.
  assert (Hr : orderly Sample.loads Sample.dumps w).
  { apply (orderly_next Sample.loads Sample.dumps (Sample.one_proxy Sample.quiet) w).
    - apply (orderly_next Sample.loads Sample.dumps (Sample.fresh Sample.quiet)).
      + apply orderly_init.
      + apply orderly_basic. apply (step_new_proxy Sample.loads 1 "WS._1" true).
    - apply orderly_basic. apply (step_new_proxy Sample.loads 1 "WS._2" true). }
  assert (Hd : disposed w = false) by reflexivity.
  split; [split; assumption|].
  exact (table_counts_live_holders Sample.loads Sample.dumps w Hr Hd "WS._2").
Defined.

Lemma response_error_is_not_retried_witness :
  let w := Sample.fresh Sample.silent in
  let h := Transport._create_http_headers in
  (connection w = Some 0%nat /\ wire w (sent w) = RespRaises ConnectionAbortedError)
  /\ Transport._send_http_request Sample.loads 1 "GET" "u" None h w
     = (inl ConnectionAbortedError, answered 0 "GET" "u" None h w)
  /\ trace (answered 0 "GET" "u" None h w)
     = trace w ++ [EvRequest 0 "GET" "u" None h; EvGetResponse 0]
  /\ connection (answered 0 "GET" "u" None h w) = Some 0%nat.
Proof.
  intros w h.
  assert (Hc : connection w = Some 0%nat) by reflexivity.
  assert (Hw : wire w (sent w) = RespRaises ConnectionAbortedError) by reflexivity.
  split; [split; assumption|].
  exact (response_error_is_not_retried Sample.loads 1 "GET" "u" None h 0%nat
           ConnectionAbortedError w Hc Hw).
Defined.

Lemma eval_returns_the_scalar_witness :
  let w := Sample.fresh Sample.numbered in
  (connection w = Some 0%nat /\ wire w (sent w) = Response 200 "OK" (Some "5"%string)
   /\ scalar_body Sample.loads "5" (PInt 5))
  /\ AttrProxy.eval Sample.loads 1 Sample.root w
     = (inr (RVal (PInt 5)),
        answered 0 "GET" (baseUrl w ++ "ODTK")%string None
          [("connection", "keep-alive")%string] w).
Proof.
  intros w.
  assert (Hc : connection w = Some 0%nat) by reflexivity.
  assert (Hw : wire w (sent w) = Response 200 "OK" (Some "5"%string)) by reflexivity.
  split; [repeat split; try assumption; exact scalar_five|].
  exact (eval_returns_the_scalar Sample.loads 1 Sample.root 0%nat "OK" "5" (PInt 5) w
           Hc Hw scalar_five).
Defined.

Lemma eval_keeps_one_unit_for_a_reference_witness :
  let w := Sample.one_proxy Sample.serving in
  (connection w = Some 0%nat
   /\ wire w (sent w) = Response 200 "OK" (Some Sample.ref_body)
   /\ reference_body Sample.loads Sample.ref_body "WS._1"
   /\ disposed w = false /\ 0 <= count_of (temporary_references w) "WS._1")
  /\ AttrProxy.eval Sample.loads 1 Sample.root w
     = (inr (RProxy (mkAttrProxy "WS._1" true)),
        set_table (<["WS._1" := count_of (temporary_references w) "WS._1" + 1]>
                     (temporary_references w))
          (allocate (OProxy (mkAttrProxy "WS._1" true))
             (answered 0 "GET" (baseUrl w ++ "ODTK")%string None
                [("connection", "keep-alive")%string] w))).
Proof.
  intros w.
  assert (Hc : connection w = Some 0%nat) by reflexivity.
  assert (Hw : wire w (sent w) = Response 200 "OK" (Some Sample.ref_body)) by reflexivity.
  assert (Hd : disposed w = false) by reflexivity.
  assert (Hn : 0 <= count_of (temporary_references w) "WS._1")
    by (vm_compute; discriminate).
  split; [repeat split; try assumption; apply reference_sample|].
  exact (eval_keeps_one_unit_for_a_reference Sample.loads 1 Sample.root 0%nat "OK"
           Sample.ref_body "WS._1" w Hc Hw reference_sample Hd Hn).
Defined.

Lemma unencodable_value_sends_nothing_witness :
  let w := Sample.fresh Sample.quiet in
  let pre := [GVal (PStr "Satellite"); GRef (mkAttrRef "WS._1" false None)] in
  let value := GVal (PList [PInt 1; PInt 2]) in
  (Forall (fun a => encodable a = true) pre /\ encodable value = false)
  /\ Transport.set Sample.loads 1 Sample.dumps "ODTK.f" value w
     = (inl (cannot_encode value), w)
  /\ Transport.invoke Sample.loads 1 Sample.dumps "ODTK.f" (pre ++ value :: [GVal PNone]) w
     = (inl (cannot_encode value), w)
  /\ (type_name value = "list" \/ type_name value = "dict"
      \/ type_name value = "AttrProxy")%string.
Proof.
  intros w pre value.
  assert (Hpre : Forall (fun a => encodable a = true) pre)
    by (repeat constructor).
  assert (Hv : encodable value = false) by reflexivity.
  split; [split; assumption|].
  exact (unencodable_value_sends_nothing Sample.loads Sample.dumps 1 "ODTK.f"
           pre value [GVal PNone] w Hpre Hv).
Defined.

Lemma encoded_value_is_decoded_witness :
  let w := Sample.fresh Sample.quiet in
  (encodable (GVal (PInt 5)) = true
   /\ Sample.loads (Sample.dumps (PInt 5)) = inr (PInt 5)
   /\ Sample.dumps (PInt 5) <> EmptyString
   /\ Sample.loads "null" = inr PNone)
  /\ exists text,
       Transport._encode Sample.dumps (GVal (PInt 5)) = inr text
       /\ Transport._decode Sample.loads 1 text w = (inr (DVal (PInt 5)), w).
Proof.
  intros w.
  assert (He : encodable (GVal (PInt 5)) = true) by reflexivity.
  assert (Hl : Sample.loads (Sample.dumps (PInt 5)) = inr (PInt 5))
    by (vm_compute; reflexivity).
  assert (Hne : Sample.dumps (PInt 5) <> EmptyString) by (vm_compute; discriminate).
  assert (Hnull : Sample.loads "null" = inr PNone) by reflexivity.
  split; [repeat split; assumption|].
  exact (encoded_value_is_decoded Sample.loads Sample.dumps 1 (PInt 5) w He Hl Hne Hnull).
Defined.

Lemma encoded_reference_is_decoded_as_temporary_witness :
  let w := Sample.fresh Sample.quiet in
  let r := mkAttrRef "WS._1" false None in
  let spec := PDict [("type", PStr "ref"); ("path", PStr "WS._1")]%string in
  (Sample.loads (Sample.dumps spec) = inr spec /\ Sample.dumps spec <> EmptyString
   /\ disposed w = false /\ 0 <= count_of (temporary_references w) "WS._1")
  /\ exists text,
       Transport._encode Sample.dumps (GRef r) = inr text
       /\ Transport._decode Sample.loads 1 text w
          = (inr (DRef (mkAttrRef "WS._1" true (Some tt))),
             set_table (<["WS._1" := count_of (temporary_references w) "WS._1" + 1]>
                          (temporary_references w))
               (allocate (ORef (mkAttrRef "WS._1" true (Some tt))) w)).
Proof.
  intros w r spec.
  assert (Hl : Sample.loads (Sample.dumps spec) = inr spec) by (vm_compute; reflexivity).
  assert (Hne : Sample.dumps spec <> EmptyString) by (vm_compute; discriminate).
  assert (Hd : disposed w = false) by reflexivity.
  assert (Hn : 0 <= count_of (temporary_references w) "WS._1")
    by (vm_compute; discriminate).
  split; [repeat split; assumption|].
  exact (encoded_reference_is_decoded_as_temporary Sample.loads Sample.dumps 1 r w
           Hl Hne Hd Hn).
Defined.

Lemma release_refs_stops_at_the_first_missing_path_witness :
  let w := Sample.two_proxies Sample.quiet in
  let t := temporary_references w in
  (disposed w = false /\ NoDup ["WS._1"%string]
   /\ (forall p, p ∈ ["WS._1"%string] -> is_Some (t !! p))
   /\ ("WS._3"%string ∈ ["WS._1"%string] \/ t !! "WS._3"%string = None))
  /\ Transport.release_refs Sample.loads 1 (["WS._1"] ++ "WS._3" :: ["WS._2"]) w
     = (inl (KeyError "WS._3"), set_table (delete_all ["WS._1"%string] t) w)
  /\ trace (set_table (delete_all ["WS._1"%string] t) w) = trace w
  /\ forall p, p ∈ ["WS._1"%string] ->
       temporary_references (set_table (delete_all ["WS._1"%string] t) w) !! p = None.
Proof.
  intros w t.
  assert (Hd : disposed w = false) by reflexivity.
  assert (Hnd : NoDup ["WS._1"%string]) by apply NoDup_singleton.
  assert (Hall : forall p, p ∈ ["WS._1"%string] -> is_Some (t !! p)).
  { intros p Hp. apply list_elem_of_singleton in Hp as ->. exists 1. reflexivity. }
  assert (Ha : "WS._3"%string ∈ ["WS._1"%string] \/ t !! "WS._3"%string = None)
    by (right; reflexivity).
  split; [repeat split; assumption|].
  exact (release_refs_stops_at_the_first_missing_path Sample.loads 1
           ["WS._1"%string] "WS._3" ["WS._2"%string] w Hd Hnd Hall Ha).
Defined.

Lemma navigation_sends_nothing_witness :
  let w := Sample.fresh Sample.down in
  let none (name : string) := false in
  let w' := set_heap (rev (waypoints "ODTK" Sample.to_satellites) ++ heap w) w in
  (lazy_hops none Sample.to_satellites = true /\ Sample.to_satellites <> [])
  /\ navigate Sample.loads 1 none Sample.root Sample.to_satellites w
     = (inr (VResult (RProxy (mkAttrProxy (extend "ODTK" Sample.to_satellites) false))),
        w')
  /\ trace w' = trace w /\ sent w' = sent w
  /\ temporary_references w' = temporary_references w
  /\ forall o, o ∈ waypoints "ODTK" Sample.to_satellites -> forall q, holds o q = false.
Proof.
  intros w none w'.
  assert (Hl : lazy_hops none Sample.to_satellites = true) by (vm_compute; reflexivity).
  assert (Hne : Sample.to_satellites <> []) by discriminate.
  split; [split; assumption|].
  exact (navigation_sends_nothing Sample.loads 1 none Sample.root Sample.to_satellites w
           Hl Hne).
Defined.


Lemma assignment_posts_the_value_witness :
  let w := Sample.fresh Sample.quiet in
  let body := Sample.dumps (PDict [("type", PStr "ref"); ("path", PStr "WS._1")]%string) in
  (connection w = Some 0%nat
   /\ wire w (sent w) = Response 200 "OK" (Some EmptyString)
   /\ scalar_body Sample.loads EmptyString (PStr EmptyString)
   /\ Transport._encode Sample.dumps (converted (GProxy Sample.satellite)) = inr body)
  /\ AttrProxy.__setattr__ Sample.loads 1 Sample.dumps Sample.root "selected"
       (GProxy Sample.satellite) w
     = (inr tt,
        answered 0 "POST" (baseUrl w ++ ("ODTK" ++ "." ++ "selected") ++ "/set")%string
          (Some body) [("connection", "keep-alive")%string] w)
  /\ forall p, GProxy Sample.satellite = GProxy p ->
       body = Sample.dumps (PDict [("type", PStr "ref"); ("path", PStr (path p))]%string).
Proof.
  intros w body.
  assert (Hc : connection w = Some 0%nat) by reflexivity.
  assert (Hw : wire w (sent w) = Response 200 "OK" (Some EmptyString)) by reflexivity.
  assert (He : Transport._encode Sample.dumps (converted (GProxy Sample.satellite))
               = inr body) by reflexivity.
  split; [repeat split; try assumption; exact scalar_empty|].
  exact (assignment_posts_the_value Sample.loads Sample.dumps 1 Sample.root "selected"
           (GProxy Sample.satellite) body 0%nat "OK" EmptyString (PStr EmptyString) w
           Hc Hw scalar_empty He).
Defined.

Lemma call_posts_the_arguments_witness :
  let w := Sample.fresh Sample.numbered in
  let args := [GProxy Sample.satellite; GVal (PStr "Satellite"); GProxy Sample.satellite] in
  let texts := [Sample.ref_body; Sample.quoted "Satellite"; Sample.ref_body] in
  (connection w = Some 0%nat
   /\ wire w (sent w) = Response 200 "OK" (Some "5"%string)
   /\ scalar_body Sample.loads "5" (PInt 5)
   /\ Transport.encode_all Sample.dumps (map converted args) = inr texts)
  /\ AttrProxy.__call__ Sample.loads 1 Sample.dumps Sample.root args w
     = (inr (RVal (PInt 5)),
        answered 0 "POST" (baseUrl w ++ "ODTK" ++ "/invoke")%string
          (Some ("[" ++ Transport.join "," texts ++ "]")%string)
          [("connection", "keep-alive")%string] w)
  /\ length texts = length args.
Proof.
  intros w args texts.
  assert (Hc : connection w = Some 0%nat) by reflexivity.
  assert (Hw : wire w (sent w) = Response 200 "OK" (Some "5"%string)) by reflexivity.
  assert (He : Transport.encode_all Sample.dumps (map converted args) = inr texts)
    by (vm_compute; reflexivity).
  split; [repeat split; try assumption; exact scalar_five|].
  exact (call_posts_the_arguments Sample.loads Sample.dumps 1 Sample.root args texts
           0%nat "OK" "5" (PInt 5) w Hc Hw scalar_five He).
Defined.

Lemma iteration_yields_the_items_witness :
  let w := Sample.fresh Sample.numbered in
  let w1 := answered 0 "GET" (baseUrl w ++ ("ODTK" ++ ".count"))%string None
              [("connection", "keep-alive")%string] w in
  (connection w = Some 0%nat
   /\ wire w (sent w) = Response 200 "OK" (Some "5"%string)
   /\ scalar_body Sample.loads "5" (PInt 5))
  /\ AttrProxy.__iter__ Sample.loads 1 Sample.root w
     = (inr (map (item_at Sample.root) (seqZ 0 5)),
        set_heap (rev (map OProxy (map (item_at Sample.root) (seqZ 0 5))) ++ heap w) w1).
Proof.
  intros w w1.
  assert (Hc : connection w = Some 0%nat) by reflexivity.
  assert (Hw : wire w (sent w) = Response 200 "OK" (Some "5"%string)) by reflexivity.
  split; [repeat split; try assumption; exact scalar_five|].
  exact (iteration_yields_the_items Sample.loads 1 Sample.root 0%nat "OK" "5" (PInt 5) w
           Hc Hw scalar_five).
Defined.

Lemma ignored_reference_is_released_witness :
  let w := Sample.fresh Sample.serving in
  let w1 := answered 0 "POST" (baseUrl w ++ "ODTK.x" ++ "/set")%string
              (Some "5"%string) [("connection", "keep-alive")%string] w in
  (connection w = Some 0%nat
   /\ wire w (sent w) = Response 200 "OK" (Some Sample.ref_body)
   /\ reference_body Sample.loads Sample.ref_body "WS._1"
   /\ disposed w = false /\ temporary_references w !! "WS._1"%string = None
   /\ Transport._encode Sample.dumps (GVal (PInt 5)) = inr "5"%string)
  /\ Transport.set Sample.loads 2 Sample.dumps "ODTK.x" (GVal (PInt 5)) w
     = (inr tt, snd (release_post Sample.loads 1 ["WS._1"%string] w1))
  /\ exists rest,
       trace (snd (release_post Sample.loads 1 ["WS._1"%string] w1))
       = trace w
         ++ [EvRequest 0 "POST" (baseUrl w ++ "ODTK.x" ++ "/set")%string
               (Some "5"%string) [("connection", "keep-alive")%string];
             EvGetResponse 0;
             EvRequest 0 "POST" (baseUrl w ++ "workspace/references/release")%string
               (Some (Transport.release_body ["WS._1"%string]))
               [("connection", "keep-alive")%string]]
         ++ rest.
Proof.
  intros w w1.
  assert (Hc : connection w = Some 0%nat) by reflexivity.
  assert (Hw : wire w (sent w) = Response 200 "OK" (Some Sample.ref_body)) by reflexivity.
  assert (Hd : disposed w = false) by reflexivity.
  assert (Hq : temporary_references w !! "WS._1"%string = None) by reflexivity.
  assert (He : Transport._encode Sample.dumps (GVal (PInt 5)) = inr "5"%string)
    by (vm_compute; reflexivity).
  split; [repeat split; try assumption; apply reference_sample|].
  exact (ignored_reference_is_released Sample.loads Sample.dumps 1 "ODTK.x" (GVal (PInt 5))
           "5" 0%nat "OK" Sample.ref_body "WS._1" w Hc Hw reference_sample Hd Hq He).
Defined.

Lemma error_answer_is_raised_witness :
  let w := Sample.fresh Sample.failing in
  let members := [("type", PStr "error"); ("code", PStr "ExecutionError");
                  ("message", PStr "failed")]%string in
  (connection w = Some 0%nat
   /\ wire w (sent w) = Response 200 "OK" (Some Sample.error_body)
   /\ Sample.error_body <> EmptyString
   /\ Sample.loads Sample.error_body = inr (PDict members)
   /\ dict_get members "type" = Some (PStr "error")
   /\ dict_get members "code" = Some (PStr "ExecutionError")
   /\ dict_get members "message" = Some (PStr "failed"))
  /\ AttrProxy.eval Sample.loads 1 Sample.root w
     = (inl (ClientException_ (PStr "failed") (PStr "ExecutionError")),
        answered 0 "GET" (baseUrl w ++ "ODTK")%string None
          [("connection", "keep-alive")%string] w).
Proof.
  intros w members.
  assert (Hc : connection w = Some 0%nat) by reflexivity.
  assert (Hw : wire w (sent w) = Response 200 "OK" (Some Sample.error_body))
    by reflexivity.
  assert (Hne : Sample.error_body <> EmptyString) by (vm_compute; discriminate).
  assert (Hl : Sample.loads Sample.error_body = inr (PDict members))
    by (vm_compute; reflexivity).
  assert (Ht : dict_get members "type" = Some (PStr "error")) by reflexivity.
  assert (Hcode : dict_get members "code" = Some (PStr "ExecutionError")) by reflexivity.
  assert (Hm : dict_get members "message" = Some (PStr "failed")) by reflexivity.
  split; [repeat split; assumption|].
  exact (error_answer_is_raised Sample.loads 1 Sample.root 0%nat "OK" Sample.error_body
           members (PStr "ExecutionError") (PStr "failed") w Hc Hw Hne Hl Ht Hcode Hm).
Defined.

Lemma unknown_tag_is_a_serialization_error_witness :
  let w := Sample.fresh Sample.listing in
  let members := [("type", PStr "list")]%string in
  (connection w = Some 0%nat
   /\ wire w (sent w) = Response 200 "OK" (Some Sample.list_body)
   /\ Sample.list_body <> EmptyString
   /\ Sample.loads Sample.list_body = inr (PDict members)
   /\ dict_get members "type" = Some (PStr "list")
   /\ py_eq_str (PStr "list") "ref" = false /\ py_eq_str (PStr "list") "error" = false)
  /\ AttrProxy.eval Sample.loads 1 Sample.root w
     = (inl (ClientException_
               (PStr ("Unable to deserialize response '" ++ Sample.list_body ++ "'.")%string)
               (PStr "SerializationError")),
        answered 0 "GET" (baseUrl w ++ "ODTK")%string None
          [("connection", "keep-alive")%string] w).
Proof.
  intros w members.
  assert (Hc : connection w = Some 0%nat) by reflexivity.
  assert (Hw : wire w (sent w) = Response 200 "OK" (Some Sample.list_body))
    by reflexivity.
  assert (Hne : Sample.list_body <> EmptyString) by (vm_compute; discriminate).
  assert (Hl : Sample.loads Sample.list_body = inr (PDict members))
    by (vm_compute; reflexivity).
  assert (Ht : dict_get members "type" = Some (PStr "list")) by reflexivity.
  assert (Hr : py_eq_str (PStr "list") "ref" = false) by reflexivity.
  assert (He : py_eq_str (PStr "list") "error" = false) by reflexivity.
  split; [repeat split; assumption|].
  exact (unknown_tag_is_a_serialization_error Sample.loads 1 Sample.root 0%nat "OK"
           Sample.list_body members (PStr "list") w Hc Hw Hne Hl Ht Hr He).
Defined.

Lemma call_keeps_one_unit_for_a_reference_witness :
  let w := Sample.fresh Sample.serving in
  let args := [GProxy Sample.root; GVal (PStr "Satellite")] in
  let texts := [Sample.dumps (PDict [("type", PStr "ref"); ("path", PStr "ODTK")]%string);
                Sample.quoted "Satellite"] in
  (connection w = Some 0%nat
   /\ wire w (sent w) = Response 200 "OK" (Some Sample.ref_body)
   /\ reference_body Sample.loads Sample.ref_body "WS._1"
   /\ disposed w = false /\ 0 <= count_of (temporary_references w) "WS._1"
   /\ Transport.encode_all Sample.dumps (map converted args) = inr texts)
  /\ AttrProxy.__call__ Sample.loads 1 Sample.dumps
       (mkAttrProxy "ODTK.application.createObj" false) args w
     = (inr (RProxy (mkAttrProxy "WS._1" true)),
        set_table (<["WS._1" := count_of (temporary_references w) "WS._1" + 1]>
                     (temporary_references w))
          (allocate (OProxy (mkAttrProxy "WS._1" true))
             (answered 0 "POST"
                (baseUrl w ++ "ODTK.application.createObj" ++ "/invoke")%string
                (Some ("[" ++ Transport.join "," texts ++ "]")%string)
                [("connection", "keep-alive")%string] w))).
Proof.
  intros w args texts.
  assert (Hc : connection w = Some 0%nat) by reflexivity.
  assert (Hw : wire w (sent w) = Response 200 "OK" (Some Sample.ref_body)) by reflexivity.
  assert (Hd : disposed w = false) by reflexivity.
  assert (Hn : 0 <= count_of (temporary_references w) "WS._1")
    by (vm_compute; discriminate).
  assert (He : Transport.encode_all Sample.dumps (map converted args) = inr texts)
    by (vm_compute; reflexivity).
  split; [repeat split; try assumption; apply reference_sample|].
  exact (call_keeps_one_unit_for_a_reference Sample.loads Sample.dumps 1
           (mkAttrProxy "ODTK.application.createObj" false) args texts 0%nat "OK"
           Sample.ref_body "WS._1" w Hc Hw reference_sample Hd Hn He).
Defined.
